(** * Coder App: project-store, change-watcher and reconciliation core

    A shallow embedding of the main-process IPC handlers of [src/main.js],
    the renderer's context builders and send-message driver of
    [src/App.tsx], the tree ordering of [src/components/FileExplorer.tsx]
    and the response parsers of [src/services/geminiService.ts] and
    [src/services/ollamaService.ts].

    Texts are modelled as Rocq strings of 8-bit characters; JavaScript
    strings are UTF-16, so characters above 0xFF are outside the model. *)

From Stdlib Require Import Ascii ZArith Lia.
From Stdlib Require Import Sorting.Sorted.
From stdpp Require Import base gmap sets list strings.

Set Warnings "-register-all".

(** ** Character and string helpers *)

Module Txt.

Definition a (n : nat) : ascii := ascii_of_nat n.

Definition c_lbrace := a 123.
Definition c_rbrace := a 125.
Definition c_lbrack := a 91.
Definition c_rbrack := a 93.
Definition c_quote := a 34.
Definition c_bslash := a 92.
Definition c_slash := a 47.
Definition c_colon := a 58.
Definition c_comma := a 44.
Definition c_dot := a 46.
Definition c_nl := a 10.
Definition c_cr := a 13.
Definition c_tab := a 9.
Definition c_space := a 32.
Definition c_minus := a 45.
Definition c_plus := a 43.
Definition c_backtick := a 96.

Definition ascii_eqb (x y : ascii) : bool := if ascii_dec x y then true else false.

Definition chars (s : string) : list ascii := String.list_ascii_of_string s.
Definition str (l : list ascii) : string := String.string_of_list_ascii l.

(** [\s] of a JavaScript regular expression, and [String.prototype.trim],
    over 8-bit characters: tab, LF, VT, FF, CR, space, NBSP (0xA0). *)
Definition is_js_space (c : ascii) : bool :=
  let n := nat_of_ascii c in
  (Nat.eqb n 9 || Nat.eqb n 10 || Nat.eqb n 11 || Nat.eqb n 12 ||
   Nat.eqb n 13 || Nat.eqb n 32 || Nat.eqb n 160)%bool.

(** JSON whitespace: space, tab, LF, CR. *)
Definition is_json_space (c : ascii) : bool :=
  let n := nat_of_ascii c in
  (Nat.eqb n 9 || Nat.eqb n 10 || Nat.eqb n 13 || Nat.eqb n 32)%bool.

Definition is_digit (c : ascii) : bool :=
  let n := nat_of_ascii c in (Nat.leb 48 n && Nat.leb n 57)%bool.

Fixpoint drop_while (p : ascii -> bool) (l : list ascii) : list ascii :=
  match l with
  | [] => []
  | x :: r => if p x then drop_while p r else l
  end.

(** [String.prototype.trim]. *)
Definition trim (s : string) : string :=
  str (rev (drop_while is_js_space (rev (drop_while is_js_space (chars s))))).

(** [l] starts with [p]. *)
Fixpoint prefixb (p l : list ascii) : bool :=
  match p, l with
  | [], _ => true
  | x :: p', y :: l' => (ascii_eqb x y && prefixb p' l')%bool
  | _ :: _, [] => false
  end.

(** [String.prototype.indexOf] on a character list: the first index at
    which [p] occurs, or [None] (JavaScript's -1). *)
Fixpoint index_of_from (p l : list ascii) (i : nat) : option nat :=
  if prefixb p l then Some i else
  match l with
  | [] => None
  | _ :: r => index_of_from p r (S i)
  end.

Definition index_of (p l : list ascii) : option nat := index_of_from p l 0.

(** [String.prototype.lastIndexOf] for a one-character needle. *)
Fixpoint last_index_of_from (c : ascii) (l : list ascii) (i : nat) (acc : option nat)
  : option nat :=
  match l with
  | [] => acc
  | x :: r => last_index_of_from c r (S i) (if ascii_eqb x c then Some i else acc)
  end.

Definition last_index_of (c : ascii) (l : list ascii) : option nat :=
  last_index_of_from c l 0 None.

(** [s.substring(i, j)] for [i <= j]. *)
Definition substring (l : list ascii) (i j : nat) : list ascii :=
  take (j - i) (drop i l).

(** [s.split(sep)] for a one-character separator. *)
Fixpoint split_on (sep : ascii) (l : list ascii) : list (list ascii) :=
  match l with
  | [] => [[]]
  | x :: r =>
      if ascii_eqb x sep then [] :: split_on sep r
      else match split_on sep r with
           | [] => [[x]]
           | w :: ws => (x :: w) :: ws
           end
  end.

(** [s.toLowerCase()] on ASCII letters. *)
Definition lower (c : ascii) : ascii :=
  let n := nat_of_ascii c in
  if (Nat.leb 65 n && Nat.leb n 90)%bool then ascii_of_nat (n + 32) else c.

Definition to_lower (s : string) : string := str (map lower (chars s)).

(** Writes a double quote as an apostrophe: [q "{'a':1}"] is the text
    with double quotes in place of the apostrophes. *)
Definition q (s : string) : string :=
  str (map (fun c => if ascii_eqb c (a 39) then a 34 else c) (chars s)).

(** The same with [^] standing for the double quote. *)
Definition qq (s : string) : string :=
  str (map (fun c => if ascii_eqb c (a 94) then a 34 else c) (chars s)).

End Txt.

Import Txt.

(** ** JSON values, [JSON.stringify] and [JSON.parse]

    Numbers keep their source lexeme (no arithmetic is done on them);
    objects keep their members in source order, and a property read
    returns the last member of that name, as [JSON.parse] does. *)

Module Json.

Inductive json : Type :=
| JNull
| JBool (b : bool)
| JNum (lexeme : string)
| JStr (s : string)
| JArr (items : list json)
| JObj (members : list (string * json)).

(** Property read [v.k]; [None] is [undefined]. *)
Definition get (v : json) (k : string) : option json :=
  match v with
  | JObj kv =>
      fold_left (fun acc '(k', x) => if String.eqb k k' then Some x else acc) kv None
  | _ => None
  end.

Definition is_array (v : option json) : bool :=
  match v with Some (JArr _) => true | _ => false end.

Definition typeof_string (v : option json) : bool :=
  match v with Some (JStr _) => true | _ => false end.

Definition hex_digit (n : nat) : ascii :=
  if Nat.ltb n 10 then ascii_of_nat (48 + n) else ascii_of_nat (87 + n).

(** String quoting of [JSON.stringify]. *)
Definition escape_char (c : ascii) : list ascii :=
  let n := nat_of_ascii c in
  if Nat.eqb n 34 then [c_bslash; c_quote]
  else if Nat.eqb n 92 then [c_bslash; c_bslash]
  else if Nat.eqb n 8 then [c_bslash; a 98]
  else if Nat.eqb n 9 then [c_bslash; a 116]
  else if Nat.eqb n 10 then [c_bslash; a 110]
  else if Nat.eqb n 12 then [c_bslash; a 102]
  else if Nat.eqb n 13 then [c_bslash; a 114]
  else if Nat.ltb n 32 then
    [c_bslash; a 117; a 48; a 48; hex_digit (n / 16); hex_digit (n mod 16)]
  else [c].

Definition quote (s : string) : list ascii :=
  c_quote :: flat_map escape_char (chars s) ++ [c_quote].

Fixpoint join (sep : list ascii) (xs : list (list ascii)) : list ascii :=
  match xs with
  | [] => []
  | [x] => x
  | x :: r => x ++ sep ++ join sep r
  end.

(** [JSON.stringify(v)]. *)
Fixpoint stringify_l (v : json) : list ascii :=
  match v with
  | JNull => chars "null"
  | JBool true => chars "true"
  | JBool false => chars "false"
  | JNum n => chars n
  | JStr s => quote s
  | JArr xs => c_lbrack :: join [c_comma] (map stringify_l xs) ++ [c_rbrack]
  | JObj kv =>
      c_lbrace ::
        join [c_comma] (map (fun '(k, x) => quote k ++ c_colon :: stringify_l x) kv)
        ++ [c_rbrace]
  end.

Definition stringify (v : json) : string := str (stringify_l v).

(** [JSON.stringify(v, null, 2)], at indentation [ind]. *)
Fixpoint stringify_pretty_l (ind : list ascii) (v : json) : list ascii :=
  let ind' := ind ++ [c_space; c_space] in
  match v with
  | JArr [] => chars "[]"
  | JObj [] => chars "{}"
  | JArr xs =>
      c_lbrack :: c_nl :: ind' ++
        join ([c_comma; c_nl] ++ ind') (map (stringify_pretty_l ind') xs)
        ++ c_nl :: ind ++ [c_rbrack]
  | JObj kv =>
      c_lbrace :: c_nl :: ind' ++
        join ([c_comma; c_nl] ++ ind')
          (map (fun '(k, x) => quote k ++ c_colon :: c_space :: stringify_pretty_l ind' x) kv)
        ++ c_nl :: ind ++ [c_rbrace]
  | _ => stringify_l v
  end.

Definition stringify_pretty (v : json) : string := str (stringify_pretty_l [] v).

(** The parser. Each nested call consumes at least one character, so a
    fuel of [length + 1] is never exhausted before the input is. *)

Definition skip_ws (l : list ascii) : list ascii := drop_while is_json_space l.

Definition expect (w : string) (v : json) (l : list ascii) : option (json * list ascii) :=
  if prefixb (chars w) l then Some (v, drop (String.length w) l) else None.

Definition hex_val (c : ascii) : option nat :=
  let n := nat_of_ascii c in
  if (Nat.leb 48 n && Nat.leb n 57)%bool then Some (n - 48)
  else if (Nat.leb 97 n && Nat.leb n 102)%bool then Some (n - 87)
  else if (Nat.leb 65 n && Nat.leb n 70)%bool then Some (n - 55)
  else None.

(** String body after the opening quote; a [\u] escape above 0xFF is
    outside the 8-bit character model and is rejected. *)
Fixpoint parse_str (l : list ascii) (acc : list ascii) : option (string * list ascii) :=
  match l with
  | [] => None
  | c :: r =>
      let n := nat_of_ascii c in
      if Nat.eqb n 34 then Some (str (rev acc), r)
      else if Nat.ltb n 32 then None
      else if Nat.eqb n 92 then
        match r with
        | [] => None
        | e :: r' =>
            let m := nat_of_ascii e in
            if Nat.eqb m 34 then parse_str r' (c_quote :: acc)
            else if Nat.eqb m 92 then parse_str r' (c_bslash :: acc)
            else if Nat.eqb m 47 then parse_str r' (c_slash :: acc)
            else if Nat.eqb m 98 then parse_str r' (a 8 :: acc)
            else if Nat.eqb m 102 then parse_str r' (a 12 :: acc)
            else if Nat.eqb m 110 then parse_str r' (c_nl :: acc)
            else if Nat.eqb m 114 then parse_str r' (c_cr :: acc)
            else if Nat.eqb m 116 then parse_str r' (c_tab :: acc)
            else if Nat.eqb m 117 then
              match r' with
              | h1 :: h2 :: h3 :: h4 :: r'' =>
                  match hex_val h1, hex_val h2, hex_val h3, hex_val h4 with
                  | Some 0, Some 0, Some x, Some y => parse_str r'' (ascii_of_nat (16 * x + y) :: acc)
                  | _, _, _, _ => None
                  end
              | _ => None
              end
            else None
        end
      else parse_str r (c :: acc)
  end.

Definition span_digits (l : list ascii) : list ascii * list ascii :=
  (take (length l - length (drop_while is_digit l)) l, drop_while is_digit l).

(** The number grammar: optional minus, integer part (0, or a nonzero
    digit and more digits), optional fraction, optional exponent. *)
Definition parse_num (l : list ascii) : option (json * list ascii) :=
  let '(sgn, l1) := match l with
                    | c :: r => if ascii_eqb c c_minus then ([c], r) else ([], l)
                    | [] => ([], l) end in
  let '(intp, l2) := span_digits l1 in
  match intp with
  | [] => None
  | d :: ds =>
      if (ascii_eqb d (a 48) && negb (Nat.eqb (length ds) 0))%bool then
        (* a leading zero ends the integer part *)
        Some (JNum (str (sgn ++ [d])), ds ++ l2)
      else
        let '(frac, l3) :=
          match l2 with
          | c :: r =>
              if ascii_eqb c c_dot then
                let '(fd, r') := span_digits r in
                match fd with [] => ([], l2) | _ => (c :: fd, r') end
              else ([], l2)
          | [] => ([], l2)
          end in
        let '(expo, l4) :=
          match l3 with
          | e :: r =>
              if (ascii_eqb e (a 101) || ascii_eqb e (a 69))%bool then
                let '(s, r1) := match r with
                                | c :: r0 => if (ascii_eqb c c_plus || ascii_eqb c c_minus)%bool
                                             then ([c], r0) else ([], r)
                                | [] => ([], r) end in
                let '(ed, r2) := span_digits r1 in
                match ed with [] => ([], l3) | _ => (e :: s ++ ed, r2) end
              else ([], l3)
          | [] => ([], l3)
          end in
        Some (JNum (str (sgn ++ intp ++ frac ++ expo)), l4)
  end.

Fixpoint parse_value (fuel : nat) (l : list ascii) : option (json * list ascii) :=
  match fuel with
  | O => None
  | S f =>
      match skip_ws l with
      | [] => None
      | c :: r =>
          let n := nat_of_ascii c in
          if Nat.eqb n 110 then expect "null" JNull (c :: r)
          else if Nat.eqb n 116 then expect "true" (JBool true) (c :: r)
          else if Nat.eqb n 102 then expect "false" (JBool false) (c :: r)
          else if Nat.eqb n 34 then
            match parse_str r [] with Some (s, r') => Some (JStr s, r') | None => None end
          else if Nat.eqb n 91 then
            match skip_ws r with
            | c' :: r' => if ascii_eqb c' c_rbrack then Some (JArr [], r')
                          else parse_items f r []
            | [] => None
            end
          else if Nat.eqb n 123 then
            match skip_ws r with
            | c' :: r' => if ascii_eqb c' c_rbrace then Some (JObj [], r')
                          else parse_members f r []
            | [] => None
            end
          else if (Nat.eqb n 45 || is_digit c)%bool then parse_num (c :: r)
          else None
      end
  end
with parse_items (fuel : nat) (l : list ascii) (acc : list json) : option (json * list ascii) :=
  match fuel with
  | O => None
  | S f =>
      match parse_value f l with
      | None => None
      | Some (v, r) =>
          match skip_ws r with
          | c :: r' =>
              if ascii_eqb c c_comma then parse_items f r' (v :: acc)
              else if ascii_eqb c c_rbrack then Some (JArr (rev (v :: acc)), r')
              else None
          | [] => None
          end
      end
  end
with parse_members (fuel : nat) (l : list ascii) (acc : list (string * json))
  : option (json * list ascii) :=
  match fuel with
  | O => None
  | S f =>
      match skip_ws l with
      | c :: r =>
          if ascii_eqb c c_quote then
            match parse_str r [] with
            | None => None
            | Some (k, r1) =>
                match skip_ws r1 with
                | c1 :: r2 =>
                    if ascii_eqb c1 c_colon then
                      match parse_value f r2 with
                      | None => None
                      | Some (v, r3) =>
                          match skip_ws r3 with
                          | c3 :: r4 =>
                              if ascii_eqb c3 c_comma then parse_members f r4 ((k, v) :: acc)
                              else if ascii_eqb c3 c_rbrace then Some (JObj (rev ((k, v) :: acc)), r4)
                              else None
                          | [] => None
                          end
                      end
                    else None
                | [] => None
                end
            end
          else None
      | [] => None
      end
  end.

(** [JSON.parse(s)]: [None] when it throws a SyntaxError. *)
Definition parse (s : string) : option json :=
  let l := chars s in
  match parse_value (S (length l)) l with
  | Some (v, r) => match skip_ws r with [] => Some v | _ => None end
  | None => None
  end.

End Json.

Import Json.

(** A thrown [Error] is [Err message]; a resolved value is [Ok]. *)
Inductive result (A : Type) : Type :=
| Ok (v : A)
| Err (message : string).
Arguments Ok {A} v.
Arguments Err {A} message.

(** ** AI response parsers *)

Module Parse.

(** Truthiness of a parsed JSON value. *)
Definition truthy (v : json) : bool :=
  match v with
  | JNull => false
  | JBool b => b
  | JNum n => negb (String.eqb n "0" || String.eqb n "-0")
  | JStr s => negb (String.eqb s "")
  | _ => true
  end.

Definition typeof_object (v : json) : bool :=
  match v with JObj _ | JArr _ | JNull => true | _ => false end.

(** All indices at which [p] occurs in [l], in increasing order. *)
Fixpoint occurrences_from (p l : list ascii) (i : nat) : list nat :=
  match l with
  | [] => if prefixb p [] then [i] else []
  | _ :: r => (if prefixb p l then [i] else []) ++ occurrences_from p r (S i)
  end.

Definition occurrences (p l : list ascii) : list nat := occurrences_from p l 0.

Definition last_opt (xs : list nat) : option nat :=
  match rev xs with [] => None | x :: _ => Some x end.

Definition tag_start := chars "<JSON_START>".
Definition tag_end := chars "<JSON_END>".
Definition fence := [c_backtick; c_backtick; c_backtick].

(** [s.match(/<JSON_START>([\s\S]* )<JSON_END>/)] (without the space) and
    its group 1: the
    leftmost start tag, the greedy group up to the last end tag after it. *)
Definition match_tags (l : list ascii) : option (list ascii) :=
  match index_of tag_start l with
  | None => None
  | Some i =>
      let b := i + length tag_start in
      match last_opt (List.filter (fun j => Nat.leb b j) (occurrences tag_end l)) with
      | None => None
      | Some j => Some (substring l b j)
      end
  end.

(** After position [k]: does [\s*```] match there? *)
Definition ws_then_fence (l : list ascii) (k : nat) : bool :=
  prefixb fence (drop_while is_js_space (drop k l)).

(** [s.match(/```(json)?\s*(\{[\s\S]*\})\s*```/)] and its group 2. For each
    opening fence, left to right: the optional [json], the whitespace and
    the [{] are forced; the greedy [[\s\S]*] then ends the group at the
    last [}] followed by [\s*```]. *)
Definition match_fence_at (l : list ascii) (p : nat) : option (list ascii) :=
  let after := p + 3 in
  let rest := drop after l in
  let body := if prefixb (chars "json") rest then drop 4 rest else rest in
  let body' := drop_while is_js_space body in
  match body' with
  | c :: _ =>
      if ascii_eqb c c_lbrace then
        let s := length l - length body' in
        let closers := List.filter (fun q => Nat.leb s q && ws_then_fence l (S q))%bool
                              (occurrences [c_rbrace] l) in
        match last_opt closers with
        | Some q => Some (substring l s (S q))
        | None => None
        end
      else None
  | [] => None
  end.

Fixpoint first_some (f : nat -> option (list ascii)) (ps : list nat) : option (list ascii) :=
  match ps with
  | [] => None
  | p :: r => match f p with Some x => Some x | None => first_some f r end
  end.

Definition match_fence (l : list ascii) : option (list ascii) :=
  first_some (match_fence_at l) (occurrences fence l).

Definition malformed := "The AI returned a response that was not valid JSON. Please try again.".
Definition empty_response := "The AI returned an empty response. Please try again.".

(** [parseAIResponse] of [src/services/geminiService.ts] (lines 47-92);
    [None] is an [undefined] response text. *)
Definition parseAIResponse (responseText : option string) : result json :=
  match responseText with
  | None => Err empty_response
  | Some t =>
      if String.eqb t "" then Err empty_response else
      let l := chars (trim t) in
      let extracted :=
        match match_tags l with
        | Some ((_ :: _) as g) => Some (chars (trim (str g)))
        | _ =>
            match match_fence l with
            | Some ((_ :: _) as g) => Some g
            | _ =>
                match index_of [c_lbrace] l, last_index_of c_rbrace l with
                | Some js, Some je =>
                    if Nat.ltb js je then Some (substring l js (S je)) else None
                | _, _ => None
                end
            end
        end in
      match extracted with
      | None => Err malformed
      | Some js =>
          match parse (str js) with
          | None => Err malformed
          | Some parsed =>
              if (truthy parsed && typeof_object parsed &&
                  is_array (get parsed "files") &&
                  typeof_string (get parsed "readmeContent"))%bool
              then Ok parsed
              else Err malformed
          end
      end
  end.

(** The per-file check of [parseOllamaResponse]. *)
Definition file_ok (f : json) : bool :=
  (typeof_string (get f "fileName") && typeof_string (get f "code"))%bool.

(** [parseOllamaResponse] of [src/services/ollamaService.ts] (lines 10-33). *)
Definition parseOllamaResponse (responseText : option string) : result json :=
  match responseText with
  | None => Err empty_response
  | Some t =>
      if String.eqb t "" then Err empty_response else
      match parse t with
      | None => Err "The AI returned invalid JSON. Unexpected token."
      | Some parsed =>
          match get parsed "files" with
          | Some (JArr fs) =>
              if (truthy parsed && typeof_string (get parsed "readmeContent") &&
                  forallb file_ok fs)%bool
              then Ok parsed
              else Err "The AI returned invalid JSON. Parsed JSON does not match the expected structure."
          | _ => Err "The AI returned invalid JSON. Parsed JSON does not match the expected structure."
          end
      end
  end.

End Parse.

(** ** The project directory on disk

    The project root is the empty path and always a directory; other
    paths are normalised project-relative paths with [/] separators (what
    [path.join(projectRoot, relativePath)] resolves to, relative to the
    root). Errors carry the Node error code. *)

Module Fs.

Inductive entry : Type :=
| EFile (content : string)
| EDir.

Abbreviation disk := (gmap string entry).

Definition slash := c_slash.

(** [path.dirname] of a relative path; [""] is the root. *)
Definition dirname (p : string) : string :=
  match last_index_of slash (chars p) with
  | None => ""
  | Some i => str (take i (chars p))
  end.

(** [path.basename]. *)
Definition basename (p : string) : string :=
  match last_index_of slash (chars p) with
  | None => p
  | Some i => str (drop (S i) (chars p))
  end.

(** [path.join(dir, name)] for a relative [dir]. *)
Definition path_join (dir name : string) : string :=
  if String.eqb dir "" then name else dir +:+ "/" +:+ name.

(** The directories [a], [a/b], ... leading to [p], [p] included. *)
Definition prefixes (p : string) : list string :=
  let segs := split_on slash (chars p) in
  map (fun n => str (Json.join [slash] (take n segs))) (seq 1 (length segs)).

(** One step of path resolution: the prefix [pre] must be a directory. *)
Definition resolve_step (d : disk) (acc : result unit) (pre : string) : result unit :=
  match acc with
  | Err e => Err e
  | Ok _ =>
      match d !! pre with
      | Some EDir => Ok tt
      | Some (EFile _) => Err "ENOTDIR"
      | None => Err "ENOENT"
      end
  end.

(** The kernel's lookup of the directory [p]: each of [a], [a/b], ...,
    [p] must be a directory; the first that is not decides the error,
    [ENOENT] if it is missing, [ENOTDIR] if it is a regular file. The root
    always resolves. *)
Definition resolve (d : disk) (p : string) : result unit :=
  if String.eqb p "" then Ok tt else fold_left (resolve_step d) (prefixes p) (Ok tt).

(** One step of [mkdir_p] towards [p]: an existing directory is kept, a
    missing one created; a regular file is [EEXIST] when it is [p]
    itself and [ENOTDIR] when it is a proper prefix (Node's [MKDirp]). *)
Definition mkdir_step (p : string) (acc : result disk) (pre : string) : result disk :=
  match acc with
  | Err e => Err e
  | Ok d' =>
      match d' !! pre with
      | Some EDir => Ok d'
      | Some (EFile _) => if String.eqb pre p then Err "EEXIST" else Err "ENOTDIR"
      | None => Ok (<[pre := EDir]> d')
      end
  end.

(** [fs.mkdir(p, { recursive: true })]. *)
Definition mkdir_p (d : disk) (p : string) : result disk :=
  if String.eqb p "" then Ok d else fold_left (mkdir_step p) (prefixes p) (Ok d).

(** [fs.writeFile(p, content)]: [open(p, O_CREAT)] resolves the parent
    directory first. *)
Definition write_file (d : disk) (p content : string) : result disk :=
  match resolve d (dirname p) with
  | Err e => Err e
  | Ok _ =>
      match d !! p with
      | Some EDir => Err "EISDIR"
      | _ => if String.eqb p "" then Err "EISDIR" else Ok (<[p := EFile content]> d)
      end
  end.

(** [fs.readFile(p, 'utf-8')]. *)
Definition read_file (d : disk) (p : string) : result string :=
  if String.eqb p "" then Err "EISDIR" else
  match resolve d (dirname p) with
  | Err e => Err e
  | Ok _ =>
      match d !! p with
      | Some (EFile c) => Ok c
      | Some EDir => Err "EISDIR"
      | None => Err "ENOENT"
      end
  end.

(** [p] is [top] or lies below it. *)
Definition under (top p : string) : bool :=
  String.eqb p top || prefixb (chars (top +:+ "/")) (chars p).

(** [p] lies strictly below [top]; every path lies below the root. *)
Definition strictly_under (top p : string) : bool :=
  if String.eqb top "" then negb (String.eqb p "") else prefixb (chars (top +:+ "/")) (chars p).

(** [fs.rm(p, { recursive: true, force: true })]: the [lstat] of [p]
    comes first, and [force] only forgives its [ENOENT]. *)
Definition rm_rf (d : disk) (p : string) : result disk :=
  match resolve d (dirname p) with
  | Err e => if String.eqb e "ENOENT" then Ok (filter (fun kv => negb (under p kv.1)) d) else Err e
  | Ok _ => Ok (filter (fun kv => negb (under p kv.1)) d)
  end.

(** Re-root the subtree at [src] onto [dst]. *)
Definition rebase (src dst k : string) : string :=
  dst +:+ str (drop (String.length src) (chars k)).

Definition move_subtree (d : disk) (src dst : string) : disk :=
  let moved := filter (fun kv => under src kv.1) d in
  let kept := filter (fun kv => negb (under src kv.1)) d in
  map_fold (fun k v acc => <[rebase src dst k := v]> acc) kept moved.

Definition dir_nonempty (d : disk) (p : string) : bool :=
  negb (bool_decide (filter (fun kv => String.eqb (dirname kv.1) p && negb (String.eqb kv.1 ""))%bool d = ∅)).

(** [fs.rename(src, dst)], with the semantics of Linux [rename(2)]: both
    parent directories are resolved, then the source must exist; a source
    that is an ancestor of the destination is [EINVAL], a destination that
    is an ancestor of the source [ENOTEMPTY]; renaming a path onto itself
    does nothing; an existing destination file is replaced, an existing
    empty destination directory is replaced by a directory. *)
Definition rename (d : disk) (src dst : string) : result disk :=
  match resolve d (dirname src) with
  | Err e => Err e
  | Ok _ =>
  match resolve d (dirname dst) with
  | Err e => Err e
  | Ok _ =>
  match (if String.eqb src "" then Some EDir else d !! src) with
  | None => Err "ENOENT"
  | Some es =>
      if strictly_under src dst then Err "EINVAL"
      else if strictly_under dst src then Err "ENOTEMPTY"
      else if String.eqb src dst then Ok d
      else match es, d !! dst with
           | EFile _, Some EDir => Err "EISDIR"
           | EFile _, _ => Ok (<[dst := es]> (delete src d))
           | EDir, Some (EFile _) => Err "ENOTDIR"
           | EDir, Some EDir =>
               if dir_nonempty d dst then Err "ENOTEMPTY"
               else Ok (move_subtree (delete dst d) src dst)
           | EDir, None => Ok (move_subtree d src dst)
           end
  end end end.

(** [fs.readdir(p, { withFileTypes: true })]: the names and kinds of the
    entries directly inside [p] (the listing order of the OS is the order
    of the map). *)
Definition readdir (d : disk) (p : string) : result (list (string * bool)) :=
  match resolve d p with
  | Err e => Err e
  | Ok _ =>
    Ok (map (fun kv => (basename kv.1, match kv.2 with EDir => true | EFile _ => false end))
            (List.filter (fun kv => String.eqb (dirname kv.1) p && negb (String.eqb kv.1 ""))%bool
                    (map_to_list d)))
  end.

End Fs.

Import Fs.

(** ** Project Store: tree listing ([readProjectTree], main.js 183-209) *)

Module Store.

Inductive TreeNode : Type :=
| FileNode (name path : string)
| FolderNode (name path : string) (children : list TreeNode).

Definition node_name (n : TreeNode) : string :=
  match n with FileNode nm _ => nm | FolderNode nm _ _ => nm end.

Definition node_path (n : TreeNode) : string :=
  match n with FileNode _ p => p | FolderNode _ p _ => p end.

Definition ignoredDirs : list string :=
  ["node_modules"; ".git"; ".vscode"; "__pycache__"; "dist"; "build"; ".coder"].

Definition ignored_has (name : string) : bool := existsb (String.eqb name) ignoredDirs.

(** [readProjectTree(currentPath, rootDir)]; [currentPath] is given
    relative to the root, so [path.relative(rootDir, fullPath)] is the
    joined path itself. A failing [readdir] is caught and yields the
    entries collected so far, i.e. none. The recursion is bounded by the
    directory depth, hence by [fuel = size + 1]. *)
Fixpoint readProjectTree_fuel (fuel : nat) (d : disk) (currentPath : string) : list TreeNode :=
  match fuel with
  | O => []
  | S f =>
      match readdir d currentPath with
      | Err _ => []
      | Ok dirents =>
          flat_map (fun (dirent : string * bool) =>
            let '(name, isDirectory) := dirent in
            if ignored_has name then [] else
            let relativePath := path_join currentPath name in
            if isDirectory then
              [FolderNode name relativePath (readProjectTree_fuel f d relativePath)]
            else [FileNode name relativePath]) dirents
      end
  end.

Definition readProjectTree (d : disk) : list TreeNode :=
  readProjectTree_fuel (S (size d)) d "".

(** Every name occurring in a tree, at any depth. *)
Fixpoint tree_names (n : TreeNode) : list string :=
  match n with
  | FileNode nm _ => [nm]
  | FolderNode nm _ ch => nm :: flat_map tree_names ch
  end.

End Store.

Import Store.

(** ** Main process: IPC handlers and the Change Watcher (main.js) *)

Module Main.

Record main_state : Type := MainState {
  fs : disk;
  isInternalChange : bool;
  timers : list nat;       (* due times of pending [isInternalChange = false] resets *)
  now : nat;               (* milliseconds *)
  sent : nat;              (* 'project-updated' messages sent to the window *)
  window : bool            (* [mainWindow] is set *)
}.

Definition with_fs (m : main_state) (d : disk) : main_state :=
  MainState d (isInternalChange m) (timers m) (now m) (sent m) (window m).

Definition with_flag (m : main_state) (b : bool) : main_state :=
  MainState (fs m) b (timers m) (now m) (sent m) (window m).

Definition add_timer (m : main_state) (due : nat) : main_state :=
  MainState (fs m) (isInternalChange m) (timers m ++ [due]) (now m) (sent m) (window m).

(** The [write-file] handler: arm the flag, create the parent
    directories, write, and in [finally] schedule the reset 250 ms on.
    Directories created before a failing write stay created. *)
Definition write_file_handler (m : main_state) (relativePath content : string)
  : main_state * result unit :=
  let m1 := with_flag m true in
  let '(d, r) :=
    match mkdir_p (fs m1) (dirname relativePath) with
    | Err e => (fs m1, Err e)
    | Ok d1 =>
        match Fs.write_file d1 relativePath content with
        | Err e => (d1, Err e)
        | Ok d2 => (d2, Ok tt)
        end
    end in
  (add_timer (with_fs m1 d) (now m + 250), r).

Definition chat_history_path := ".coder/chat.json".

(** The [write-chat-history] handler: errors are caught and logged. *)
Definition write_chat_history_handler (m : main_state) (history : json)
  : main_state * result unit :=
  match mkdir_p (fs m) ".coder" with
  | Err _ => (m, Ok tt)
  | Ok d1 =>
      match Fs.write_file d1 chat_history_path (stringify_pretty history) with
      | Err _ => (with_fs m d1, Ok tt)
      | Ok d2 => (with_fs m d2, Ok tt)
      end
  end.

(** The [read-chat-history] handler: [[]] when the file is missing or
    does not parse. *)
Definition read_chat_history_handler (m : main_state) : json :=
  match read_file (fs m) chat_history_path with
  | Ok data => match parse data with Some v => v | None => JArr [] end
  | Err _ => JArr []
  end.

Definition lift (m : main_state) (r : result disk) : main_state * result unit :=
  match r with Ok d => (with_fs m d, Ok tt) | Err e => (m, Err e) end.

Definition create_file_handler (m : main_state) (relativePath : string) :=
  lift m (Fs.write_file (fs m) relativePath "").
Definition create_folder_handler (m : main_state) (relativePath : string) :=
  lift m (mkdir_p (fs m) relativePath).
Definition delete_node_handler (m : main_state) (relativePath : string) :=
  lift m (rm_rf (fs m) relativePath).
Definition rename_node_handler (m : main_state) (oldRelativePath newRelativePath : string) :=
  lift m (Fs.rename (fs m) oldRelativePath newRelativePath).
Definition read_file_handler (m : main_state) (relativePath : string) : result string :=
  read_file (fs m) relativePath.
Definition read_project_tree_handler (m : main_state) : list TreeNode :=
  readProjectTree (fs m).

(** chokidar's [ignored: /(^|[\/\\])\..|node_modules|dist|build/], tested
    against the full path of the event. *)
Definition is_sep (c : ascii) : bool := (ascii_eqb c c_slash || ascii_eqb c c_bslash)%bool.

Definition not_line_term (c : ascii) : bool :=
  negb (ascii_eqb c c_nl || ascii_eqb c c_cr)%bool.

Fixpoint dot_at_start (prev_sep : bool) (l : list ascii) : bool :=
  match l with
  | [] => false
  | c :: r =>
      (prev_sep && ascii_eqb c c_dot &&
        match r with x :: _ => not_line_term x | [] => false end)
      || dot_at_start (is_sep c) r
  end%bool.

Definition contains (w : string) (l : list ascii) : bool :=
  match index_of (chars w) l with Some _ => true | None => false end.

Definition watcher_ignored (path : string) : bool :=
  let l := chars path in
  (dot_at_start true l || contains "node_modules" l || contains "dist" l ||
   contains "build" l)%bool.

(** The watcher's ['all'] callback, behind chokidar's [ignored] filter. *)
Definition on_watch_event (m : main_state) (path : string) : main_state :=
  if watcher_ignored path then m
  else if isInternalChange m then m          (* logged, not forwarded *)
  else if window m then
    MainState (fs m) (isInternalChange m) (timers m) (now m) (S (sent m)) (window m)
  else m.

(** One millisecond passes; the due timers run, each clearing the flag. *)
Definition tick (m : main_state) : main_state :=
  let t := S (now m) in
  let due := List.filter (fun x => Nat.leb x t) (timers m) in
  let rest := List.filter (fun x => negb (Nat.leb x t)) (timers m) in
  MainState (fs m) (match due with [] => isInternalChange m | _ => false end)
            rest t (sent m) (window m).

Inductive mevent : Type :=
| EvWriteFile (relativePath content : string)
| EvCreateFile (relativePath : string)
| EvCreateFolder (relativePath : string)
| EvDeleteNode (relativePath : string)
| EvRenameNode (oldRelativePath newRelativePath : string)
| EvWriteChatHistory (history : json)
| EvWatch (path : string)
| EvTick.

Definition step (m : main_state) (e : mevent) : main_state :=
  match e with
  | EvWriteFile p c => (write_file_handler m p c).1
  | EvCreateFile p => (create_file_handler m p).1
  | EvCreateFolder p => (create_folder_handler m p).1
  | EvDeleteNode p => (delete_node_handler m p).1
  | EvRenameNode o n => (rename_node_handler m o n).1
  | EvWriteChatHistory h => (write_chat_history_handler m h).1
  | EvWatch p => on_watch_event m p
  | EvTick => tick m
  end.

Definition run (m : main_state) (es : list mevent) : main_state := fold_left step es m.

(** The events that write to the project directory. *)
Definition is_app_write (e : mevent) : bool :=
  match e with EvWatch _ | EvTick => false | _ => true end.

Definition init (d : disk) : main_state := MainState d false [] 0 0 true.

End Main.

Import Main.

(** ** Render-time ordering of the file tree ([sortTree]) *)

Module Order.

(** [String.prototype.localeCompare] with the default (ICU root) collation,
    on 8-bit characters: primary weights put spaces and punctuation (in the
    collation's order) before digits and digits before letters, letters
    compared without case; on equal primary weights a lowercase letter
    precedes its uppercase form. Control characters and characters above
    0x7F are outside this model. *)
Definition punct_order : list nat :=
  [32; 95; 45; 44; 59; 58; 33; 63; 46; 39; 34; 40; 41; 91; 93; 123; 125; 64;
   42; 47; 92; 38; 35; 37; 96; 94; 43; 60; 61; 62; 124; 126; 36].

Fixpoint index_nat (x : nat) (l : list nat) (i : nat) : option nat :=
  match l with
  | [] => None
  | y :: r => if Nat.eqb x y then Some i else index_nat x r (S i)
  end.

Definition primary (c : ascii) : nat :=
  let n := nat_of_ascii c in
  if (Nat.leb 97 n && Nat.leb n 122)%bool then 200 + (n - 97)
  else if (Nat.leb 65 n && Nat.leb n 90)%bool then 200 + (n - 65)
  else if (Nat.leb 48 n && Nat.leb n 57)%bool then 100 + (n - 48)
  else match index_nat n punct_order 0 with
       | Some i => 1 + i
       | None => if Nat.ltb n 32 then 0 else 300 + n
       end.

Definition tertiary (c : ascii) : nat :=
  let n := nat_of_ascii c in if (Nat.leb 65 n && Nat.leb n 90)%bool then 1 else 0.

Fixpoint lex (l1 l2 : list nat) : comparison :=
  match l1, l2 with
  | [], [] => Eq
  | [], _ :: _ => Lt
  | _ :: _, [] => Gt
  | x :: r, y :: s => match Nat.compare x y with Eq => lex r s | c => c end
  end.

Definition localeCompare (s t : string) : comparison :=
  match lex (map primary (chars s)) (map primary (chars t)) with
  | Eq => lex (map tertiary (chars s)) (map tertiary (chars t))
  | c => c
  end.

Definition is_folder (n : TreeNode) : bool :=
  match n with FolderNode _ _ _ => true | FileNode _ _ => false end.

(** [sortTree] of [src/components/FileExplorer.tsx] (and of [App.tsx]). *)
Definition sortTree (x y : TreeNode) : comparison :=
  if (is_folder x && negb (is_folder y))%bool then Lt
  else if (negb (is_folder x) && is_folder y)%bool then Gt
  else localeCompare (node_name x) (node_name y).

(** [Array.prototype.sort] is stable; with a consistent comparator its
    result is that of a stable insertion sort, which places each element
    after the elements not greater than it. *)
Fixpoint insert (cmp : TreeNode -> TreeNode -> comparison) (x : TreeNode) (l : list TreeNode)
  : list TreeNode :=
  match l with
  | [] => [x]
  | y :: r => match cmp x y with Lt => x :: y :: r | _ => y :: insert cmp x r end
  end.

Definition sort (cmp : TreeNode -> TreeNode -> comparison) (l : list TreeNode) : list TreeNode :=
  fold_left (fun acc x => insert cmp x acc) l [].

Definition sort_nodes (l : list TreeNode) : list TreeNode := sort sortTree l.

(** Case-sensitive ordinal comparison, the ordering the spec names. *)
Definition ordinal_compare (s t : string) : comparison := String.compare s t.

End Order.

Import Order.

(** ** Context Builder ([App.tsx] 316-379) *)

Module Context.

Definition nl : string := String c_nl EmptyString.

(** [name.split('.').pop() || ''] *)
Definition lang_of (name : string) : string :=
  str (List.last (split_on c_dot (chars name)) []).

Definition file_block (path name content : string) : string :=
  "File: `" +:+ path +:+ "`" +:+ nl +:+ "```" +:+ lang_of name +:+ nl +:+
  content +:+ nl +:+ "```".

(** The synchronous part of [Promise.all(tree.map(processNode))]: every
    call runs up to its first [await]. The active file pushes its block at
    once; any other file issues a [readFile] and waits; a folder maps its
    children. Result: the blocks pushed so far, and the pending reads
    (path and name) in issue order. *)
Fixpoint process (activeFile : option string) (activeFileContent : string) (n : TreeNode)
  : list string * list (string * string) :=
  match n with
  | FileNode name path =>
      if bool_decide (activeFile = Some path)
      then ([file_block path name activeFileContent], [])
      else ([], [(path, name)])
  | FolderNode _ _ children =>
      (fix go (l : list TreeNode) : list string * list (string * string) :=
         match l with
         | [] => ([], [])
         | c :: r => let '(p1, w1) := process activeFile activeFileContent c in
                     let '(p2, w2) := go r in (p1 ++ p2, w1 ++ w2)
         end) children
  end.

Definition process_all (activeFile : option string) (activeFileContent : string)
  (tree : list TreeNode) : list string * list (string * string) :=
  fold_right (fun n acc => let '(p1, w1) := process activeFile activeFileContent n in
                           (p1 ++ acc.1, w1 ++ acc.2)) ([], []) tree.

(** The replies to the pending reads arrive in an order the renderer
    does not control: [sched] names, at each step, the index of the
    pending read answered next (an index out of range means the first).
    Each answered read pushes its block; a failed read is logged and
    pushes nothing. *)
Fixpoint deliver (fuel : nat) (rd : string -> result string)
  (pending : list (string * string)) (sched : list nat) : list string :=
  match fuel with
  | O => []
  | S f =>
      let k := match sched with [] => 0 | i :: _ => i end in
      let k' := if Nat.ltb k (length pending) then k else 0 in
      match pending !! k' with
      | None => []
      | Some (path, name) =>
          (match rd path with Ok c => [file_block path name c] | Err _ => [] end) ++
          deliver f rd (delete k' pending) (tail sched)
      end
  end.

Definition join_s (sep : string) (xs : list string) : string :=
  str (Json.join (chars sep) (map chars xs)).

Definition sep_block : string := nl +:+ nl +:+ "---" +:+ nl.

(** [getProjectContextString(root, tree, activeFile, activeFileContent)]
    under the reply order [sched]. *)
Definition getProjectContextString (m : main_state) (tree : list TreeNode)
  (activeFile : option string) (activeFileContent : string) (sched : list nat) : string :=
  let '(pushed, pending) := process_all activeFile activeFileContent tree in
  let contextParts := pushed ++ deliver (length pending) (read_file_handler m) pending sched in
  match contextParts with
  | [] => "CONTEXT: This is a new project with no existing files." +:+ nl +:+ nl
  | _ => "CONTEXT: The current state of the project files is as follows:" +:+ nl +:+ nl +:+
         "---" +:+ nl +:+ join_s sep_block contextParts +:+ nl +:+ nl +:+ "---" +:+ nl +:+ nl
  end.

Fixpoint tree_size (n : TreeNode) : nat :=
  match n with
  | FileNode _ _ => 1
  | FolderNode _ _ ch => S (list_sum (map tree_size ch))
  end.

(** [buildTreeString(nodes, prefix)]: each level sorted with [sortTree];
    the recursion is bounded by the depth, hence by [fuel = size + 1]. *)
Fixpoint buildTreeString (fuel : nat) (nodes : list TreeNode) (prefix : string) : list string :=
  match fuel with
  | O => []
  | S f =>
      let sortedNodes := sort_nodes nodes in
      let n := length sortedNodes in
      flat_map (fun '(index, node) =>
        let isLast := Nat.eqb index (n - 1) in
        let linePrefix := prefix +:+ (if isLast then "└── " else "├── ") in
        (linePrefix +:+ node_name node) ::
        match node with
        | FolderNode _ _ ((_ :: _) as ch) =>
            buildTreeString f ch (prefix +:+ (if isLast then "    " else "│   "))
        | _ => []
        end) (zip (seq 0 n) sortedNodes)
  end.

(** [getFileTreeContextString(tree, activeFile, activeFileContent)]. *)
Definition getFileTreeContextString (tree : list TreeNode) (activeFile : option string)
  (activeFileContent : string) : string :=
  let lines := buildTreeString (S (list_sum (map tree_size tree))) tree "" in
  let tail :=
    match activeFile with
    | Some af =>
        if String.eqb af "" then []
        else if negb (String.eqb activeFileContent "") then
          [nl +:+ nl +:+ "Content of active file ('" +:+ af +:+ "'):" +:+ nl +:+ "```" +:+
           lang_of af +:+ nl +:+ activeFileContent +:+ nl +:+ "```"]
        else [nl +:+ nl +:+ "No content available for active file ('" +:+ af +:+
              "'). It might be empty."]
    | None => []
    end in
  "CONTEXT:" +:+ nl +:+ join_s nl (["Project file structure:"] ++ lines ++ tail) +:+ nl +:+ nl.

End Context.

Import Context.

(** ** AI Exchange backends and the Reconciliation Driver
    ([handleSendMessage], App.tsx 557-651) *)

Module Driver.

(** A chat turn is the [Content] object of @google/genai, kept as JSON. *)
Definition text_part (t : string) : json := JObj [("text", JStr t)].
Definition image_part (data : string) : json :=
  JObj [("inlineData", JObj [("mimeType", JStr "image/png"); ("data", JStr data)])].
Definition content (role : string) (parts : list json) : json :=
  JObj [("role", JStr role); ("parts", JArr parts)].

Definition role_of (c : json) : option json := get c "role".
Definition parts_of (c : json) : list json :=
  match get c "parts" with Some (JArr ps) => ps | _ => [] end.

(** [userParts] of [handleSendMessage]. *)
Definition user_content (text : string) (imageBase64 : option string) : json :=
  content "user" (text_part text :: match imageBase64 with Some d => [image_part d] | None => [] end).

Inductive provider : Type := Gemini | Ollama.

Record ollama_message : Type := OllamaMessage {
  om_role : string; om_content : string; om_images : option (list string) }.

(** What the outside world answers. [invokeOllama] resolves with the
    reply's [message.content] or rejects; the Gemini chat resolves with a
    response (its [text], and whether it finished for [SAFETY]) or
    rejects. [read_order] is the order in which the main process answers
    concurrent [readFile] requests. *)
Inductive gemini_reply : Type :=
| GResponse (text : option string) (safety : bool)
| GFail (message : string).

Record backend : Type := Backend {
  invokeOllama : list ollama_message -> result string;
  gemini_send : list json -> list json -> gemini_reply;   (* history, message parts *)
  gemini_api_key : bool;
  read_order : list nat }.

Record session : Type := Session {
  projectRoot : option string;
  fileTree : list TreeNode;
  activeFile : option string;
  activeFileContent : string;
  recentlyUpdatedPaths : list string;     (* a JS Set: insertion order, no repeats *)
  readmeContent : string;
  chatHistory : list json;
  isLoading : bool;
  error : option string;
  notification : option string;
  aiProvider : provider;
  ollamaConfig : option (string * string); (* url, model *)
  chat : option (list json);              (* geminiService's [chat], by its history *)
  mainp : main_state }.

Definition set_chatHistory (s : session) (h : list json) : session :=
  Session (projectRoot s) (fileTree s) (activeFile s) (activeFileContent s)
    (recentlyUpdatedPaths s) (readmeContent s) h (isLoading s) (error s)
    (notification s) (aiProvider s) (ollamaConfig s) (chat s) (mainp s).
Definition set_error (s : session) (e : option string) : session :=
  Session (projectRoot s) (fileTree s) (activeFile s) (activeFileContent s)
    (recentlyUpdatedPaths s) (readmeContent s) (chatHistory s) (isLoading s) e
    (notification s) (aiProvider s) (ollamaConfig s) (chat s) (mainp s).
Definition set_recent (s : session) (r : list string) : session :=
  Session (projectRoot s) (fileTree s) (activeFile s) (activeFileContent s)
    r (readmeContent s) (chatHistory s) (isLoading s) (error s)
    (notification s) (aiProvider s) (ollamaConfig s) (chat s) (mainp s).
Definition set_activeFile (s : session) (a : option string) : session :=
  Session (projectRoot s) (fileTree s) a (activeFileContent s)
    (recentlyUpdatedPaths s) (readmeContent s) (chatHistory s) (isLoading s) (error s)
    (notification s) (aiProvider s) (ollamaConfig s) (chat s) (mainp s).
Definition set_readme (s : session) (r : string) : session :=
  Session (projectRoot s) (fileTree s) (activeFile s) (activeFileContent s)
    (recentlyUpdatedPaths s) r (chatHistory s) (isLoading s) (error s)
    (notification s) (aiProvider s) (ollamaConfig s) (chat s) (mainp s).
Definition set_fileTree (s : session) (t : list TreeNode) : session :=
  Session (projectRoot s) t (activeFile s) (activeFileContent s)
    (recentlyUpdatedPaths s) (readmeContent s) (chatHistory s) (isLoading s) (error s)
    (notification s) (aiProvider s) (ollamaConfig s) (chat s) (mainp s).
Definition set_loading (s : session) (b : bool) : session :=
  Session (projectRoot s) (fileTree s) (activeFile s) (activeFileContent s)
    (recentlyUpdatedPaths s) (readmeContent s) (chatHistory s) b (error s)
    (notification s) (aiProvider s) (ollamaConfig s) (chat s) (mainp s).
Definition set_notification (s : session) (n : option string) : session :=
  Session (projectRoot s) (fileTree s) (activeFile s) (activeFileContent s)
    (recentlyUpdatedPaths s) (readmeContent s) (chatHistory s) (isLoading s) (error s)
    n (aiProvider s) (ollamaConfig s) (chat s) (mainp s).
Definition set_chat (s : session) (c : option (list json)) : session :=
  Session (projectRoot s) (fileTree s) (activeFile s) (activeFileContent s)
    (recentlyUpdatedPaths s) (readmeContent s) (chatHistory s) (isLoading s) (error s)
    (notification s) (aiProvider s) (ollamaConfig s) c (mainp s).
Definition set_mainp (s : session) (m : main_state) : session :=
  Session (projectRoot s) (fileTree s) (activeFile s) (activeFileContent s)
    (recentlyUpdatedPaths s) (readmeContent s) (chatHistory s) (isLoading s) (error s)
    (notification s) (aiProvider s) (ollamaConfig s) (chat s) m.

(** The async steps of the renderer: state passing with a thrown error. *)
Definition M (A : Type) : Type := session -> result A * session.
Definition ret {A} (x : A) : M A := fun s => (Ok x, s).
Definition throw {A} (msg : string) : M A := fun s => (Err msg, s).
Definition bind {A B} (m : M A) (k : A -> M B) : M B :=
  fun s => match m s with (Ok x, s') => k x s' | (Err e, s') => (Err e, s') end.
Definition modify (f : session -> session) : M unit := fun s => (Ok tt, f s).
Definition gets {A} (f : session -> A) : M A := fun s => (Ok (f s), s).

Notation "x <-- m ;; k" := (bind m (fun x => k)) (at level 100, m at next level, right associativity).
Notation "m ;;; k" := (bind m (fun _ => k)) (at level 100, right associativity).

(** [path.join(projectRoot, relativePath)]. *)
Definition abs_path (root rel : string) : string :=
  if String.eqb rel "" then root else root +:+ "/" +:+ rel.

Definition root_of (s : session) : string :=
  match projectRoot s with Some r => r | None => "" end.

(** libuv's description of an error code. *)
Definition uv_strerror (code : string) : string :=
  if String.eqb code "ENOENT" then "no such file or directory"
  else if String.eqb code "ENOTDIR" then "not a directory"
  else if String.eqb code "EISDIR" then "illegal operation on a directory"
  else if String.eqb code "EEXIST" then "file already exists"
  else if String.eqb code "EINVAL" then "invalid argument"
  else if String.eqb code "ENOTEMPTY" then "directory not empty"
  else if String.eqb code "EBUSY" then "resource busy or locked"
  else "unknown error".

(** The message of the error a failed [fs] call rejects with:
    [code: description, syscall 'path'], with [ -> 'dest'] for [rename]
    and no path for a failed [read]. *)
Definition node_error_message (code syscall : string) (paths : list string) : string :=
  code +:+ ": " +:+ uv_strerror code +:+ ", " +:+ syscall +:+
  match paths with
  | [] => ""
  | _ => " " +:+ join_s " -> " (map (fun p => "'" +:+ p +:+ "'") paths)
  end.

(** A rejected [ipcRenderer.invoke(channel, ...)] throws
    [new Error(`Error invoking remote method '${channel}': ${error}`)],
    [error] being the main process's error as a string ([Error: ] and
    its message). *)
Definition invoke_error (channel message : string) : string :=
  "Error invoking remote method '" +:+ channel +:+ "': Error: " +:+ message.

(** The renderer's view of a handler's outcome: a rejection with the
    error [code] of the [syscall] on the given project paths becomes the
    message above. *)
Definition reject (s : session) (channel syscall : string) (paths : list string)
  (r : result unit) : result unit :=
  match r with
  | Ok x => Ok x
  | Err code => Err (invoke_error channel (node_error_message code syscall (map (abs_path (root_of s)) paths)))
  end.

(** [window.electronAPI.writeFile({ projectRoot, relativePath, content })];
    a rejection comes from the [mkdir] of the parent or from the [open]
    of the file. *)
Definition ipc_write_file (relativePath content : string) : M unit :=
  fun s => let '(m', r) := write_file_handler (mainp s) relativePath content in
           let call := match mkdir_p (fs (mainp s)) (dirname relativePath) with
                       | Err _ => ("mkdir", dirname relativePath)
                       | Ok _ => ("open", relativePath)
                       end in
           (reject s "write-file" call.1 [call.2] r, set_mainp s m').

Definition ipc_write_chat_history (h : list json) : M unit :=
  fun s => let '(m', r) := write_chat_history_handler (mainp s) (JArr h) in
           (r, set_mainp s m').

(** [window.electronAPI.readFile(projectRoot, relativePath)]: a missing
    path fails in [open], a directory in [read]. *)
Definition read_rejection (s : session) (relativePath code : string) : string :=
  invoke_error "read-file"
    (if String.eqb code "EISDIR" then node_error_message code "read" []
     else node_error_message code "open" [abs_path (root_of s) relativePath]).

Definition ipc_read_file (relativePath : string) : M string :=
  fun s => (match read_file_handler (mainp s) relativePath with
            | Ok c => Ok c
            | Err code => Err (read_rejection s relativePath code)
            end, s).

(** geminiService: [initializeChat(history)] and [sendMessage(userContent)];
    the chat session keeps its history and, on a response with text that
    is not blocked, appends the sent turn and the model's turn. *)
Definition initializeChat (env : backend) (history : json) : M unit :=
  if negb (gemini_api_key env) then throw "API key is not set. Please add it in Settings."
  else match history with
       | JArr h => modify (fun s => set_chat s (Some h))
       | _ => throw "history is not iterable"
       end.

Definition sendMessageGemini (env : backend) (userContent : json) : M json :=
  fun s =>
    match chat s with
    | None => (Err "Chat not initialized.", s)
    | Some h =>
        match parts_of userContent with
        | [] => (Err "Cannot send an empty message.", s)
        | parts =>
            match gemini_send env h parts with
            | GFail e => (Err e, s)
            | GResponse text safety =>
                let s' := match text with
                          | Some t => if (safety || String.eqb t "")%bool then s
                                      else set_chat s (Some (h ++ [userContent; content "model" [text_part t]]))
                          | None => s
                          end in
                if safety then
                  (Err "The request was blocked due to safety concerns. Please modify your prompt and try again.", s')
                else (Parse.parseAIResponse text, s')
            end
        end
    end.

Definition getChatHistory : M (option (list json)) := gets chat.

(** ollamaService: [convertToOllamaMessages] and [sendMessage]. *)
Definition part_text (p : json) : string :=
  match get p "text" with Some (JStr t) => t | _ => "" end.

Definition convertToOllamaMessages (history : list json) : list ollama_message :=
  map (fun message =>
         OllamaMessage (match role_of message with Some (JStr "model") => "assistant" | _ => "user" end)
                       (join_s nl (map part_text (parts_of message))) None) history.

Definition ollama_system_instruction : string := qq (join_s nl [
  "You are a world-class senior software engineer acting as a coding assistant.";
  "- The user will provide the file structure of their project and the content of the currently active file. You MUST use this context to inform your response.";
  "- Your primary task is to generate or update code based on the user's request, focusing on the provided context. Assume you can infer the content of non-active files from the file structure and request if needed, or create new files.";
  "- You can analyze images provided by the user. If they provide a screenshot, use it as a strong visual reference for the UI you generate.";
  "- Your response MUST be a single, valid JSON object that strictly adheres to this schema: { ^files^: [{ ^fileName^: ^...^, ^code^: ^...^ }], ^readmeContent^: ^...^ }. Do not add any text or markdown before or after the JSON object.";
  "- CRITICAL: For each file, ^fileName^ MUST be the full, relative path including directories. For example: 'src/components/Button.tsx' or 'css/styles.css'. This is a mandatory requirement.";
  "- ^code^ must be the raw, complete code for that file. It is imperative that you do not truncate code or provide incomplete snippets. The entire file content must be present.";
  "- ^readmeContent^ must be the full content for a README.md file, formatted as markdown, explaining how to set up and run the project.";
  "- When asked to update, you must respond with the FULL, updated code for ALL relevant files and an updated readmeContent in the same JSON format."]).

Definition find_part_text (parts : list json) : string :=
  match List.find (fun p => match get p "text" with Some (JStr t) => negb (String.eqb t "") | _ => false end) parts with
  | Some p => part_text p
  | None => ""
  end.

Definition find_image (parts : list json) : option string :=
  match List.find (fun p => match get p "inlineData" with Some _ => true | None => false end) parts with
  | Some p => match get p "inlineData" with
              | Some d => match get d "data" with Some (JStr x) => if String.eqb x "" then None else Some x | _ => None end
              | None => None
              end
  | None => None
  end.

Definition sendMessageOllama (env : backend) (userContent : json) (projectContext : string)
  (history : list json) : M json :=
  let recentHistory := skipn (length history - 2) history in
  let messages := OllamaMessage "system" ollama_system_instruction None ::
                  convertToOllamaMessages recentHistory ++
                  [OllamaMessage "user" (projectContext +:+ "USER REQUEST: " +:+ find_part_text (parts_of userContent))
                                 (match find_image (parts_of userContent) with Some i => Some [i] | None => None end)] in
  match invokeOllama env messages with
  | Err e => throw e
  | Ok responseText =>
      match Parse.parseOllamaResponse (Some responseText) with
      | Ok v => ret v
      | Err e => throw e
      end
  end.

(** [new Set()].add for the path sets. *)
Definition set_add (x : string) (xs : list string) : list string :=
  if existsb (String.eqb x) xs then xs else xs ++ [x].

(** [getParentDirs(p)]. *)
Definition getParentDirs (p : string) : list string :=
  let parts := map str (split_on c_slash (chars p)) in
  let fix go (ps : list string) (current : string) (acc : list string) : list string :=
    match ps with
    | [] | [_] => acc
    | x :: r => let current' := if String.eqb current "" then x else current +:+ "/" +:+ x in
                go r current' (set_add current' acc)
    end in
  go parts "" [].

Definition truthy_str (v : option json) : option string :=
  match v with Some (JStr t) => if String.eqb t "" then None else Some t | _ => None end.

(** The loop writing [response.files] in order; a [fileName] or [code]
    that is not a string makes [path.join] or [fs.writeFile] throw. *)
Fixpoint write_files (files : list json) (updated : list string) : M (list string) :=
  match files with
  | [] => ret updated
  | f :: r =>
      match get f "fileName", get f "code" with
      | Some (JStr name), Some (JStr code) =>
          ipc_write_file name code ;;; write_files r (set_add name updated)
      | _, _ => throw "The argument 'path' must be of type string."
      end
  end.

Definition last_file_name (files : list json) : option string :=
  match List.last files JNull with
  | f => match get f "fileName" with Some (JStr n) => Some n | _ => None end
  end.

(** [refreshProject(root)]; its errors are caught and reported in [error]. *)
Definition refreshProject : M unit :=
  fun s =>
    let tree := read_project_tree_handler (mainp s) in
    let s1 := set_fileTree s tree in
    let is_readme n := String.eqb (to_lower (node_name n)) "readme.md" in
    match List.find is_readme tree with
    | Some (FileNode _ p) =>
        match read_file_handler (mainp s1) p with
        | Ok c => (Ok tt, set_readme s1 c)
        | Err e => (Ok tt, set_error s1 (Some ("Failed to refresh project: " +:+ read_rejection s1 p e)))
        end
    | Some (FolderNode _ p _) =>
        match read_file_handler (mainp s1) p with
        | Ok c => (Ok tt, set_readme s1 c)
        | Err e => (Ok tt, set_error s1 (Some ("Failed to refresh project: " +:+ read_rejection s1 p e)))
        end
    | None => (Ok tt, set_readme s1 "")
    end.

(** The AI Exchange of [handleSendMessage]: the selected provider's
    [sendMessage], with the configuration checks in front of it; [s0] is
    the render the callback closes over. *)
Definition ai_exchange (env : backend) (s0 : session) (prompt : string)
  (imageBase64 : option string) : M json :=
  let userContent := user_content prompt imageBase64 in
  let currentHistory := chatHistory s0 in
  match aiProvider s0 with
  | Ollama =>
      match ollamaConfig s0 with
      | Some (url, model) =>
          if (String.eqb url "" || String.eqb model "")%bool
          then throw "Ollama is not configured."
          else sendMessageOllama env userContent
                 (getFileTreeContextString (fileTree s0) (activeFile s0) (activeFileContent s0))
                 currentHistory
      | None => throw "Ollama is not configured."
      end
  | Gemini =>
      m <-- gets mainp ;;
      let projectContext := getProjectContextString m (fileTree s0) (activeFile s0)
                              (activeFileContent s0) (read_order env) in
      let apiUserContent := user_content (projectContext +:+ "USER REQUEST: " +:+ prompt) imageBase64 in
      historyOnDisk <-- gets (fun s => read_chat_history_handler (mainp s)) ;;
      initializeChat env historyOnDisk ;;;
      sendMessageGemini env apiUserContent
  end.

(** The [try] block of [handleSendMessage]; [s0] is the render the
    callback closes over (its [chatHistory], [fileTree], [activeFile],
    [activeFileContent], [aiProvider], [ollamaConfig]). *)
Definition send_try (env : backend) (s0 : session) (root prompt : string)
  (imageBase64 : option string) : M unit :=
  let userContent := user_content prompt imageBase64 in
  modify (fun s => set_chatHistory s (chatHistory s ++ [userContent])) ;;;
  let currentHistory := chatHistory s0 in
  response <-- ai_exchange env s0 prompt imageBase64 ;;
  let files := match get response "files" with Some (JArr fs) => fs | _ => [] end in
  updatedPaths <-- write_files files [] ;;
  (match files with
   | [] => ret tt
   | _ => modify (fun s => set_activeFile s (last_file_name files))
   end) ;;;
  newHistory <-- (match aiProvider s0 with
                 | Gemini => h <-- getChatHistory ;; ret (match h with Some h' => h' | None => [] end)
                 | Ollama => ret (currentHistory ++ [userContent; content "model" [text_part (stringify response)]])
                 end) ;;
  (match newHistory with
   | [] => ret tt
   | _ => modify (fun s => set_chatHistory s newHistory) ;;; ipc_write_chat_history newHistory
   end) ;;;
  (match truthy_str (get response "readmeContent") with
   | Some r => ipc_write_file "README.md" r
   | None => ret tt
   end) ;;;
  modify (fun s => set_readme s (match truthy_str (get response "readmeContent") with Some r => r | None => "" end)) ;;;
  let allUpdatedPaths :=
    fold_left (fun acc p => fold_left (fun acc' q => set_add q acc') (getParentDirs p) acc)
              updatedPaths updatedPaths in
  modify (fun s => set_recent s allUpdatedPaths) ;;;
  refreshProject ;;;
  modify (fun s => set_notification s (Some "Project updated successfully!")).

(** [handleSendMessage(prompt, imageBase64)] on the session [s]. *)
Definition handleSendMessage (env : backend) (prompt : string) (imageBase64 : option string)
  (s : session) : session :=
  match projectRoot s with
  | None => set_error s (Some "No project is open. Please open a folder first.")
  | Some root =>
      let s1 := set_recent (set_error (set_loading s true) None) [] in
      let s2 := match send_try env s root prompt imageBase64 s1 with
                | (Ok _, s') => s'
                | (Err msg, s') => set_chatHistory (set_error s' (Some msg)) (removelast (chatHistory s'))
                end in
      set_loading s2 false
  end.

End Driver.

Import Driver.

(** ** JSON serialisations the parser reads back

    [json_ok] holds of values whose numbers are integer lexemes, the
    numbers [parse] reads back as written. *)

Definition digits_ok (ds : list ascii) : bool :=
  match ds with
  | [] => false
  | [d] => is_digit d
  | d :: r => (is_digit d && negb (ascii_eqb d (a 48)) && forallb is_digit r)%bool
  end.

Definition int_lexeme (n : string) : bool :=
  match chars n with
  | [] => false
  | m :: ds => if ascii_eqb m c_minus then digits_ok ds else digits_ok (m :: ds)
  end.

Fixpoint json_ok (v : json) : bool :=
  match v with
  | JNum n => int_lexeme n
  | JArr xs => forallb json_ok xs
  | JObj kv => forallb (fun '(_, x) => json_ok x) kv
  | _ => true
  end.

Definition stop_char (c : ascii) : bool :=
  (is_json_space c || ascii_eqb c c_comma || ascii_eqb c c_rbrack || ascii_eqb c c_rbrace)%bool.

Definition stop_ok (rest : list ascii) : bool :=
  match rest with [] => true | c :: _ => stop_char c end.

(** Induction on JSON values through the items of arrays and objects. *)
Section JsonInd.
Variable P : json -> Prop.
Hypothesis HNull : P JNull.
Hypothesis HBool : forall b, P (JBool b).
Hypothesis HNum : forall n, P (JNum n).
Hypothesis HStr : forall s, P (JStr s).
Hypothesis HArr : forall xs, Forall P xs -> P (JArr xs).
Hypothesis HObj : forall kv, Forall (fun p => P p.2) kv -> P (JObj kv).
Fixpoint json_ind' (v : json) : P v :=
  match v with
  | JNull => HNull
  | JBool b => HBool b
  | JNum n => HNum n
  | JStr s => HStr s
  | JArr xs => HArr xs ((fix G (xs : list json) : Forall P xs :=
                  match xs return Forall P xs with [] => @List.Forall_nil _ P | x :: r => @List.Forall_cons _ P x r (json_ind' x) (G r) end) xs)
  | JObj kv => HObj kv ((fix G (kv : list (string * json)) : Forall (fun p => P p.2) kv :=
                  match kv return Forall (fun p => P p.2) kv with [] => @List.Forall_nil _ _ | p :: r => @List.Forall_cons _ (fun p => P p.2) p r (json_ind' p.2) (G r) end) kv)
  end.
End JsonInd.

(** The first character of a serialisation: no whitespace, no closing bracket. *)
Definition head_ok (l : list ascii) : Prop :=
  exists c t, l = c :: t /\ is_json_space c = false /\ ascii_eqb c c_rbrack = false.

Definition value_ok (v : json) : Prop :=
  forall f rest, length (stringify_l v) < f -> stop_ok rest = true ->
  parse_value f (stringify_l v ++ rest) = Some (v, rest).

Definition member_l (p : string * json) : list ascii :=
  let '(k, x) := p in quote k ++ c_colon :: stringify_l x.

Definition pvalue_ok (v : json) : Prop :=
  forall ind f rest, forallb is_json_space ind = true ->
  length (stringify_pretty_l ind v) < f -> stop_ok rest = true ->
  parse_value f (stringify_pretty_l ind v ++ rest) = Some (v, rest).

Definition pmember_l (ind : list ascii) (p : string * json) : list ascii :=
  let '(k, x) := p in quote k ++ c_colon :: c_space :: stringify_pretty_l ind x.

(** ** Path helpers for the handler proofs *)

(** A name without a slash. *)
Definition no_slash (l : list ascii) : bool := negb (existsb (fun c => ascii_eqb c c_slash) l).

(** ** File-explorer actions ([App.tsx] 654-751, the [App] component
    the other renderer code is taken from, and [handleDrop] of
    [FileExplorer.tsx] 68-81) *)

Module Explorer.

(** [String(n)] for a set size. *)
Fixpoint uint_str (u : Decimal.uint) : string :=
  match u with
  | Decimal.Nil => ""
  | Decimal.D0 u => String (a 48) (uint_str u)
  | Decimal.D1 u => String (a 49) (uint_str u)
  | Decimal.D2 u => String (a 50) (uint_str u)
  | Decimal.D3 u => String (a 51) (uint_str u)
  | Decimal.D4 u => String (a 52) (uint_str u)
  | Decimal.D5 u => String (a 53) (uint_str u)
  | Decimal.D6 u => String (a 54) (uint_str u)
  | Decimal.D7 u => String (a 55) (uint_str u)
  | Decimal.D8 u => String (a 56) (uint_str u)
  | Decimal.D9 u => String (a 57) (uint_str u)
  end.

Definition nat_str (n : nat) : string := uint_str (Nat.to_uint n).

Definition set_activeFileContent (s : session) (c : string) : session :=
  Session (projectRoot s) (fileTree s) (activeFile s) c
    (recentlyUpdatedPaths s) (readmeContent s) (chatHistory s) (isLoading s) (error s)
    (notification s) (aiProvider s) (ollamaConfig s) (chat s) (mainp s).

(** The file-explorer IPC calls of the preload bridge. *)
Definition ipc_main (channel syscall : string) (paths : list string)
  (h : main_state -> main_state * result unit) : M unit :=
  fun s => let '(m', r) := h (mainp s) in (reject s channel syscall paths r, set_mainp s m').
Definition ipc_create_file (p : string) : M unit :=
  ipc_main "create-file" "open" [p] (fun m => create_file_handler m p).
Definition ipc_create_folder (p : string) : M unit :=
  ipc_main "create-folder" "mkdir" [p] (fun m => create_folder_handler m p).
(** [fs.rm] fails only in its initial [lstat]. *)
Definition ipc_delete_node (p : string) : M unit :=
  ipc_main "delete-node" "lstat" [p] (fun m => delete_node_handler m p).
Definition ipc_rename_node (o n : string) : M unit :=
  ipc_main "rename-node" "rename" [o; n] (fun m => rename_node_handler m o n).

(** [try { body } catch (e) { handler(e.message) }]. *)
Definition catch_err (body : M unit) (handler : string -> M unit) : M unit :=
  fun s => match body s with
           | (Ok x, s') => (Ok x, s')
           | (Err e, s') => handler e s'
           end.

Definition report (prefix : string) (e : string) : M unit :=
  modify (fun s => set_error s (Some (prefix +:+ e))).

Definition clearIndicators : M unit := modify (fun s => set_recent s []).

(** [if (!projectRoot) return;] *)
Definition with_root (k : M unit) : M unit :=
  fun s => match projectRoot s with None => (Ok tt, s) | Some _ => k s end.

Definition notify (n : string) : M unit := modify (fun s => set_notification s (Some n)).

(** [handleAddNode(filePath, isFolder)]. *)
Definition handleAddNode (filePath : string) (isFolder : bool) : M unit :=
  clearIndicators ;;;
  with_root (catch_err
    ((if isFolder then ipc_create_folder filePath
      else ipc_create_file filePath ;;; modify (fun s => set_activeFile s (Some filePath))) ;;;
     refreshProject)
    (report ("Failed to create " +:+ (if isFolder then "folder" else "file") +:+ ": "))).

Fixpoint delete_all (ps : list string) : M unit :=
  match ps with
  | [] => ret tt
  | p :: r => ipc_delete_node p ;;; delete_all r
  end.

(** [handleDeleteNodes(pathsToDelete)]; the set is a list without
    repeats, [activeFile] is the value of the render the callback closes
    over, and the cleared selection is UI state of its own (see
    [handleSelectNode]). *)
Definition handleDeleteNodes (pathsToDelete : list string) : M unit :=
  fun s0 =>
  let af := activeFile s0 in
  (clearIndicators ;;;
   with_root (catch_err
     (delete_all pathsToDelete ;;;
      (match af with
       | Some f => if existsb (String.eqb f) pathsToDelete
                   then modify (fun s => set_activeFile s None) else ret tt
       | None => ret tt
       end) ;;;
      refreshProject ;;;
      notify (nat_str (length pathsToDelete) +:+ " item(s) deleted."))
     (report "Failed to delete items: "))) s0.

(** [oldPath.includes('/') ? oldPath.substring(0, oldPath.lastIndexOf('/')) : ''],
    then [parentDir ? `${parentDir}/${newName}` : newName]. *)
Definition rename_target (oldPath newName : string) : string :=
  let l := chars oldPath in
  let parentDir :=
    if existsb (fun c => ascii_eqb c c_slash) l then
      match last_index_of c_slash l with Some i => str (substring l 0 i) | None => "" end
    else "" in
  if String.eqb parentDir "" then newName else parentDir +:+ "/" +:+ newName.

(** [handleRenameNode(oldPath, newName)]. *)
Definition handleRenameNode (oldPath newName : string) : M unit :=
  fun s0 =>
  let af := activeFile s0 in
  (clearIndicators ;;;
   with_root (
     let newRelativePath := rename_target oldPath newName in
     catch_err
       (ipc_rename_node oldPath newRelativePath ;;;
        (if (match af with Some f => String.eqb f oldPath | None => false end)
         then modify (fun s => set_activeFile s (Some newRelativePath)) else ret tt) ;;;
        refreshProject ;;;
        notify "Renamed successfully.")
       (report "Failed to rename: "))) s0.

(** [source.split('/').pop()], then [destinationPath ? `${destinationPath}/${baseName}` : baseName]. *)
Definition move_target (source : string) (destinationPath : option string) : string :=
  let baseName := str (List.last (split_on c_slash (chars source)) []) in
  match destinationPath with
  | Some d => if String.eqb d "" then baseName else d +:+ "/" +:+ baseName
  | None => baseName
  end.

Fixpoint move_all (sources : list string) (destinationPath : option string) : M unit :=
  match sources with
  | [] => ret tt
  | src :: r => ipc_rename_node src (move_target src destinationPath) ;;; move_all r destinationPath
  end.

(** [handleMoveNodes(sourcePaths, destinationPath)]. *)
Definition handleMoveNodes (sourcePaths : list string) (destinationPath : option string) : M unit :=
  clearIndicators ;;;
  with_root (catch_err
    (move_all sourcePaths destinationPath ;;;
     refreshProject ;;;
     notify "Items moved successfully.")
    (report "Failed to move items: ")).

(** [handleDrop] of the file explorer: the move it requests, if any. *)
Definition handleDrop (targetNode : option TreeNode) (sourcePaths : list string)
  : option (list string * option string) :=
  let destinationPath := match targetNode with Some (FolderNode _ p _) => Some p | _ => None end in
  let blocked :=
    match targetNode with
    | Some t => existsb (fun sp => prefixb (chars (sp +:+ "/")) (chars (node_path t)) ||
                                   String.eqb (node_path t) sp)%bool sourcePaths
    | None => false
    end in
  if blocked then None else Some (sourcePaths, destinationPath).

(** The [selectedNodes] update of [handleSelectNode], on a JS [Set] kept
    as a list in insertion order. *)
Definition select_update (prev : list string) (path : string) (isCtrlOrMeta : bool) : list string :=
  if isCtrlOrMeta then
    if existsb (String.eqb path) prev then List.filter (fun q => negb (String.eqb q path)) prev
    else prev ++ [path]
  else [path].

(** [handleSelectNode(path, isCtrlOrMeta, isFolder)] on the selection and
    the session. *)
Definition handleSelectNode (sel : list string) (path : string) (isCtrlOrMeta isFolder : bool)
  (s : session) : list string * session :=
  (select_update sel path isCtrlOrMeta, if isFolder then s else set_activeFile s (Some path)).

(** [handleUpdate], the [project-updated] listener; [activeFile] and
    [projectRoot] are those of the render that installed it. *)
Definition handleUpdate : M unit :=
  fun s0 =>
  let af := activeFile s0 in
  (refreshProject ;;;
   match af with
   | None => ret tt
   | Some f =>
       fun s => match read_file_handler (mainp s) f with
                | Ok c => (Ok tt, set_activeFileContent s c)
                | Err _ => (Ok tt, set_activeFileContent (set_activeFile s None) "")
                end
   end) s0.

End Explorer.
Import Explorer.

(** ** Concrete projects used below *)

Definition disk_two_files : disk := <["b.txt" := EFile "B"]> (<["a.txt" := EFile "A"]> ∅).
Definition tree_two_files : list TreeNode := [FileNode "a.txt" "a.txt"; FileNode "b.txt" "b.txt"].

(** The watcher's and the store's views, for one path: the claimed
    equivalence between the filter and the store's set plus dotfiles. *)
Definition components (p : string) : list string :=
  map str (List.filter (fun w => negb (bool_decide (w = []))) (split_on c_slash (chars p))).

Definition store_or_dot_ignored (p : string) : bool :=
  existsb (fun c => ignored_has c || prefixb [c_dot] (chars c))%bool (components p).

Definition disk_ab : disk := <["b" := EFile "B"]> (<["a" := EFile "A"]> ∅).

Definition disk_coder_file : disk := <[".coder" := EFile ""]> ∅.

Definition disk_dist_file : disk :=
  <["src/a.ts" := EFile "A"]> (<["src" := EDir]> (<["dist" := EFile "x"]> (<["build" := EFile "y"]> ∅))).

Definition not_after (x y : TreeNode) : Prop := sortTree x y <> Gt.

(** The ordering the code implements: folders first, then by name as
    [localeCompare] orders them. *)
Definition folder_then_locale (x y : TreeNode) : Prop :=
  (is_folder x || negb (is_folder y))%bool = true /\
  (is_folder x = is_folder y -> localeCompare (node_name x) (node_name y) <> Gt).

Definition bad_files_response := q "{'files':[1],'readmeContent':'x'}".

(** The response of the multi-file apply scenario, as the AI returns it. *)
Definition c2_file (name code : string) : json := JObj [("fileName", JStr name); ("code", JStr code)].
Definition c2_response : json :=
  JObj [("files", JArr [c2_file "src/a.ts" "A"; c2_file "src/b.ts" "B"]); ("readmeContent", JStr "R")].

(** The AI Exchange of the selected provider answers with the text of
    [v]. For Ollama the configuration is complete; for Gemini an API key
    is set and the transcript read from [.coder/chat.json] is an array. *)
Definition exchange_returns (env : backend) (s : session) (v : json) : Prop :=
  match aiProvider s with
  | Ollama => (exists url model, ollamaConfig s = Some (url, model) /\ url <> "" /\ model <> "") /\
              forall msgs, invokeOllama env msgs = Ok (stringify v)
  | Gemini => gemini_api_key env = true /\ (exists h, read_chat_history_handler (mainp s) = JArr h) /\
              forall h parts, gemini_send env h parts = GResponse (Some (stringify v)) false
  end.

(** The transcript an exchange extends: the one in memory for Ollama; for
    Gemini the one persisted in [.coder/chat.json] when the send starts,
    read as [] when it is missing or not valid JSON. *)
Definition prior_transcript (s : session) : list json :=
  match aiProvider s with
  | Ollama => chatHistory s
  | Gemini => match read_chat_history_handler (mainp s) with JArr h => h | _ => [] end
  end.

(** The session in which the AI Exchange of a send from [s] starts: the
    loading state, with the error and the recently updated paths cleared
    and the user turn appended to the transcript. *)
Definition exchange_input (s : session) (prompt : string) (imageBase64 : option string) : session :=
  set_chatHistory (set_recent (set_error (set_loading s true) None) [])
                  (chatHistory s ++ [user_content prompt imageBase64]).

(** The AI Exchange call of the send fails, for whatever reason: a
    missing configuration or API key, a rejected request, a blocked or
    empty response, or a response the parser rejects. *)
Definition exchange_fails (env : backend) (s : session) (prompt : string)
  (imageBase64 : option string) : Prop :=
  exists e, fst (ai_exchange env s prompt imageBase64 (exchange_input s prompt imageBase64)) = Err e.

(** A freshly opened, empty project, and backends that answer with
    [c2_response] or are unreachable. *)
Definition session_new (p : provider) : session :=
  Session (Some "/home/u/proj") [] None "" [] "" [] false None None p
          (Some ("http://localhost:11434", "llama3")) None (init ∅).
Definition backend_c2 : backend :=
  Backend (fun _ => Ok (stringify c2_response))
          (fun _ _ => GResponse (Some (stringify c2_response)) false) true [].
Definition backend_down : backend :=
  Backend (fun _ => Err "fetch failed") (fun _ _ => GFail "fetch failed") true [].
Definition backend_bad : backend :=
  Backend (fun _ => Ok bad_files_response) (fun _ _ => GResponse (Some bad_files_response) false) true [].

(** The two-file project, open, with nothing active. *)
Definition session_two_files : session := set_mainp (session_new Gemini) (init disk_two_files).

(** ** Evaluations of the embedding on small inputs *)

Example parse_gem1 :
  Parse.parseAIResponse (Some (q "Here: ```json {'files':[],'readmeContent':'r'} ``` ok")) =
  Ok (JObj [("files", JArr []); ("readmeContent", JStr "r")]).
Proof. vm_compute. reflexivity. Qed.

Example parse_gem2 :
  Parse.parseAIResponse (Some (q "x <JSON_START> {'files':[],'readmeContent':''} <JSON_END>")) =
  Ok (JObj [("files", JArr []); ("readmeContent", JStr "")]).
Proof. vm_compute. reflexivity. Qed.

Example parse_gem3 :
  Parse.parseAIResponse (Some "no json here") = Err Parse.malformed.
Proof. vm_compute. reflexivity. Qed.

Example fs_ex1 :
  (match mkdir_p ∅ "src/x" with
   | Ok d => match write_file d "src/x/a.ts" "A" with Ok d' => read_file d' "src/x/a.ts" | Err e => Err e end
   | Err e => Err e end) = Ok "A".
Proof. vm_compute. reflexivity. Qed.

(** ** Lemmas on the text helpers *)

Lemma prefixb_app (p post : list ascii) : prefixb p (p ++ post) = true.
Proof.
  induction p as [|x p IH]; simpl; [reflexivity|].
  unfold ascii_eqb. destruct (ascii_dec x x) as [_|n]; [exact IH|contradiction].
Qed.

Lemma index_of_from_found (p l : list ascii) (k i : nat) :
  prefixb p (drop k l) = true -> index_of_from p l i <> None.
Proof.
  revert k i. induction l as [|x l IH]; intros k i H; simpl.
  - destruct k; simpl in H; rewrite H; discriminate.
  - destruct (prefixb p (x :: l)) eqn:E; [discriminate|].
    destruct k as [|k]; simpl in H.
    + congruence.
    + exact (IH k (S i) H).
Qed.

Lemma contains_app (w : string) (pre post : list ascii) :
  contains w (pre ++ chars w ++ post) = true.
Proof.
  unfold contains, index_of.
  destruct (index_of_from (chars w) (pre ++ chars w ++ post) 0) eqn:E; [reflexivity|].
  exfalso. refine (index_of_from_found (chars w) _ (length pre) 0 _ E).
  rewrite drop_app_length. apply prefixb_app.
Qed.

Lemma dot_at_start_app (b : bool) (pre post : list ascii) (x : ascii) :
  not_line_term x = true ->
  dot_at_start b (pre ++ c_slash :: c_dot :: x :: post) = true.
Proof.
  intros Hx. revert b. induction pre as [|y pre IH]; intros b; simpl.
  - apply orb_true_intro. right. simpl. rewrite Hx. reflexivity.
  - rewrite IH. apply orb_true_r.
Qed.

(** ** C1: the write-suppression flag *)

(** C1 (as amended): the [write-file] handler sets [isInternalChange]
    and, when its write finishes, schedules the reset 250 ms later; a
    watcher event is forwarded exactly when it passes the ignore filter,
    the flag is false and a window exists; the other writing handlers
    ([create-file], [create-folder], [delete-node], [rename-node],
    [write-chat-history]) leave the flag as it is; the flag is cleared
    only by a due reset timer. *)
Theorem write_suppression_semantics :
  (forall m p c,
      isInternalChange (step m (EvWriteFile p c)) = true /\
      timers (step m (EvWriteFile p c)) = timers m ++ [now m + 250]) /\
  (forall m p,
      sent (step m (EvWatch p)) =
        if (watcher_ignored p || isInternalChange m || negb (window m))%bool
        then sent m else S (sent m)) /\
  (forall m p,
      isInternalChange (step m (EvCreateFile p)) = isInternalChange m /\
      isInternalChange (step m (EvCreateFolder p)) = isInternalChange m /\
      isInternalChange (step m (EvDeleteNode p)) = isInternalChange m) /\
  (forall m o n, isInternalChange (step m (EvRenameNode o n)) = isInternalChange m) /\
  (forall m h, isInternalChange (step m (EvWriteChatHistory h)) = isInternalChange m) /\
  (forall m,
      isInternalChange (step m EvTick) =
        if existsb (fun x => Nat.leb x (S (now m))) (timers m) then false
        else isInternalChange m) /\
  (forall m p,
      isInternalChange (step m (EvWatch p)) = isInternalChange m /\
      timers (step m (EvWatch p)) = timers m) /\
  (forall m e,
      isInternalChange m = true -> isInternalChange (step m e) = false ->
      e = EvTick /\ existsb (fun x => Nat.leb x (S (now m))) (timers m) = true).
Proof.
  assert (Htick : forall m,
      isInternalChange (step m EvTick) =
        if existsb (fun x => Nat.leb x (S (now m))) (timers m) then false
        else isInternalChange m).
  { intros m. simpl. unfold tick. simpl.
    induction (timers m) as [|t ts IH]; simpl; [reflexivity|].
    destruct (Nat.leb t (S (now m))) eqn:E; simpl.
    + reflexivity.
    + exact IH. }
  assert (Hkeep : forall m e, e <> EvTick -> (forall p c, e <> EvWriteFile p c) ->
      isInternalChange (step m e) = isInternalChange m).
  { intros m e H1 H2. destruct e as [p c|p|p|p|o n|h|p|]; simpl.
    - exfalso. exact (H2 p c eq_refl).
    - unfold create_file_handler, lift. destruct (Fs.write_file _ _ _); reflexivity.
    - unfold create_folder_handler, lift. destruct (mkdir_p _ _); reflexivity.
    - unfold delete_node_handler, lift. destruct (rm_rf _ _); reflexivity.
    - unfold rename_node_handler, lift. destruct (Fs.rename _ _ _); reflexivity.
    - unfold write_chat_history_handler.
      destruct (mkdir_p _ _) as [d1|e]; [destruct (Fs.write_file _ _ _)|]; reflexivity.
    - unfold on_watch_event. destruct (watcher_ignored p); [reflexivity|].
      destruct (isInternalChange m) eqn:E; [exact E|]. destruct (window m); cbn; congruence.
    - congruence. }
  split; [|split; [|split; [|split; [|split; [|split; [|split]]]]]].
  - intros m p c. simpl. unfold write_file_handler.
    destruct (mkdir_p _ _) as [d1|e]; [destruct (Fs.write_file d1 p c)|]; simpl; auto.
  - intros m p. simpl. unfold on_watch_event.
    destruct (watcher_ignored p), (isInternalChange m), (window m); reflexivity.
  - intros m p. simpl. unfold create_file_handler, create_folder_handler,
      delete_node_handler, lift.
    repeat split;
      repeat match goal with |- context [match ?r with Ok _ => _ | Err _ => _ end] =>
               destruct r end; reflexivity.
  - intros m o n. simpl. unfold rename_node_handler, lift.
    destruct (Fs.rename _ _ _); reflexivity.
  - intros m h. simpl. unfold write_chat_history_handler.
    destruct (mkdir_p _ _) as [d1|e]; [destruct (Fs.write_file _ _ _)|]; reflexivity.
  - exact Htick.
  - intros m p. simpl. unfold on_watch_event.
    destruct (watcher_ignored p); [split; reflexivity|].
    destruct (isInternalChange m) eqn:E; [split; [exact E|reflexivity]|].
    destruct (window m); cbn; split; congruence.
  - intros m e Hm He. destruct e as [p c|p|p|p|o n|h|p|].
    1: { exfalso. simpl in He. unfold write_file_handler in He.
         destruct (mkdir_p _ _) as [d1|e]; [destruct (Fs.write_file d1 p c)|]; cbn in He; discriminate. }
    7: { rewrite Htick, Hm in He. split; [reflexivity|].
         destruct (existsb _ _); [reflexivity|discriminate]. }
    all: rewrite (Hkeep m) in He; [congruence|discriminate|intros ? ? ?; discriminate].
Qed.

(** C1 (counterexample): [create-file] writes the new file without
    arming the flag, and the watcher's event for it is forwarded. *)
Lemma create_file_not_suppressed :
  isInternalChange (step (init ∅) (EvCreateFile "a.txt")) = false /\
  is_app_write (EvCreateFile "a.txt") = true /\
  sent (run (init ∅) [EvCreateFile "a.txt"; EvWatch "/proj/a.txt"]) = 1.
Proof. vm_compute. repeat split. Qed.

(** Two [write-file] calls 100 ms apart: the first call's timer clears
    the flag 150 ms after the second write finished. *)
Lemma write_file_overlap_reset_early :
  let m := run (init ∅) ([EvWriteFile "a.txt" "x"] ++ repeat EvTick 100 ++
                         [EvWriteFile "b.txt" "y"] ++ repeat EvTick 150) in
  now m = 250 /\ isInternalChange m = false /\ timers m = [350].
Proof. vm_compute. repeat split. Qed.

(** ** C5: the watcher's ignore filter *)

Lemma watcher_ignored_contains (name : string) (pre post : list ascii) :
  name = "node_modules" \/ name = "dist" \/ name = "build" ->
  watcher_ignored (str (pre ++ c_slash :: chars name ++ post)) = true.
Proof.
  intros Hn. unfold watcher_ignored. rewrite String.list_ascii_of_string_of_list_ascii.
  replace (pre ++ c_slash :: chars name ++ post) with ((pre ++ [c_slash]) ++ chars name ++ post)
    by (rewrite <- app_assoc; reflexivity).
  destruct Hn as [H|[H|H]]; subst name;
    rewrite contains_app; rewrite ?orb_true_r; reflexivity.
Qed.

(** C5 (as amended): the watcher ignores every path with a component that
    starts with a dot followed by a further character (so [.git],
    [.vscode] and [.coder]), and every path with a component named
    [node_modules], [dist] or [build]; the store's [__pycache__] is not in
    the watcher's filter: a path under [__pycache__] is not ignored. *)
Theorem watcher_ignore_filter :
  (forall (pre post : list ascii) (x : ascii),
      not_line_term x = true ->
      watcher_ignored (str (pre ++ c_slash :: c_dot :: x :: post)) = true) /\
  Forall (fun name => ignored_has name = true /\
            forall pre post : list ascii,
              watcher_ignored (str (pre ++ c_slash :: chars name ++ post)) = true)
         ["node_modules"; "dist"; "build"] /\
  ignored_has "__pycache__" = true /\
  watcher_ignored "/proj/__pycache__/m.pyc" = false.
Proof.
  split; [|split; [|split; reflexivity]].
  - intros pre post x Hx. unfold watcher_ignored.
    rewrite String.list_ascii_of_string_of_list_ascii.
    rewrite (dot_at_start_app true pre post x Hx). reflexivity.
  - repeat constructor; intros pre post; apply watcher_ignored_contains; auto.
Qed.

Lemma watcher_ignore_filter_witness :
  not_line_term (a 103) = true /\
  watcher_ignored (str (chars "/proj" ++ c_slash :: c_dot :: a 103 :: chars "it/HEAD")) = true.
Proof.
  split; [reflexivity|].
  apply (proj1 watcher_ignore_filter). reflexivity.
Defined.

(** C5 (counterexample): [/proj/__pycache__/m.pyc] has a component in the
    store's ignore set, and the watcher does not ignore it. *)
Lemma watcher_filter_differs :
  store_or_dot_ignored "/proj/__pycache__/m.pyc" = true /\
  watcher_ignored "/proj/__pycache__/m.pyc" = false.
Proof. vm_compute. split; reflexivity. Qed.

(** The filter is a substring test: [/proj/src/distance.ts] has no
    ignored or dot component and is ignored. *)
Lemma watcher_filter_substring :
  store_or_dot_ignored "/proj/src/distance.ts" = false /\
  watcher_ignored "/proj/src/distance.ts" = true.
Proof. vm_compute. split; reflexivity. Qed.

(** ** C7: rename delegates to [fs.rename] *)

Lemma string_eqb_neq (x y : string) : x <> y -> String.eqb x y = false.
Proof. intros H. destruct (String.eqb x y) eqn:E; [apply String.eqb_eq in E; congruence|reflexivity]. Qed.

Lemma resolve_fold_codes (d : disk) (l : list string) (acc : result unit) :
  acc = Ok tt \/ acc = Err "ENOENT" \/ acc = Err "ENOTDIR" ->
  let r := fold_left (resolve_step d) l acc in
  r = Ok tt \/ r = Err "ENOENT" \/ r = Err "ENOTDIR".
Proof.
  revert acc. induction l as [|x l IH]; intros acc H; [exact H|].
  apply IH. destruct H as [ -> | [ -> | -> ] ]; cbn; auto.
  destruct (d !! x) as [[]|]; auto.
Qed.

(** Resolving a directory gives [Ok], [ENOENT] or [ENOTDIR]. *)
Lemma resolve_codes (d : disk) (p : string) :
  resolve d p = Ok tt \/ resolve d p = Err "ENOENT" \/ resolve d p = Err "ENOTDIR".
Proof.
  unfold resolve. destruct (String.eqb p ""); [left; reflexivity|].
  apply resolve_fold_codes. left. reflexivity.
Qed.

Lemma resolve_fold_err (d : disk) (l : list string) (e : string) :
  fold_left (resolve_step d) l (Err e) = Err e.
Proof. induction l; simpl; auto. Qed.

Lemma resolve_fold_ok (d : disk) (l : list string) :
  fold_left (resolve_step d) l (Ok tt) = Ok tt <-> forall q, q ∈ l -> d !! q = Some EDir.
Proof.
  induction l as [|x l IH]; simpl.
  - split; [intros _ q Hq; inversion Hq|reflexivity].
  - destruct (d !! x) as [[c|]|] eqn:E.
    + rewrite resolve_fold_err. split; [discriminate|].
      intros H. rewrite (H x) in E by (apply elem_of_cons; left; reflexivity). discriminate.
    + rewrite IH. split.
      * intros H q Hq. apply elem_of_cons in Hq as [->|Hq]; [exact E|apply H, Hq].
      * intros H q Hq. apply H, elem_of_cons. right. exact Hq.
    + rewrite resolve_fold_err. split; [discriminate|].
      intros H. rewrite (H x) in E by (apply elem_of_cons; left; reflexivity). discriminate.
Qed.

Lemma resolve_fold_no_file (d : disk) (l : list string) (acc : result unit) :
  acc = Ok tt \/ acc = Err "ENOENT" ->
  (forall q c, q ∈ l -> d !! q <> Some (EFile c)) ->
  fold_left (resolve_step d) l acc = Ok tt \/ fold_left (resolve_step d) l acc = Err "ENOENT".
Proof.
  revert acc. induction l as [|x l IH]; intros acc Ha Hf; [exact Ha|].
  cbn. apply IH; [|intros q c Hq; apply Hf, elem_of_cons; right; exact Hq].
  destruct Ha as [->| ->]; cbn; [|right; reflexivity].
  destruct (d !! x) as [[c|]|] eqn:E; auto.
  exfalso. apply (Hf x c); [apply elem_of_cons; left; reflexivity|exact E].
Qed.

Lemma resolve_fold_no_missing (d : disk) (l : list string) (acc : result unit) :
  acc = Ok tt \/ acc = Err "ENOTDIR" ->
  (forall q, q ∈ l -> d !! q <> None) ->
  fold_left (resolve_step d) l acc = Ok tt \/ fold_left (resolve_step d) l acc = Err "ENOTDIR".
Proof.
  revert acc. induction l as [|x l IH]; intros acc Ha Hn; [exact Ha|].
  cbn. apply IH; [|intros q Hq; apply Hn, elem_of_cons; right; exact Hq].
  destruct Ha as [->| ->]; cbn; [|right; reflexivity].
  destruct (d !! x) as [[c|]|] eqn:E; auto.
  exfalso. apply (Hn x); [apply elem_of_cons; left; reflexivity|exact E].
Qed.

(** Writing a file at a path that is not a directory keeps every
    directory that resolved. *)
Lemma resolve_insert_file (d : disk) (p c q : string) :
  resolve d q = Ok tt -> d !! p <> Some EDir -> resolve (<[p := EFile c]> d) q = Ok tt.
Proof.
  unfold resolve. destruct (String.eqb q ""); [auto|].
  rewrite !resolve_fold_ok. intros H Hp r Hr.
  rewrite lookup_insert_ne; [apply H, Hr|]. intros ->. apply Hp, H, Hr.
Qed.

(** C7 (as amended): [rename-node] performs no existence check of its
    own and has [fs.rename]'s semantics: it fails with an I/O error when
    the source does not exist ([ENOENT], or [ENOTDIR] when one of the two
    paths runs through a regular file), changing nothing, and [ENOENT]
    when both parent directories exist; it moves a file onto an existing
    file, replacing that file, without error (when both parent
    directories exist and neither path lies inside the other, which
    holds on every real tree since a file has nothing inside it). *)
Theorem rename_node_semantics :
  (forall m o n, o <> "" -> fs m !! o = None ->
     (rename_node_handler m o n).1 = m /\
     exists e, (rename_node_handler m o n).2 = Err e /\ (e = "ENOENT" \/ e = "ENOTDIR")) /\
  (forall m o n, o <> "" -> fs m !! o = None ->
     resolve (fs m) (dirname o) = Ok tt -> resolve (fs m) (dirname n) = Ok tt ->
     (rename_node_handler m o n).2 = Err "ENOENT") /\
  (forall m o n c1 c2, o <> "" -> o <> n ->
     fs m !! o = Some (EFile c1) -> fs m !! n = Some (EFile c2) ->
     resolve (fs m) (dirname o) = Ok tt -> resolve (fs m) (dirname n) = Ok tt ->
     strictly_under o n = false -> strictly_under n o = false ->
     (rename_node_handler m o n).2 = Ok tt /\
     fs (rename_node_handler m o n).1 !! n = Some (EFile c1) /\
     fs (rename_node_handler m o n).1 !! o = None).
Proof.
  split; [|split].
  - intros m o n Hne Ho. unfold rename_node_handler, lift, Fs.rename.
    rewrite (string_eqb_neq _ _ Hne), Ho.
    destruct (resolve_codes (fs m) (dirname o)) as [E1|[E1|E1]]; rewrite E1;
      [destruct (resolve_codes (fs m) (dirname n)) as [E2|[E2|E2]]; rewrite E2|..];
      (split; [reflexivity|eexists; split; [reflexivity|auto]]).
  - intros m o n Hne Ho E1 E2. unfold rename_node_handler, lift, Fs.rename.
    rewrite (string_eqb_neq _ _ Hne), Ho, E1, E2. reflexivity.
  - intros m o n c1 c2 Hoe Hon Ho Hn E1 E2 U1 U2. unfold rename_node_handler, lift, Fs.rename.
    rewrite E1, E2, (string_eqb_neq _ _ Hoe), Ho, U1, U2, (string_eqb_neq _ _ Hon), Hn. simpl.
    split; [reflexivity|split].
    + apply lookup_insert_eq.
    + rewrite lookup_insert_ne by congruence. apply lookup_delete_eq.
Qed.

Lemma rename_node_semantics_witness :
  (rename_node_handler (init disk_ab) "a" "b").2 = Ok tt /\
  fs (rename_node_handler (init disk_ab) "a" "b").1 !! "b" = Some (EFile "A") /\
  fs (rename_node_handler (init disk_ab) "a" "b").1 !! "a" = None.
Proof.
  refine (proj2 (proj2 rename_node_semantics) (init disk_ab) "a" "b" "A" "B" _ _ _ _ _ _ _ _);
    try discriminate; vm_compute; reflexivity.
Defined.

(** C7 (counterexample): renaming [a] onto the existing file [b]
    succeeds. *)
Lemma rename_onto_existing_succeeds :
  fs (init disk_ab) !! "b" = Some (EFile "B") /\
  (rename_node_handler (init disk_ab) "a" "b").2 = Ok tt.
Proof. vm_compute. split; reflexivity. Qed.

(** ** C9: persisting the transcript never fails *)

(** C9: [write-chat-history] resolves for every state and history, also
    when its write fails (here: [.coder] is a file, and nothing is
    written), while [write-file] rejects on the same kind of failure. *)
Theorem write_chat_history_never_fails :
  (forall m h, (write_chat_history_handler m h).2 = Ok tt) /\
  (forall h, read_file (fs (write_chat_history_handler (init disk_coder_file) h).1)
                       chat_history_path = Err "ENOTDIR") /\
  (write_file_handler (init disk_coder_file) ".coder/x" "c").2 = Err "EEXIST".
Proof.
  split; [|split].
  - intros m h. unfold write_chat_history_handler.
    destruct (mkdir_p _ _) as [d1|e]; [destruct (Fs.write_file _ _ _)|]; reflexivity.
  - intros h. vm_compute. reflexivity.
  - vm_compute. reflexivity.
Qed.

(** ** C10: the tree listing filters names before kinds *)

(** C10: no node of the listed tree, file or folder, at any depth, has a
    name of the ignore set. *)
Theorem readProjectTree_omits_ignored_names (fuel : nat) (d : disk) (cur : string) :
  forallb (fun nm => negb (ignored_has nm)) (flat_map tree_names (readProjectTree_fuel fuel d cur))
  = true.
Proof.
  revert cur. induction fuel as [|f IH]; intros cur; simpl; [reflexivity|].
  destruct (readdir d cur) as [ds|e]; [|reflexivity].
  induction ds as [|[name isd] ds IHds]; simpl; [reflexivity|].
  rewrite flat_map_app, forallb_app, IHds, andb_true_r.
  destruct (ignored_has name) eqn:Ei; [reflexivity|].
  destruct isd; simpl; rewrite Ei; simpl; [rewrite app_nil_r; apply IH|reflexivity].
Qed.

Example readProjectTree_dist_file :
  readProjectTree disk_dist_file = [FolderNode "src" "src" [FileNode "a.ts" "src/a.ts"]].
Proof. vm_compute. reflexivity. Qed.

(** ** C8: the render-time sort *)

Lemma lex_opp (l1 l2 : list nat) : lex l2 l1 = CompOpp (lex l1 l2).
Proof.
  revert l2. induction l1 as [|x r IH]; intros [|y s]; simpl; try reflexivity.
  rewrite (Nat.compare_antisym x y).
  destruct (Nat.compare x y); simpl; try reflexivity. apply IH.
Qed.

Lemma localeCompare_opp (s t : string) : localeCompare t s = CompOpp (localeCompare s t).
Proof.
  unfold localeCompare. rewrite (lex_opp (map primary (chars s))).
  destruct (lex (map primary (chars s)) (map primary (chars t))); simpl; auto.
  apply lex_opp.
Qed.

Lemma sortTree_opp (x y : TreeNode) : sortTree y x = CompOpp (sortTree x y).
Proof.
  unfold sortTree. destruct (is_folder x), (is_folder y); simpl; auto.
  all: apply localeCompare_opp.
Qed.

Lemma insert_sorted (x : TreeNode) (l : list TreeNode) :
  Sorted not_after l -> Sorted not_after (insert sortTree x l).
Proof.
  induction l as [|y r IH]; intros Hs; simpl.
  - repeat constructor.
  - apply Sorted_inv in Hs as [Hr Hh].
    destruct (sortTree x y) eqn:E.
    2: { apply Sorted_cons; [apply Sorted_cons; auto|constructor; unfold not_after; congruence]. }
    all: apply Sorted_cons; [apply IH; exact Hr|].
    all: assert (Hyx : not_after y x) by (unfold not_after; rewrite sortTree_opp, E; discriminate).
    all: destruct r as [|z r']; simpl; [constructor; exact Hyx|].
    all: destruct (sortTree x z); constructor; auto; inversion Hh; auto.
Qed.

Lemma sort_sorted (l acc : list TreeNode) :
  Sorted not_after acc -> Sorted not_after (fold_left (fun acc x => insert sortTree x acc) l acc).
Proof.
  revert acc. induction l as [|x r IH]; intros acc H; simpl; [exact H|].
  apply IH, insert_sorted, H.
Qed.

Lemma insert_perm (cmp : TreeNode -> TreeNode -> comparison) (x : TreeNode) (l : list TreeNode) :
  Permutation (x :: l) (insert cmp x l).
Proof.
  induction l as [|y r IH]; simpl; [reflexivity|].
  destruct (cmp x y); try reflexivity.
  all: etransitivity; [apply perm_swap|]; apply perm_skip, IH.
Qed.

Lemma sort_perm (cmp : TreeNode -> TreeNode -> comparison) (l acc : list TreeNode) :
  Permutation (l ++ acc) (fold_left (fun acc x => insert cmp x acc) l acc).
Proof.
  revert acc. induction l as [|x r IH]; intros acc; simpl; [reflexivity|].
  etransitivity; [|apply IH].
  etransitivity; [apply Permutation_middle|].
  apply Permutation_app_head, insert_perm.
Qed.

Lemma Sorted_weaken {A : Type} (R R' : A -> A -> Prop) (l : list A) :
  (forall x y, R x y -> R' x y) -> Sorted R l -> Sorted R' l.
Proof.
  intros HR Hs. induction Hs as [|x l Hs IH Hh]; constructor; auto.
  destruct Hh; constructor; auto.
Qed.

(** C8 (as amended): the render-time sort returns a permutation of the
    nodes in which folders precede files and, within one kind, names are
    in [localeCompare] order (default locale collation, e.g. [a] before
    [B]), not in case-sensitive ordinal order. *)
Theorem sortTree_orders_folders_then_locale (l : list TreeNode) :
  Permutation l (sort_nodes l) /\ Sorted folder_then_locale (sort_nodes l).
Proof.
  split.
  - unfold sort_nodes, sort. rewrite <- (app_nil_r l) at 1. apply sort_perm.
  - apply (Sorted_weaken not_after).
    + intros x y H. unfold not_after, sortTree in H. unfold folder_then_locale.
      destruct (is_folder x), (is_folder y); simpl in *; split; auto; try congruence.
    + apply sort_sorted. constructor.
Qed.

(** C8 (counterexample): ordinally [B] precedes [a], but the sort puts
    [a] first. *)
Lemma sortTree_not_ordinal :
  ordinal_compare "B" "a" = Lt /\
  sort_nodes [FileNode "B" "B"; FileNode "a" "a"] = [FileNode "a" "a"; FileNode "B" "B"].
Proof. vm_compute. split; reflexivity. Qed.

(** ** C4: response parsing *)

(** C4 (code defect): [parseAIResponse] checks only that [files] is an
    array and [readmeContent] a string, so a [files] element that is not
    a [{fileName, code}] pair is returned as is; [parseOllamaResponse]
    rejects the same text. *)
Theorem parseAIResponse_accepts_bad_file_entry :
  Parse.parseAIResponse (Some bad_files_response) =
    Ok (JObj [("files", JArr [JNum "1"]); ("readmeContent", JStr "x")]) /\
  Parse.parseOllamaResponse (Some bad_files_response) =
    Err "The AI returned invalid JSON. Parsed JSON does not match the expected structure.".
Proof. vm_compute. split; reflexivity. Qed.

(** ** C6: determinism of the context builders *)

(** C6 (code defect): the full-context strategy pushes each file block
    when that file's read resolves, so for one fixed tree and fixed file
    contents the context depends on the order in which the two reads are
    answered. *)
Theorem getProjectContextString_depends_on_reply_order :
  getProjectContextString (init disk_two_files) tree_two_files None "" [0; 0] <>
  getProjectContextString (init disk_two_files) tree_two_files None "" [1; 0].
Proof. vm_compute. discriminate. Qed.

(** ** C2, C3: the Reconciliation Driver *)

Lemma mkdir_p_src (d : disk) :
  mkdir_p d "src" = match d !! "src" with
                    | Some EDir => Ok d | Some (EFile _) => Err "EEXIST"
                    | None => Ok (<["src" := EDir]> d) end.
Proof. unfold mkdir_p. change (prefixes "src") with ["src"]. simpl. destruct (d !! "src") as [[]|]; reflexivity. Qed.

Lemma resolve_src (d : disk) :
  resolve d "src" = match d !! "src" with
                    | Some EDir => Ok tt | Some (EFile _) => Err "ENOTDIR"
                    | None => Err "ENOENT" end.
Proof. unfold resolve. change (prefixes "src") with ["src"]. simpl. destruct (d !! "src") as [[]|]; reflexivity. Qed.

Lemma resolve_root (d : disk) : resolve d "" = Ok tt.
Proof. reflexivity. Qed.

Lemma write_file_handler_src (m : main_state) (p c : string) :
  dirname p = "src" -> p <> "src" -> p <> "" ->
  (forall c', fs m !! "src" <> Some (EFile c')) -> fs m !! p <> Some EDir ->
  write_file_handler m p c =
    (add_timer (with_fs (with_flag m true) (<[p := EFile c]> (<["src" := EDir]> (fs m)))) (now m + 250), Ok tt).
Proof.
  intros Hd Hs He Hsrc Hp. unfold write_file_handler. cbn [fs with_flag].
  rewrite Hd, mkdir_p_src.
  destruct (fs m !! "src") as [[c'|]|] eqn:E.
  - exfalso. exact (Hsrc c' eq_refl).
  - unfold Fs.write_file. rewrite Hd, resolve_src, E. simpl.
    destruct (fs m !! p) as [[]|] eqn:Ep; try congruence;
    (destruct (String.eqb p "") eqn:Ee; [apply String.eqb_eq in Ee; congruence|]);
    rewrite (insert_id (fs m) "src" EDir E); reflexivity.
  - unfold Fs.write_file. rewrite Hd, resolve_src, lookup_insert_eq. simpl.
    rewrite lookup_insert_ne by congruence.
    destruct (fs m !! p) as [[]|] eqn:Ep; try congruence;
    (destruct (String.eqb p "") eqn:Ee; [apply String.eqb_eq in Ee; congruence|]); reflexivity.
Qed.

Lemma write_file_handler_top (m : main_state) (p c : string) :
  dirname p = "" -> p <> "" -> fs m !! p <> Some EDir ->
  write_file_handler m p c =
    (add_timer (with_fs (with_flag m true) (<[p := EFile c]> (fs m))) (now m + 250), Ok tt).
Proof.
  intros Hd He Hp. unfold write_file_handler. cbn [fs with_flag].
  rewrite Hd. unfold mkdir_p. simpl. unfold Fs.write_file. rewrite Hd, resolve_root. simpl.
  destruct (fs m !! p) as [[]|] eqn:Ep; try congruence;
  (destruct (String.eqb p "") eqn:Ee; [apply String.eqb_eq in Ee; congruence|]); reflexivity.
Qed.

Lemma write_chat_history_handler_frame (m : main_state) (h : json) (k : string) :
  k <> ".coder" -> k <> chat_history_path ->
  fs (fst (write_chat_history_handler m h)) !! k = fs m !! k.
Proof.
  intros H1 H2. unfold write_chat_history_handler.
  assert (Hm : forall d d', mkdir_p d ".coder" = Ok d' -> d' !! k = d !! k).
  { intros d d'. unfold mkdir_p. change (prefixes ".coder") with [".coder"]. simpl.
    destruct (d !! ".coder") as [[]|]; intros E; inversion E; subst; try reflexivity.
    apply lookup_insert_ne; congruence. }
  destruct (mkdir_p (fs m) ".coder") as [d1|e] eqn:E1; [|reflexivity].
  unfold Fs.write_file.
  destruct (resolve d1 (dirname chat_history_path)); [|simpl; apply Hm; exact E1].
  destruct (d1 !! chat_history_path) as [[]|]; simpl;
    try (rewrite lookup_insert_ne by congruence); apply Hm; exact E1.
Qed.

Lemma write_chat_history_handler_mainp (m : main_state) (h : json) :
  snd (write_chat_history_handler m h) = Ok tt.
Proof. unfold write_chat_history_handler. destruct (mkdir_p (fs m) ".coder"); [|reflexivity].
  destruct (Fs.write_file _ _ _); reflexivity. Qed.

Lemma refreshProject_frame (s : session) :
  fst (refreshProject s) = Ok tt /\ mainp (snd (refreshProject s)) = mainp s /\
  chatHistory (snd (refreshProject s)) = chatHistory s /\
  recentlyUpdatedPaths (snd (refreshProject s)) = recentlyUpdatedPaths s.
Proof.
  unfold refreshProject.
  destruct (List.find _ _) as [[]|]; [destruct (read_file_handler _ _)|destruct (read_file_handler _ _)|]; simpl; auto.
Qed.

Lemma c2_stringify_nonempty : String.eqb (stringify c2_response) "" = false.
Proof. vm_compute. reflexivity. Qed.
Lemma c2_parse_gemini : Parse.parseAIResponse (Some (stringify c2_response)) = Ok c2_response.
Proof. vm_compute. reflexivity. Qed.
Lemma c2_parse_ollama : Parse.parseOllamaResponse (Some (stringify c2_response)) = Ok c2_response.
Proof. vm_compute. reflexivity. Qed.

Opaque getProjectContextString getFileTreeContextString write_file_handler write_chat_history_handler refreshProject stringify Parse.parseAIResponse Parse.parseOllamaResponse read_chat_history_handler.

Ltac side := first [reflexivity | discriminate | assumption
  | (intros ? ?; simplify_map_eq) | (simplify_map_eq; assumption) | (intros ?; simplify_map_eq; eauto)].
Ltac read_back Hfr :=
  change (dirname "src/a.ts") with "src"; change (dirname "src/b.ts") with "src";
  change (dirname "README.md") with "";
  rewrite ?resolve_src, ?resolve_root;
  rewrite ?lookup_insert_ne by discriminate; rewrite ?Hfr by discriminate; cbn; simplify_map_eq; reflexivity.
Ltac apply_tail s base :=
  unfold bind, gets, modify, ret, throw, ipc_write_file, ipc_write_chat_history; cbn;
  rewrite (write_file_handler_src _ "src/a.ts" "A") by side; cbn;
  rewrite (write_file_handler_src _ "src/b.ts" "B") by side; cbn;
  let Eh := fresh "Eh" in let hist := fresh "hist" in
  match goal with |- context [match base ++ ?t with [] => _ | _ :: _ => _ end] =>
    remember (base ++ t) as hist eqn:Eh end;
  destruct hist as [|h0 t0]; [destruct base; discriminate|];
  let Hfr := fresh "Hfr" in let Hok := fresh "Hok" in let r' := fresh "r" in
  match goal with |- context [write_chat_history_handler ?m ?h] =>
    pose proof (write_chat_history_handler_frame m h) as Hfr;
    pose proof (write_chat_history_handler_mainp m h) as Hok;
    destruct (write_chat_history_handler m h) as [m' r'] end;
  cbn [fst snd] in Hfr, Hok; subst r'; cbn;
  rewrite (write_file_handler_top _ "README.md" "R");
  [| side | side | cbn; rewrite Hfr by discriminate; cbn; simplify_map_eq; assumption];
  let Hr1 := fresh "Hr" in let Hr2 := fresh "Hr" in let Hr3 := fresh "Hr" in let Hr4 := fresh "Hr" in let r2 := fresh "r" in
  match goal with |- context [refreshProject ?x] =>
    pose proof (refreshProject_frame x) as (Hr1 & Hr2 & Hr3 & Hr4);
    destruct (refreshProject x) as [r2 s2] end;
  cbn [fst snd] in Hr1, Hr2, Hr3, Hr4; subst r2; cbn;
  rewrite Hr2, Hr3, Hr4; cbn;
  split; [|split; [|split; [|split]]];
  [ read_back Hfr
  | read_back Hfr
  | read_back Hfr
  | vm_compute; reflexivity
  | eexists _, _; split; [exact Eh | split; reflexivity] ].

(** C2 (as amended): after a successful exchange answering
    [c2_response], started on a project in which [src] is no file and
    [src/a.ts], [src/b.ts] and [README.md] are no directories: the two
    files and [README.md] hold the returned contents, the recently updated
    paths are exactly the two files and [src], in insertion order, and the
    transcript is the prior transcript (with Ollama the one in memory,
    with Gemini the one persisted on disk) with one user turn and one
    model turn appended. *)
Theorem sequential_multi_file_apply (env : backend) (s : session) (root prompt : string)
  (imageBase64 : option string) :
  projectRoot s = Some root ->
  (forall c, fs (mainp s) !! "src" <> Some (EFile c)) ->
  fs (mainp s) !! "src/a.ts" <> Some EDir ->
  fs (mainp s) !! "src/b.ts" <> Some EDir ->
  fs (mainp s) !! "README.md" <> Some EDir ->
  exchange_returns env s c2_response ->
  let s' := handleSendMessage env prompt imageBase64 s in
  read_file_handler (mainp s') "src/a.ts" = Ok "A" /\
  read_file_handler (mainp s') "src/b.ts" = Ok "B" /\
  read_file_handler (mainp s') "README.md" = Ok "R" /\
  recentlyUpdatedPaths s' = ["src/a.ts"; "src/b.ts"; "src"] /\
  exists u m, chatHistory s' = prior_transcript s ++ [u; m] /\
              role_of u = Some (JStr "user") /\ role_of m = Some (JStr "model").
Proof.
  intros Hroot Hsrc Ha Hb Hr Hx s'. subst s'.
  unfold handleSendMessage. rewrite Hroot. unfold send_try, ai_exchange, prior_transcript.
  unfold exchange_returns in Hx.
  destruct (aiProvider s) eqn:Hp.
  - destruct Hx as (Hkey & [h Hdisk] & Hsend). rewrite Hdisk.
    unfold bind, gets, modify, ret, throw, getChatHistory, ipc_write_file, ipc_write_chat_history, initializeChat, sendMessageGemini. cbn. rewrite Hkey, Hdisk; cbn. rewrite Hsend; cbn. rewrite c2_stringify_nonempty; cbn. rewrite c2_parse_gemini; cbn.
    apply_tail s h.
  - destruct Hx as ((url & model & Hcfg & Hu & Hm) & Hinv).
    unfold bind, gets, modify, ret, throw; cbn. rewrite Hcfg.
    apply String.eqb_neq in Hu, Hm. rewrite Hu, Hm. cbn.
    unfold sendMessageOllama. rewrite Hinv, c2_parse_ollama. cbn.
    apply_tail s (chatHistory s).
Qed.

Lemma sequential_multi_file_apply_witness :
  let s' := handleSendMessage backend_c2 "Add two modules" None (session_new Gemini) in
  read_file_handler (mainp s') "src/a.ts" = Ok "A" /\
  read_file_handler (mainp s') "src/b.ts" = Ok "B" /\
  read_file_handler (mainp s') "README.md" = Ok "R" /\
  recentlyUpdatedPaths s' = ["src/a.ts"; "src/b.ts"; "src"] /\
  exists u m, chatHistory s' = prior_transcript (session_new Gemini) ++ [u; m] /\
              role_of u = Some (JStr "user") /\ role_of m = Some (JStr "model").
Proof.
  apply (sequential_multi_file_apply backend_c2 (session_new Gemini) "/home/u/proj" "Add two modules" None).
  - reflexivity.
  - intros c. vm_compute. discriminate.
  - vm_compute. discriminate.
  - vm_compute. discriminate.
  - vm_compute. discriminate.
  - split; [reflexivity | split; [exists []; vm_compute; reflexivity | intros h parts; reflexivity]].
Defined.

(** C2 (counterexample): with Gemini the new transcript is rebuilt from
    the persisted one, not from the one in memory. When [.coder] is a
    regular file, persisting fails silently; after two successful sends
    the transcript in memory holds two turns, not four. *)
Lemma gemini_transcript_from_disk :
  let s0 := set_mainp (session_new Gemini) (init disk_coder_file) in
  let s1 := handleSendMessage backend_c2 "Add two modules" None s0 in
  let s2 := handleSendMessage backend_c2 "Add two modules" None s1 in
  error s1 = None /\ error s2 = None /\
  length (chatHistory s1) = 2 /\ length (chatHistory s2) = 2.
Proof. vm_compute. repeat split. Qed.

(** The AI Exchange keeps the transcript and the main process as they
    are: it only touches the Gemini chat session. *)
Lemma ai_exchange_frame (env : backend) (s0 : session) (prompt : string)
  (imageBase64 : option string) (s : session) :
  chatHistory (snd (ai_exchange env s0 prompt imageBase64 s)) = chatHistory s /\
  mainp (snd (ai_exchange env s0 prompt imageBase64 s)) = mainp s.
Proof.
  unfold ai_exchange. destruct (aiProvider s0).
  - unfold bind, gets, initializeChat, modify, throw. cbn.
    destruct (gemini_api_key env); cbn; [|auto].
    destruct (read_chat_history_handler (mainp s)); cbn; auto.
    unfold sendMessageGemini. cbn.
    match goal with |- context [gemini_send ?a ?b ?c] => destruct (gemini_send a b c) as [text safety|e] end;
      cbn; [|auto].
    destruct text as [t|]; destruct safety; cbn; auto; destruct (String.eqb t ""); cbn; auto.
  - destruct (ollamaConfig s0) as [[url model]|]; [|unfold throw; cbn; auto].
    destruct (String.eqb url "" || String.eqb model "")%bool; [unfold throw; cbn; auto|].
    unfold sendMessageOllama. destruct (invokeOllama _ _) as [t|e]; [|unfold throw; cbn; auto].
    destruct (Parse.parseOllamaResponse _); unfold ret, throw; cbn; auto.
Qed.

(** C3: when the AI Exchange call of a send fails, for whatever reason,
    the send leaves the transcript as it was (the optimistic user turn is
    removed again, so its length is the one before the send), the main
    process (the disk, the suppression flag and its timers) is untouched,
    so nothing was written, and an error is shown. *)
Theorem failed_exchange_rolls_back (env : backend) (s : session) (prompt : string)
  (imageBase64 : option string) :
  exchange_fails env s prompt imageBase64 ->
  let s' := handleSendMessage env prompt imageBase64 s in
  length (chatHistory s') = length (chatHistory s) /\
  chatHistory s' = chatHistory s /\ mainp s' = mainp s /\ error s' <> None.
Proof.
  intros [e Hx] s'. subst s'. unfold handleSendMessage.
  destruct (projectRoot s) as [root|]; [|cbn; repeat split; discriminate].
  assert (Hst : send_try env s root prompt imageBase64
                  (set_recent (set_error (set_loading s true) None) []) =
                (Err e, snd (ai_exchange env s prompt imageBase64 (exchange_input s prompt imageBase64)))).
  { unfold send_try. unfold bind at 1, modify at 1.
    change (set_chatHistory (set_recent (set_error (set_loading s true) None) [])
              (chatHistory (set_recent (set_error (set_loading s true) None) []) ++
               [user_content prompt imageBase64]))
      with (exchange_input s prompt imageBase64).
    unfold bind at 1.
    destruct (ai_exchange env s prompt imageBase64 (exchange_input s prompt imageBase64)) as [r s2].
    cbn in Hx |- *. subst r. reflexivity. }
  rewrite Hst.
  pose proof (ai_exchange_frame env s prompt imageBase64 (exchange_input s prompt imageBase64)) as [Hc Hm].
  destruct (ai_exchange env s prompt imageBase64 (exchange_input s prompt imageBase64)) as [r s2].
  cbn in Hc, Hm |- *. rewrite Hc, Hm. unfold exchange_input. cbn.
  rewrite removelast_last. repeat split; discriminate.
Qed.

Lemma failed_exchange_rolls_back_witness :
  let s' := handleSendMessage backend_bad "Add two modules" None (session_new Ollama) in
  length (chatHistory s') = length (chatHistory (session_new Ollama)) /\
  chatHistory s' = chatHistory (session_new Ollama) /\
  mainp s' = mainp (session_new Ollama) /\ error s' <> None.
Proof.
  apply (failed_exchange_rolls_back backend_bad (session_new Ollama) "Add two modules" None).
  eexists. vm_compute. reflexivity.
Defined.

(** ** Store handlers, response parsers and file-explorer actions *)

Transparent getProjectContextString getFileTreeContextString write_file_handler write_chat_history_handler refreshProject stringify Parse.parseAIResponse Parse.parseOllamaResponse read_chat_history_handler.

Example explorer_rename_target : rename_target "src/a.ts" "b.ts" = "src/b.ts".
Proof. reflexivity. Qed.

Example explorer_rename_top : rename_target "a.ts" "b.ts" = "b.ts".
Proof. reflexivity. Qed.

Example explorer_move_target : move_target "src/a.ts" (Some "lib") = "lib/a.ts".
Proof. reflexivity. Qed.

Example explorer_move_to_root : move_target "src/a.ts" None = "a.ts".
Proof. reflexivity. Qed.

Example explorer_drop_into_own_folder : handleDrop (Some (FolderNode "b" "a/b" [])) ["a"] = None.
Proof. reflexivity. Qed.

Example explorer_drop_on_file : handleDrop (Some (FileNode "c.ts" "a/c.ts")) ["b"] = Some (["b"], None).
Proof. reflexivity. Qed.

Example explorer_select_toggle : select_update ["a"; "b"] "a" true = ["b"].
Proof. reflexivity. Qed.

Example explorer_delete_count :
  notification (handleDeleteNodes ["a.txt"; "b.txt"] session_two_files).2 = Some "2 item(s) deleted.".
Proof. vm_compute. reflexivity. Qed.

Lemma stop_char_cases (c : ascii) : stop_char c = true ->
  c = a 9 \/ c = a 10 \/ c = a 13 \/ c = a 32 \/ c = a 44 \/ c = a 93 \/ c = a 125.
Proof. destruct c as [[] [] [] [] [] [] [] []]; vm_compute; intros H; try discriminate; auto 10. Qed.

Lemma escape_char_parse (c : ascii) (l acc : list ascii) :
  parse_str (escape_char c ++ l) acc = parse_str l (c :: acc).
Proof. destruct c as [[] [] [] [] [] [] [] []]; reflexivity. Qed.

Lemma parse_str_quote (cs l acc : list ascii) :
  parse_str (flat_map escape_char cs ++ c_quote :: l) acc = Some (str (rev acc ++ cs), l).
Proof.
  revert acc. induction cs as [|c cs IH]; intros acc.
  - simpl. rewrite app_nil_r. reflexivity.
  - simpl. rewrite <- app_assoc, escape_char_parse, IH. simpl. rewrite <- app_assoc. reflexivity.
Qed.

Lemma stop_char_not_digit (c : ascii) : stop_char c = true -> is_digit c = false.
Proof. intros H. apply stop_char_cases in H. repeat destruct H as [H|H]; subst; reflexivity. Qed.

Lemma drop_while_digits (ds rest : list ascii) :
  forallb is_digit ds = true -> stop_ok rest = true ->
  drop_while is_digit (ds ++ rest) = rest.
Proof.
  intros Hd Hs. induction ds as [|d ds IH]; simpl in *.
  - destruct rest as [|c r]; [reflexivity|]. simpl. rewrite (stop_char_not_digit c Hs). reflexivity.
  - apply andb_true_iff in Hd as [H1 H2]. rewrite H1. auto.
Qed.

Lemma span_digits_app (ds rest : list ascii) :
  forallb is_digit ds = true -> stop_ok rest = true ->
  span_digits (ds ++ rest) = (ds, rest).
Proof.
  intros Hd Hs. unfold span_digits. rewrite (drop_while_digits ds rest Hd Hs).
  rewrite length_app. replace (length ds + length rest - length rest) with (length ds) by lia.
  rewrite take_app_length. reflexivity.
Qed.

Lemma digits_ok_forallb (ds : list ascii) : digits_ok ds = true -> forallb is_digit ds = true.
Proof.
  destruct ds as [|d [|d' r]]; simpl; try discriminate.
  - rewrite andb_true_r. auto.
  - intros H. apply andb_true_iff in H as [H1 H2]. apply andb_true_iff in H1 as [H1 _].
    rewrite H1. simpl. exact H2.
Qed.

Lemma str_chars (s : string) : str (chars s) = s.
Proof. apply String.string_of_list_ascii_of_string. Qed.

Lemma chars_str (l : list ascii) : chars (str l) = l.
Proof. apply String.list_ascii_of_string_of_list_ascii. Qed.

Lemma digits_ok_lead (d : ascii) (r : list ascii) : digits_ok (d :: r) = true ->
  (ascii_eqb d (a 48) && negb (Nat.eqb (length r) 0))%bool = false.
Proof.
  destruct r as [|d' r]; simpl; [rewrite andb_false_r; reflexivity|].
  intros H. apply andb_true_iff in H as [H _]. apply andb_true_iff in H as [_ H].
  destruct (ascii_eqb d (a 48)); [discriminate|reflexivity].
Qed.

Ltac stop_cases H := apply stop_char_cases in H; repeat destruct H as [H|H]; subst.

Lemma parse_num_int (n : string) (rest : list ascii) :
  int_lexeme n = true -> stop_ok rest = true -> parse_num (chars n ++ rest) = Some (JNum n, rest).
Proof.
  unfold int_lexeme. rewrite <- (str_chars n) at 3. destruct (chars n) as [|m ds]; [discriminate|].
  intros Hd Hs. unfold parse_num. simpl app.
  destruct (ascii_eqb m c_minus) eqn:Em.
  - rewrite Em. cbn -[span_digits]. rewrite (span_digits_app ds rest (digits_ok_forallb _ Hd) Hs).
    destruct ds as [|d r]; [discriminate|]. cbn -[span_digits]. rewrite (digits_ok_lead d r Hd).
    destruct rest as [|c r']; [simpl; rewrite !app_nil_r; reflexivity|].
    simpl in Hs. stop_cases Hs; simpl; rewrite !app_nil_r; reflexivity.
  - rewrite Em. cbn -[span_digits]. change (m :: ds ++ rest) with ((m :: ds) ++ rest).
    rewrite (span_digits_app (m :: ds) rest (digits_ok_forallb _ Hd) Hs).
    cbn -[span_digits]. rewrite (digits_ok_lead m ds Hd).
    destruct rest as [|c r']; [simpl; rewrite !app_nil_r; reflexivity|].
    simpl in Hs. stop_cases Hs; simpl; rewrite !app_nil_r; reflexivity.
Qed.

Lemma digit_cases (c : ascii) : is_digit c = true ->
  c = a 48 \/ c = a 49 \/ c = a 50 \/ c = a 51 \/ c = a 52 \/ c = a 53 \/ c = a 54 \/ c = a 55 \/ c = a 56 \/ c = a 57.
Proof. destruct c as [[] [] [] [] [] [] [] []]; vm_compute; intros H; try discriminate; auto 12. Qed.

Lemma skip_ws_head (c : ascii) (l : list ascii) : is_json_space c = false -> skip_ws (c :: l) = c :: l.
Proof. intros H. unfold skip_ws. simpl. rewrite H. reflexivity. Qed.

Lemma int_lexeme_head (n : string) : int_lexeme n = true ->
  exists m ds, chars n = m :: ds /\ (m = c_minus \/ is_digit m = true).
Proof.
  unfold int_lexeme. destruct (chars n) as [|m ds]; [discriminate|].
  intros H. exists m, ds. split; [reflexivity|].
  destruct (ascii_eqb m c_minus) eqn:E.
  - left. unfold ascii_eqb in E. destruct (ascii_dec m c_minus); [assumption|discriminate].
  - right. apply digits_ok_forallb in H. simpl in H. apply andb_true_iff in H. apply H.
Qed.

Lemma parse_value_num (f : nat) (n : string) (rest : list ascii) :
  int_lexeme n = true -> stop_ok rest = true ->
  parse_value (S f) (chars n ++ rest) = Some (JNum n, rest).
Proof.
  intros H Hs. rewrite <- (parse_num_int n rest H Hs).
  destruct (int_lexeme_head n H) as (m & ds & -> & Hm). simpl app.
  destruct Hm as [->|Hd]; [reflexivity|].
  apply digit_cases in Hd. repeat destruct Hd as [Hd|Hd]; subst; reflexivity.
Qed.

Lemma stringify_head (v : json) : json_ok v = true -> head_ok (stringify_l v).
Proof.
  intros H. destruct v as [|[]|n|s|xs|kv]; try (eexists _, _; split; [reflexivity|split; reflexivity]).
  simpl in H. destruct (int_lexeme_head n H) as (m & ds & E & Hm). simpl. rewrite E.
  exists m, ds. split; [reflexivity|].
  destruct Hm as [->|Hd]; [split; reflexivity|].
  apply digit_cases in Hd. repeat destruct Hd as [Hd|Hd]; subst; split; reflexivity.
Qed.

Lemma head_ok_app (l r : list ascii) : head_ok l -> head_ok (l ++ r).
Proof. intros (c & t & -> & H1 & H2). exists c, (t ++ r). auto. Qed.

Lemma items_ok (xs acc : list json) (f : nat) (rest : list ascii) :
  xs <> [] -> Forall (fun x => json_ok x = true -> value_ok x) xs -> forallb json_ok xs = true ->
  length (join [c_comma] (map stringify_l xs) ++ [c_rbrack]) < f ->
  parse_items f (join [c_comma] (map stringify_l xs) ++ c_rbrack :: rest) acc = Some (JArr (rev acc ++ xs), rest).
Proof.
  revert acc f. induction xs as [|x xs IH]; intros acc f Hne HP Hok Hlen; [congruence|].
  apply Forall_cons in HP as [Hx HP]. simpl in Hok. apply andb_true_iff in Hok as [Hok1 Hok2].
  destruct (stringify_head x Hok1) as (c0 & t0 & E0 & _).
  destruct f as [|f]; [lia|].
  destruct xs as [|y ys].
  - simpl in Hlen |- *. rewrite length_app in Hlen. simpl in Hlen. cbn [parse_items].
    rewrite (Hx Hok1 f (c_rbrack :: rest)); [|lia|reflexivity].
    reflexivity.
  - change (join [c_comma] (map stringify_l (x :: y :: ys))) with
      (stringify_l x ++ [c_comma] ++ join [c_comma] (map stringify_l (y :: ys))) in Hlen |- *.
    rewrite <- !app_assoc. cbn [app]. cbn [parse_items].
    rewrite !length_app in Hlen. rewrite E0 in Hlen. cbn [length] in Hlen.
    rewrite (Hx Hok1 f); [|rewrite E0; cbn [length]; lia|reflexivity].
    rewrite skip_ws_head by reflexivity. change (ascii_eqb c_comma c_comma) with true. cbv iota beta.
    rewrite (IH (x :: acc) f); [|discriminate|exact HP|exact Hok2|rewrite length_app; cbn [length]; lia].
    simpl. rewrite <- app_assoc. reflexivity.
Qed.

Lemma members_ok (kv : list (string * json)) (acc : list (string * json)) (f : nat) (rest : list ascii) :
  kv <> [] -> Forall (fun p => json_ok p.2 = true -> value_ok p.2) kv ->
  forallb (fun '(_, x) => json_ok x) kv = true ->
  length (join [c_comma] (map member_l kv) ++ [c_rbrace]) < f ->
  parse_members f (join [c_comma] (map member_l kv) ++ c_rbrace :: rest) acc = Some (JObj (rev acc ++ kv), rest).
Proof.
  revert acc f. induction kv as [|[k x] kv IH]; intros acc f Hne HP Hok Hlen; [congruence|].
  apply Forall_cons in HP as [Hx HP]. simpl in Hok. apply andb_true_iff in Hok as [Hok1 Hok2].
  cbn [snd] in Hx.
  destruct f as [|f]; [lia|].
  set (J := join [c_comma] (map member_l kv)).
  assert (Hm : forall tail, member_l (k, x) ++ tail =
    c_quote :: flat_map escape_char (chars k) ++ c_quote :: c_colon :: stringify_l x ++ tail).
  { intros tail. unfold member_l, quote. cbn [app]. rewrite <- !app_assoc. reflexivity. }
  assert (Hml : length (member_l (k, x)) = S (length (flat_map escape_char (chars k))) + 2 + length (stringify_l x)).
  { unfold member_l, quote. cbn [length]. rewrite !length_app. cbn [length]. rewrite length_app. cbn [length]. lia. }
  destruct kv as [|q kv'].
  - change (join [c_comma] (map member_l [(k, x)])) with (member_l (k, x)) in Hlen |- *.
    rewrite length_app, Hml in Hlen. cbn [length] in Hlen.
    rewrite Hm. cbn [parse_members]. rewrite skip_ws_head by reflexivity.
    change (ascii_eqb c_quote c_quote) with true. cbv iota beta.
    rewrite parse_str_quote. cbn [rev app]. rewrite str_chars.
    rewrite skip_ws_head by reflexivity. change (ascii_eqb c_colon c_colon) with true. cbv iota beta.
    rewrite (Hx Hok1 f (c_rbrace :: rest)); [|lia|reflexivity].
    reflexivity.
  - change (join [c_comma] (map member_l ((k, x) :: q :: kv'))) with
      (member_l (k, x) ++ [c_comma] ++ J) in Hlen |- *.
    rewrite !length_app, Hml in Hlen. cbn [length] in Hlen.
    rewrite <- !app_assoc, Hm. cbn [app parse_members]. rewrite skip_ws_head by reflexivity.
    change (ascii_eqb c_quote c_quote) with true. cbv iota beta.
    rewrite parse_str_quote. cbn [rev app]. rewrite str_chars.
    rewrite skip_ws_head by reflexivity. change (ascii_eqb c_colon c_colon) with true. cbv iota beta.
    rewrite (Hx Hok1 f); [|lia|reflexivity].
    rewrite skip_ws_head by reflexivity. change (ascii_eqb c_comma c_comma) with true. cbv iota beta.
    unfold J in *. rewrite (IH ((k, x) :: acc) f); [|discriminate|exact HP|exact Hok2|rewrite length_app; cbn [length]; lia].
    simpl. rewrite <- app_assoc. reflexivity.
Qed.

Lemma parse_value_stringify (v : json) : json_ok v = true -> value_ok v.
Proof.
  induction v as [| b | n | s | xs HP | kv HP] using json_ind'; intros Hok f rest Hlen Hs;
    (destruct f as [|f]; [lia|]).
  - reflexivity.
  - destruct b; reflexivity.
  - exact (parse_value_num f n rest Hok Hs).
  - unfold stringify_l, quote. cbn [app parse_value]. rewrite skip_ws_head by reflexivity.
    cbv iota beta. change (Nat.eqb (nat_of_ascii c_quote) 110) with false.
    change (Nat.eqb (nat_of_ascii c_quote) 116) with false.
    change (Nat.eqb (nat_of_ascii c_quote) 102) with false.
    change (Nat.eqb (nat_of_ascii c_quote) 34) with true. cbv iota beta.
    rewrite <- app_assoc. cbn [app]. rewrite parse_str_quote. cbn [rev app]. rewrite str_chars. reflexivity.
  - simpl in Hok. change (stringify_l (JArr xs)) with (c_lbrack :: join [c_comma] (map stringify_l xs) ++ [c_rbrack]) in Hlen |- *.
    cbn [length] in Hlen. cbn [app]. rewrite <- app_assoc. cbn [parse_value].
    rewrite skip_ws_head by reflexivity. cbv iota beta.
    change (Nat.eqb (nat_of_ascii c_lbrack) 110) with false.
    change (Nat.eqb (nat_of_ascii c_lbrack) 116) with false.
    change (Nat.eqb (nat_of_ascii c_lbrack) 102) with false.
    change (Nat.eqb (nat_of_ascii c_lbrack) 34) with false.
    change (Nat.eqb (nat_of_ascii c_lbrack) 91) with true. cbv iota beta.
    destruct xs as [|x xs'].
    + reflexivity.
    + set (L := join [c_comma] (map stringify_l (x :: xs'))).
      assert (HL : exists t, L = stringify_l x ++ t).
      { destruct xs'; [exists []; rewrite app_nil_r; reflexivity|eexists; reflexivity]. }
      destruct HL as [t Et]. cbn [app].
      assert (Hh : head_ok (L ++ c_rbrack :: rest)).
      { rewrite Et, <- app_assoc. apply head_ok_app, stringify_head.
        simpl in Hok. apply andb_true_iff in Hok. apply Hok. }
      destruct Hh as (c & t' & Ec & Hc1 & Hc2).
      rewrite Ec, skip_ws_head by exact Hc1. rewrite Hc2. cbv iota beta. rewrite <- Ec.
      unfold L. rewrite (items_ok (x :: xs') [] f rest); [reflexivity|discriminate|exact HP|exact Hok|lia].
  - simpl in Hok. change (stringify_l (JObj kv)) with (c_lbrace :: join [c_comma] (map member_l kv) ++ [c_rbrace]) in Hlen |- *.
    cbn [length] in Hlen. cbn [app]. rewrite <- app_assoc. cbn [parse_value].
    rewrite skip_ws_head by reflexivity. cbv iota beta.
    change (Nat.eqb (nat_of_ascii c_lbrace) 110) with false.
    change (Nat.eqb (nat_of_ascii c_lbrace) 116) with false.
    change (Nat.eqb (nat_of_ascii c_lbrace) 102) with false.
    change (Nat.eqb (nat_of_ascii c_lbrace) 34) with false.
    change (Nat.eqb (nat_of_ascii c_lbrace) 91) with false.
    change (Nat.eqb (nat_of_ascii c_lbrace) 123) with true. cbv iota beta.
    destruct kv as [|[k x] kv'].
    + reflexivity.
    + set (L := join [c_comma] (map member_l ((k, x) :: kv'))).
      assert (HL : exists t, L = c_quote :: t).
      { destruct kv'; eexists; reflexivity. }
      destruct HL as [t Et]. cbn [app]. rewrite Et. cbn [app].
      rewrite skip_ws_head by reflexivity. change (ascii_eqb c_quote c_rbrace) with false. cbv iota beta.
      change (c_quote :: t ++ c_rbrace :: rest) with ((c_quote :: t) ++ c_rbrace :: rest). rewrite <- Et.
      unfold L. rewrite (members_ok ((k, x) :: kv') [] f rest); [reflexivity|discriminate|exact HP|exact Hok|lia].
Qed.

Lemma parse_stringify (v : json) : json_ok v = true -> parse (stringify v) = Some v.
Proof.
  intros Hok. unfold parse, stringify. rewrite chars_str.
  pose proof (parse_value_stringify v Hok (S (length (stringify_l v))) [] ltac:(lia) eq_refl) as E.
  rewrite app_nil_r in E. rewrite E. reflexivity.
Qed.

(** Pretty printing. *)
Lemma skip_ws_app (w l : list ascii) : forallb is_json_space w = true -> skip_ws (w ++ l) = skip_ws l.
Proof.
  induction w as [|c w IH]; intros H; [reflexivity|]. simpl in H. apply andb_true_iff in H as [H1 H2].
  unfold skip_ws in *. simpl. rewrite H1. auto.
Qed.

Lemma parse_value_ws (f : nat) (w l : list ascii) : forallb is_json_space w = true ->
  parse_value (S f) (w ++ l) = parse_value (S f) l.
Proof. intros H. cbn [parse_value]. rewrite skip_ws_app by exact H. reflexivity. Qed.

Lemma parse_value_sp (f : nat) (c : ascii) (l : list ascii) : is_json_space c = true ->
  parse_value (S f) (c :: l) = parse_value (S f) l.
Proof. intros H. apply (parse_value_ws f [c] l). simpl. rewrite H. reflexivity. Qed.

Lemma parse_members_ws (f : nat) (w l : list ascii) acc : forallb is_json_space w = true ->
  parse_members (S f) (w ++ l) acc = parse_members (S f) l acc.
Proof. intros H. cbn [parse_members]. rewrite skip_ws_app by exact H. reflexivity. Qed.

Lemma parse_items_S (f : nat) (l : list ascii) (acc : list json) :
  parse_items (S f) l acc =
  match parse_value f l with
  | None => None
  | Some (v, r) =>
      match skip_ws r with
      | c :: r' =>
          if ascii_eqb c c_comma then parse_items f r' (v :: acc)
          else if ascii_eqb c c_rbrack then Some (JArr (rev (v :: acc)), r')
          else None
      | [] => None
      end
  end.
Proof. reflexivity. Qed.

Lemma stringify_pretty_head (ind : list ascii) (v : json) : json_ok v = true -> head_ok (stringify_pretty_l ind v).
Proof.
  intros H. destruct v as [| | | |[|x xs]|[|p kv]];
    try (eexists _, _; split; [reflexivity|split; reflexivity]); apply stringify_head, H.
Qed.

Lemma ws_indent (ind : list ascii) : forallb is_json_space ind = true ->
  forallb is_json_space (ind ++ [c_space; c_space]) = true.
Proof. intros H. rewrite forallb_app, H. reflexivity. Qed.

Ltac len H := repeat (rewrite length_app in H || cbn [length] in H); try (repeat (rewrite length_app || cbn [length])).

Lemma pitems_ok (ind : list ascii) (xs acc : list json) (f : nat) (w rest : list ascii) :
  forallb is_json_space ind = true -> forallb is_json_space w = true ->
  xs <> [] -> Forall (fun x => json_ok x = true -> pvalue_ok x) xs -> forallb json_ok xs = true ->
  length (w ++ join ([c_comma; c_nl] ++ ind ++ [c_space; c_space])
            (map (stringify_pretty_l (ind ++ [c_space; c_space])) xs) ++ c_nl :: ind ++ [c_rbrack]) < f ->
  parse_items f (w ++ join ([c_comma; c_nl] ++ ind ++ [c_space; c_space])
            (map (stringify_pretty_l (ind ++ [c_space; c_space])) xs) ++ c_nl :: ind ++ c_rbrack :: rest) acc
  = Some (JArr (rev acc ++ xs), rest).
Proof.
  intros Hind. set (I := ind ++ [c_space; c_space]). assert (HI : forallb is_json_space I = true) by (apply ws_indent, Hind).
  revert acc f w. induction xs as [|x xs IH]; intros acc f w Hw Hne HP Hok Hlen; [congruence|].
  apply Forall_cons in HP as [Hx HP]. simpl in Hok. apply andb_true_iff in Hok as [Hok1 Hok2].
  destruct (stringify_pretty_head I x Hok1) as (c0 & t0 & E0 & _).
  destruct f as [|[|f]]; [lia| |].
  { destruct xs as [|y ys].
    - change (join _ (map _ [x])) with (stringify_pretty_l I x) in Hlen. rewrite E0 in Hlen. len Hlen. lia.
    - change (join _ (map _ (x :: y :: ys))) with
        (stringify_pretty_l I x ++ ([c_comma; c_nl] ++ I) ++ join ([c_comma; c_nl] ++ I) (map (stringify_pretty_l I) (y :: ys))) in Hlen.
      rewrite E0 in Hlen. len Hlen. lia. }
  destruct xs as [|y ys].
  - change (join _ (map _ [x])) with (stringify_pretty_l I x) in Hlen |- *.
    rewrite parse_items_S. rewrite parse_value_ws by exact Hw.
    rewrite (Hx Hok1 I (S f) (c_nl :: ind ++ c_rbrack :: rest)); [|exact HI|len Hlen; lia|reflexivity].
    change (c_nl :: ind ++ c_rbrack :: rest) with ((c_nl :: ind) ++ c_rbrack :: rest).
    rewrite (skip_ws_app (c_nl :: ind)) by (simpl; exact Hind).
    rewrite skip_ws_head by reflexivity.
    change (ascii_eqb c_rbrack c_comma) with false. change (ascii_eqb c_rbrack c_rbrack) with true.
    cbv iota beta. reflexivity.
  - set (J := join ([c_comma; c_nl] ++ I) (map (stringify_pretty_l I) (y :: ys))).
    change (join _ (map _ (x :: y :: ys))) with
      (stringify_pretty_l I x ++ ([c_comma; c_nl] ++ I) ++ J) in Hlen |- *.
    rewrite <- !app_assoc. rewrite parse_items_S. rewrite parse_value_ws by exact Hw.
    rewrite E0 in Hlen. len Hlen.
    rewrite (Hx Hok1 I (S f)); [|exact HI|rewrite E0; cbn [length]; lia|reflexivity].
    cbn [app]. rewrite skip_ws_head by reflexivity. change (ascii_eqb c_comma c_comma) with true. cbv iota beta.
    unfold J in *.
    pose proof (IH (x :: acc) (S f) (c_nl :: I) ltac:(simpl; exact HI) ltac:(discriminate) HP Hok2) as IH'.
    change (c_nl :: I ++ ?X) with ((c_nl :: I) ++ X).
    rewrite IH'; [|repeat (rewrite length_app || cbn [length]); lia].
    simpl. rewrite <- app_assoc. reflexivity.
Qed.

Lemma parse_members_S (f : nat) (l : list ascii) (acc : list (string * json)) :
  parse_members (S f) l acc =
  match skip_ws l with
  | c :: r =>
      if ascii_eqb c c_quote then
        match parse_str r [] with
        | None => None
        | Some (k, r1) =>
            match skip_ws r1 with
            | c1 :: r2 =>
                if ascii_eqb c1 c_colon then
                  match parse_value f r2 with
                  | None => None
                  | Some (v, r3) =>
                      match skip_ws r3 with
                      | c3 :: r4 =>
                          if ascii_eqb c3 c_comma then parse_members f r4 ((k, v) :: acc)
                          else if ascii_eqb c3 c_rbrace then Some (JObj (rev ((k, v) :: acc)), r4)
                          else None
                      | [] => None
                      end
                  end
                else None
            | [] => None
            end
        end
      else None
  | [] => None
  end.
Proof. reflexivity. Qed.

Lemma pmembers_ok (ind : list ascii) (kv acc : list (string * json)) (f : nat) (w rest : list ascii) :
  forallb is_json_space ind = true -> forallb is_json_space w = true ->
  kv <> [] -> Forall (fun p => json_ok p.2 = true -> pvalue_ok p.2) kv ->
  forallb (fun '(_, x) => json_ok x) kv = true ->
  length (w ++ join ([c_comma; c_nl] ++ ind ++ [c_space; c_space])
            (map (pmember_l (ind ++ [c_space; c_space])) kv) ++ c_nl :: ind ++ [c_rbrace]) < f ->
  parse_members f (w ++ join ([c_comma; c_nl] ++ ind ++ [c_space; c_space])
            (map (pmember_l (ind ++ [c_space; c_space])) kv) ++ c_nl :: ind ++ c_rbrace :: rest) acc
  = Some (JObj (rev acc ++ kv), rest).
Proof.
  intros Hind. set (I := ind ++ [c_space; c_space]). assert (HI : forallb is_json_space I = true) by (apply ws_indent, Hind).
  revert acc f w. induction kv as [|[k x] kv IH]; intros acc f w Hw Hne HP Hok Hlen; [congruence|].
  apply Forall_cons in HP as [Hx HP]. simpl in Hok. apply andb_true_iff in Hok as [Hok1 Hok2].
  cbn [snd] in Hx.
  assert (Hm : forall tail, pmember_l I (k, x) ++ tail =
    c_quote :: flat_map escape_char (chars k) ++ c_quote :: c_colon :: [c_space] ++ stringify_pretty_l I x ++ tail).
  { intros tail. unfold pmember_l, quote. cbn [app]. rewrite <- !app_assoc. reflexivity. }
  destruct (stringify_pretty_head I x Hok1) as (c0 & t0 & E0 & _).
  assert (Hml : length (pmember_l I (k, x)) = S (length (flat_map escape_char (chars k))) + 4 + length t0).
  { unfold pmember_l, quote. rewrite E0. repeat (rewrite length_app || cbn [length]). lia. }
  destruct f as [|[|f]]; [lia| |].
  { destruct kv as [|q kv'].
    - change (join _ (map _ [(k, x)])) with (pmember_l I (k, x)) in Hlen. len Hlen. lia.
    - change (join _ (map _ ((k, x) :: q :: kv'))) with
        (pmember_l I (k, x) ++ ([c_comma; c_nl] ++ I) ++ join ([c_comma; c_nl] ++ I) (map (pmember_l I) (q :: kv'))) in Hlen.
      len Hlen. lia. }
  destruct kv as [|q kv'].
  - change (join _ (map _ [(k, x)])) with (pmember_l I (k, x)) in Hlen |- *.
    len Hlen.
    rewrite parse_members_ws by exact Hw. rewrite Hm, parse_members_S, skip_ws_head by reflexivity.
    change (ascii_eqb c_quote c_quote) with true. cbv iota beta.
    rewrite parse_str_quote. cbn [rev app]. rewrite str_chars.
    rewrite skip_ws_head by reflexivity. change (ascii_eqb c_colon c_colon) with true. cbv iota beta.
    rewrite parse_value_sp by reflexivity.
    rewrite (Hx Hok1 I (S f) (c_nl :: ind ++ c_rbrace :: rest)); [|exact HI|rewrite E0; cbn [length]; lia|reflexivity].
    change (c_nl :: ind ++ c_rbrace :: rest) with ((c_nl :: ind) ++ c_rbrace :: rest).
    rewrite (skip_ws_app (c_nl :: ind)) by (simpl; exact Hind).
    rewrite skip_ws_head by reflexivity.
    change (ascii_eqb c_rbrace c_comma) with false. change (ascii_eqb c_rbrace c_rbrace) with true.
    cbv iota beta. reflexivity.
  - set (J := join ([c_comma; c_nl] ++ I) (map (pmember_l I) (q :: kv'))).
    change (join _ (map _ ((k, x) :: q :: kv'))) with
      (pmember_l I (k, x) ++ ([c_comma; c_nl] ++ I) ++ J) in Hlen |- *.
    len Hlen.
    rewrite parse_members_ws by exact Hw. rewrite <- !app_assoc.
    rewrite Hm, parse_members_S, skip_ws_head by reflexivity.
    change (ascii_eqb c_quote c_quote) with true. cbv iota beta.
    rewrite parse_str_quote. cbn [rev app]. rewrite str_chars.
    rewrite skip_ws_head by reflexivity. change (ascii_eqb c_colon c_colon) with true. cbv iota beta.
    rewrite parse_value_sp by reflexivity.
    rewrite (Hx Hok1 I (S f)); [|exact HI|rewrite E0; cbn [length]; lia|reflexivity].
    cbn [app]. rewrite skip_ws_head by reflexivity. change (ascii_eqb c_comma c_comma) with true. cbv iota beta.
    unfold J in *.
    pose proof (IH ((k, x) :: acc) (S f) (c_nl :: I) ltac:(simpl; exact HI) ltac:(discriminate) HP Hok2) as IH'.
    change (c_nl :: I ++ ?X) with ((c_nl :: I) ++ X).
    rewrite IH'; [|repeat (rewrite length_app || cbn [length]); lia].
    simpl. rewrite <- app_assoc. reflexivity.
Qed.

Lemma parse_value_stringify_pretty (v : json) : json_ok v = true -> pvalue_ok v.
Proof.
  induction v as [| b | n | s | xs HP | kv HP] using json_ind'; intros Hok ind f rest Hind Hlen Hs;
    (destruct f as [|f]; [lia|]).
  - reflexivity.
  - destruct b; reflexivity.
  - exact (parse_value_num f n rest Hok Hs).
  - exact (parse_value_stringify (JStr s) Hok (S f) rest Hlen Hs).
  - simpl in Hok. destruct xs as [|x xs'].
    + reflexivity.
    + set (I := ind ++ [c_space; c_space]).
      set (L := join ([c_comma; c_nl] ++ I) (map (stringify_pretty_l I) (x :: xs'))).
      change (stringify_pretty_l ind (JArr (x :: xs'))) with
        (c_lbrack :: (c_nl :: I) ++ L ++ c_nl :: ind ++ [c_rbrack]) in Hlen |- *.
      cbn [length] in Hlen. cbn [app]. rewrite <- !app_assoc. cbn [app parse_value].
      rewrite skip_ws_head by reflexivity. cbv iota beta.
      change (Nat.eqb (nat_of_ascii c_lbrack) 110) with false.
      change (Nat.eqb (nat_of_ascii c_lbrack) 116) with false.
      change (Nat.eqb (nat_of_ascii c_lbrack) 102) with false.
      change (Nat.eqb (nat_of_ascii c_lbrack) 34) with false.
      change (Nat.eqb (nat_of_ascii c_lbrack) 91) with true. cbv iota beta.
      rewrite <- !app_assoc. cbn [app].
      assert (HL : exists t, L = stringify_pretty_l I x ++ t).
      { destruct xs'; [exists []; rewrite app_nil_r; reflexivity|eexists; reflexivity]. }
      destruct HL as [t Et].
      assert (Hh : head_ok (L ++ c_nl :: ind ++ c_rbrack :: rest)).
      { rewrite Et, <- app_assoc. apply head_ok_app, stringify_pretty_head.
        apply andb_true_iff in Hok. apply Hok. }
      change (c_nl :: I ++ L ++ c_nl :: ind ++ c_rbrack :: rest) with
        ((c_nl :: I) ++ L ++ c_nl :: ind ++ c_rbrack :: rest).
      rewrite skip_ws_app by (simpl; apply ws_indent, Hind).
      destruct Hh as (c & t' & Ec & Hc1 & Hc2).
      rewrite Ec, skip_ws_head by exact Hc1. rewrite Hc2. cbv iota beta. rewrite <- Ec.
      unfold L, I. rewrite (pitems_ok ind (x :: xs') [] f (c_nl :: ind ++ [c_space; c_space]) rest);
        [reflexivity|exact Hind|simpl; apply ws_indent, Hind|discriminate|exact HP|exact Hok|].
      revert Hlen. unfold L, I. repeat (rewrite length_app || cbn [length]). lia.
  - simpl in Hok. destruct kv as [|[k x] kv'].
    + reflexivity.
    + set (I := ind ++ [c_space; c_space]).
      set (L := join ([c_comma; c_nl] ++ I) (map (pmember_l I) ((k, x) :: kv'))).
      change (stringify_pretty_l ind (JObj ((k, x) :: kv'))) with
        (c_lbrace :: (c_nl :: I) ++ L ++ c_nl :: ind ++ [c_rbrace]) in Hlen |- *.
      cbn [length] in Hlen. cbn [app]. rewrite <- !app_assoc. cbn [app parse_value].
      rewrite skip_ws_head by reflexivity. cbv iota beta.
      change (Nat.eqb (nat_of_ascii c_lbrace) 110) with false.
      change (Nat.eqb (nat_of_ascii c_lbrace) 116) with false.
      change (Nat.eqb (nat_of_ascii c_lbrace) 102) with false.
      change (Nat.eqb (nat_of_ascii c_lbrace) 34) with false.
      change (Nat.eqb (nat_of_ascii c_lbrace) 91) with false.
      change (Nat.eqb (nat_of_ascii c_lbrace) 123) with true. cbv iota beta.
      rewrite <- !app_assoc. cbn [app].
      assert (HL : exists t, L = c_quote :: t).
      { destruct kv'; eexists; reflexivity. }
      destruct HL as [t Et].
      change (c_nl :: I ++ L ++ c_nl :: ind ++ c_rbrace :: rest) with
        ((c_nl :: I) ++ L ++ c_nl :: ind ++ c_rbrace :: rest).
      rewrite skip_ws_app by (simpl; apply ws_indent, Hind).
      assert (Hq : L ++ c_nl :: ind ++ c_rbrace :: rest = c_quote :: (t ++ c_nl :: ind ++ c_rbrace :: rest))
        by (rewrite Et; reflexivity).
      rewrite Hq at 1. rewrite skip_ws_head by reflexivity.
      change (ascii_eqb c_quote c_rbrace) with false. cbv iota beta.
      unfold L, I. rewrite (pmembers_ok ind ((k, x) :: kv') [] f (c_nl :: ind ++ [c_space; c_space]) rest);
        [reflexivity|exact Hind|simpl; apply ws_indent, Hind|discriminate|exact HP|exact Hok|].
      revert Hlen. unfold L, I. repeat (rewrite length_app || cbn [length]). lia.
Qed.

Lemma parse_stringify_pretty (v : json) : json_ok v = true -> parse (stringify_pretty v) = Some v.
Proof.
  intros Hok. unfold parse, stringify_pretty. rewrite chars_str.
  pose proof (parse_value_stringify_pretty v Hok [] (S (length (stringify_pretty_l [] v))) [] eq_refl ltac:(lia) eq_refl) as E.
  rewrite app_nil_r in E. rewrite E. reflexivity.
Qed.

Lemma mkdir_p_coder (d : disk) :
  mkdir_p d ".coder" = match d !! ".coder" with
                    | Some EDir => Ok d | Some (EFile _) => Err "EEXIST"
                    | None => Ok (<[".coder" := EDir]> d) end.
Proof. unfold mkdir_p. change (prefixes ".coder") with [".coder"]. simpl. destruct (d !! ".coder") as [[]|]; reflexivity. Qed.

Lemma resolve_coder (d : disk) :
  resolve d ".coder" = match d !! ".coder" with
                    | Some EDir => Ok tt | Some (EFile _) => Err "ENOTDIR"
                    | None => Err "ENOENT" end.
Proof. unfold resolve. change (prefixes ".coder") with [".coder"]. simpl. destruct (d !! ".coder") as [[]|]; reflexivity. Qed.

(** X1: a transcript of integer-numbered JSON values written by the
    [write-chat-history] handler is read back unchanged by
    [read-chat-history], when [.coder] is not a file and [.coder/chat.json]
    is not a directory. *)
Theorem chat_history_round_trip (m : main_state) (h : list json) :
  json_ok (JArr h) = true ->
  (forall c, fs m !! ".coder" <> Some (EFile c)) ->
  fs m !! chat_history_path <> Some EDir ->
  read_chat_history_handler (write_chat_history_handler m (JArr h)).1 = JArr h.
Proof.
  intros Hok Hc Hp. unfold write_chat_history_handler. rewrite mkdir_p_coder.
  assert (Hw : forall d1, d1 !! ".coder" = Some EDir -> d1 !! chat_history_path = fs m !! chat_history_path ->
    exists d2, Fs.write_file d1 chat_history_path (stringify_pretty (JArr h)) = Ok d2 /\
               d2 !! ".coder" = Some EDir /\
               d2 !! chat_history_path = Some (EFile (stringify_pretty (JArr h)))).
  { intros d1 H1 H2. unfold Fs.write_file. change (dirname chat_history_path) with ".coder".
    rewrite resolve_coder, H1, H2.
    destruct (fs m !! chat_history_path) as [[]|]; [|congruence|];
      (eexists; split; [reflexivity|split; [rewrite lookup_insert_ne by discriminate; exact H1|apply lookup_insert_eq]]). }
  assert (Hr : forall d2, d2 !! ".coder" = Some EDir ->
    d2 !! chat_history_path = Some (EFile (stringify_pretty (JArr h))) ->
    read_chat_history_handler (with_fs m d2) = JArr h).
  { intros d2 E1 E. unfold read_chat_history_handler, read_file. cbn [fs with_fs].
    change (String.eqb chat_history_path "") with false. cbv iota.
    change (dirname chat_history_path) with ".coder". rewrite resolve_coder, E1, E.
    cbn -[stringify_pretty parse]. rewrite parse_stringify_pretty by exact Hok. reflexivity. }
  destruct (fs m !! ".coder") as [[c|]|] eqn:E.
  - exfalso. exact (Hc c eq_refl).
  - destruct (Hw (fs m) E eq_refl) as (d2 & -> & E1 & E2). apply Hr; assumption.
  - destruct (Hw (<[".coder" := EDir]> (fs m))) as (d2 & -> & E1 & E2).
    + apply lookup_insert_eq.
    + apply lookup_insert_ne. discriminate.
    + apply Hr; assumption.
Qed.

Lemma chat_history_round_trip_witness :
  json_ok (JArr [c2_response]) = true /\
  read_chat_history_handler (write_chat_history_handler (init disk_two_files) (JArr [c2_response])).1 =
  JArr [c2_response].
Proof.
  split; [vm_compute; reflexivity|].
  apply chat_history_round_trip; [vm_compute; reflexivity|intros c; vm_compute; discriminate|vm_compute; discriminate].
Defined.

Lemma last_index_of_from_snoc (c : ascii) (l : list ascii) (i : nat) (acc : option nat) :
  last_index_of_from c (l ++ [c]) i acc = Some (i + length l).
Proof.
  revert i acc. induction l as [|x l IH]; intros i acc; simpl.
  - unfold ascii_eqb. destruct (ascii_dec c c); [f_equal; lia|congruence].
  - rewrite IH. f_equal. lia.
Qed.

Lemma stringify_obj_shape (kv : list (string * json)) :
  exists x, stringify_l (JObj kv) = c_lbrace :: x ++ [c_rbrace].
Proof. eexists. reflexivity. Qed.

Lemma trim_braced (x : list ascii) : trim (str (c_lbrace :: x ++ [c_rbrace])) = str (c_lbrace :: x ++ [c_rbrace]).
Proof.
  unfold trim. rewrite chars_str. cbn [drop_while]. change (is_js_space c_lbrace) with false. cbv iota.
  assert (E : rev (c_lbrace :: x ++ [c_rbrace]) = c_rbrace :: rev (c_lbrace :: x)).
  { change (c_lbrace :: x ++ [c_rbrace]) with ((c_lbrace :: x) ++ [c_rbrace]). apply rev_unit. }
  rewrite E. cbn [drop_while]. change (is_js_space c_rbrace) with false. cbv iota. rewrite <- E.
  rewrite rev_involutive. reflexivity.
Qed.

(** X2: [parseAIResponse] accepts the compact serialisation of a response
    object with an array [files] and a string [readmeContent], and returns
    that object, when the text holds no [<json>] tag and no code fence. *)
Theorem parseAIResponse_stringify (v : json) :
  json_ok v = true -> is_array (get v "files") = true -> typeof_string (get v "readmeContent") = true ->
  index_of Parse.tag_start (stringify_l v) = None -> Parse.occurrences Parse.fence (stringify_l v) = [] ->
  Parse.parseAIResponse (Some (stringify v)) = Ok v.
Proof.
  intros Hok Hf Hr Htag Hfence.
  destruct v as [| | | | |kv]; try discriminate.
  destruct (stringify_obj_shape kv) as [x Ex].
  pose proof (parse_stringify (JObj kv) Hok) as Hp.
  unfold Parse.parseAIResponse.
  unfold stringify in Hp |- *. rewrite Ex in Htag, Hfence, Hp |- *.
  change (String.eqb (str (c_lbrace :: x ++ [c_rbrace])) "") with false. cbv iota.
  rewrite trim_braced, chars_str.
  unfold Parse.match_tags. rewrite Htag.
  unfold Parse.match_fence. rewrite Hfence. cbn [Parse.first_some].
  change (index_of [c_lbrace] (c_lbrace :: x ++ [c_rbrace])) with (Some 0).
  change (c_lbrace :: x ++ [c_rbrace]) with ((c_lbrace :: x) ++ [c_rbrace]).
  unfold last_index_of. rewrite last_index_of_from_snoc. cbn [length Nat.add].
  change (Nat.ltb 0 (S (length x))) with true. cbv iota beta.
  unfold substring. rewrite Nat.sub_0_r, drop_0.
  rewrite take_ge by (rewrite length_app; cbn [length]; lia).
  cbn [app] in Hp |- *. rewrite Hp. cbn iota.
  cbn [Parse.truthy Parse.typeof_object]. rewrite Hf, Hr. reflexivity.
Qed.

Lemma parseAIResponse_stringify_witness :
  Parse.parseAIResponse (Some (stringify c2_response)) = Ok c2_response.
Proof. apply parseAIResponse_stringify; vm_compute; reflexivity. Defined.

(** X3: [parseOllamaResponse] accepts the serialisation of a response whose
    [files] entries all have string [fileName] and [code] and whose
    [readmeContent] is a string, and returns that response. *)
Theorem parseOllamaResponse_stringify (v : json) (files : list json) :
  json_ok v = true -> get v "files" = Some (JArr files) -> forallb Parse.file_ok files = true ->
  typeof_string (get v "readmeContent") = true ->
  Parse.parseOllamaResponse (Some (stringify v)) = Ok v.
Proof.
  intros Hok Hf Hfs Hr.
  destruct v as [| | | | |kv]; try discriminate.
  destruct (stringify_obj_shape kv) as [x Ex].
  pose proof (parse_stringify (JObj kv) Hok) as Hp.
  unfold Parse.parseOllamaResponse.
  assert (Hne : String.eqb (stringify (JObj kv)) "" = false) by (unfold stringify; rewrite Ex; reflexivity).
  rewrite Hne, Hp, Hf. cbn [Parse.truthy]. rewrite Hr, Hfs. reflexivity.
Qed.

Lemma parseOllamaResponse_stringify_witness :
  Parse.parseOllamaResponse (Some (stringify c2_response)) = Ok c2_response.
Proof.
  apply (parseOllamaResponse_stringify c2_response [c2_file "src/a.ts" "A"; c2_file "src/b.ts" "B"]);
    vm_compute; reflexivity.
Defined.

(** X4: whatever [parseOllamaResponse] returns has an array [files] of
    entries with string [fileName] and [code], and a string
    [readmeContent]. *)
Theorem parseOllamaResponse_sound (t : option string) (v : json) :
  Parse.parseOllamaResponse t = Ok v ->
  exists files, get v "files" = Some (JArr files) /\ forallb Parse.file_ok files = true /\
                typeof_string (get v "readmeContent") = true.
Proof.
  unfold Parse.parseOllamaResponse. destruct t as [t|]; [|discriminate].
  destruct (String.eqb t ""); [discriminate|].
  destruct (parse t) as [p|]; [|discriminate].
  destruct (get p "files") as [[| | | |fs0|]|] eqn:Ef; try discriminate.
  destruct (Parse.truthy p && typeof_string (get p "readmeContent") && forallb Parse.file_ok fs0)%bool eqn:Ec;
    [|discriminate].
  intros E. inversion E; subst. exists fs0.
  apply andb_true_iff in Ec as [Ec1 Ec2]. apply andb_true_iff in Ec1 as [_ Ec1]. auto.
Qed.

Lemma parseOllamaResponse_sound_witness :
  exists files, get c2_response "files" = Some (JArr files) /\ forallb Parse.file_ok files = true /\
                typeof_string (get c2_response "readmeContent") = true.
Proof. apply (parseOllamaResponse_sound (Some (stringify c2_response))). vm_compute. reflexivity. Defined.

(** X5: Ollama's [sendMessage] sends only the last two history entries:
    history before them does not change the exchange. *)
Theorem sendMessageOllama_last_two (env : backend) (uc : json) (ctx : string) (h1 h2 : list json) :
  2 <= length h2 ->
  sendMessageOllama env uc ctx (h1 ++ h2) = sendMessageOllama env uc ctx h2.
Proof.
  intros H. unfold sendMessageOllama. rewrite length_app, skipn_app.
  rewrite (skipn_all2 h1) by lia. rewrite app_nil_l.
  replace (length h1 + length h2 - 2 - length h1) with (length h2 - 2) by lia. reflexivity.
Qed.

Lemma sendMessageOllama_last_two_witness :
  2 <= length [JStr "q"; JStr "a"] /\
  sendMessageOllama backend_c2 (JStr "u") "" ([JStr "old"] ++ [JStr "q"; JStr "a"]) =
  sendMessageOllama backend_c2 (JStr "u") "" [JStr "q"; JStr "a"].
Proof. split; [cbn; lia|]. apply sendMessageOllama_last_two. cbn. lia. Defined.

Lemma mk_fold_err (p : string) (ps : list string) (e : string) : fold_left (mkdir_step p) ps (Err e) = Err e.
Proof. induction ps; simpl; auto. Qed.

Lemma mk_fold_ok (p : string) (ps : list string) (d d' : disk) :
  fold_left (mkdir_step p) ps (Ok d) = Ok d' ->
  (forall q e, d !! q = Some e -> d' !! q = Some e) /\
  (forall q, q ∈ ps -> d' !! q = Some EDir) /\
  (forall q, q ∉ ps -> d' !! q = d !! q).
Proof.
  revert d. induction ps as [|x ps IH]; intros d H; simpl in H.
  - inversion H; subst. split; [auto|split; [intros q Hq; inversion Hq|auto]].
  - destruct (d !! x) as [[c|]|] eqn:E.
    + destruct (String.eqb x p); rewrite mk_fold_err in H; discriminate.
    + destruct (IH d H) as (H1 & H2 & H3). split; [exact H1|split].
      * intros q Hq. apply elem_of_cons in Hq as [->|Hq]; [apply H1, E|apply H2, Hq].
      * intros q Hq. apply not_elem_of_cons in Hq as [_ Hq]. apply H3, Hq.
    + destruct (IH _ H) as (H1 & H2 & H3). split; [|split].
      * intros q e Hq. apply H1. rewrite lookup_insert_ne; [exact Hq|congruence].
      * intros q Hq. apply elem_of_cons in Hq as [->|Hq]; [apply H1, lookup_insert_eq|apply H2, Hq].
      * intros q Hq. apply not_elem_of_cons in Hq as [Hq1 Hq]. rewrite H3 by exact Hq.
        apply lookup_insert_ne. congruence.
Qed.

Lemma mk_fold_dirs (p : string) (ps : list string) (d : disk) :
  (forall q, q ∈ ps -> d !! q = Some EDir) -> fold_left (mkdir_step p) ps (Ok d) = Ok d.
Proof.
  induction ps as [|x ps IH]; intros H; simpl; [reflexivity|].
  rewrite (H x) by (apply elem_of_cons; left; reflexivity).
  apply IH. intros q Hq. apply H, elem_of_cons. right. exact Hq.
Qed.

Lemma mkdir_p_fold (d : disk) (p : string) :
  mkdir_p d p = if String.eqb p "" then Ok d else fold_left (mkdir_step p) (prefixes p) (Ok d).
Proof. reflexivity. Qed.

Lemma mkdir_p_ok (d d' : disk) (p : string) :
  mkdir_p d p = Ok d' ->
  (forall q e, d !! q = Some e -> d' !! q = Some e) /\
  (forall q, q ∈ prefixes p -> String.eqb p "" = false -> d' !! q = Some EDir) /\
  (forall q, q ∉ prefixes p -> d' !! q = d !! q).
Proof.
  rewrite mkdir_p_fold. destruct (String.eqb p "") eqn:E.
  - intros H. inversion H; subst. split; [auto|split; [discriminate|auto]].
  - intros H. destruct (mk_fold_ok _ _ _ _ H) as (H1 & H2 & H3). auto.
Qed.

Lemma write_file_ok (d d' : disk) (p c : string) :
  Fs.write_file d p c = Ok d' ->
  d' = <[p := EFile c]> d /\ p <> "" /\ resolve d (dirname p) = Ok tt /\ d !! p <> Some EDir.
Proof.
  unfold Fs.write_file. destruct (resolve d (dirname p)) as [[]|e] eqn:R; [|discriminate].
  destruct (d !! p) as [[]|] eqn:Ed; [| discriminate |];
    (destruct (String.eqb p "") eqn:E; [discriminate|]); intros H; inversion H; subst;
    (split; [reflexivity|split; [intros ->; discriminate|split; [reflexivity|congruence]]]).
Qed.

(** A successful [write_file] is read back. *)
Lemma write_file_read (d d' : disk) (p c : string) :
  Fs.write_file d p c = Ok d' -> read_file d' p = Ok c.
Proof.
  intros E. apply write_file_ok in E as (-> & Hp & R & Hd).
  unfold read_file. rewrite (string_eqb_neq _ _ Hp).
  rewrite (resolve_insert_file _ _ _ _ R Hd). rewrite lookup_insert_eq. reflexivity.
Qed.

(** X6: after a successful [write-file], [read-file] of the path returns
    the written content. *)
Theorem write_file_read_back (m : main_state) (p c : string) :
  (write_file_handler m p c).2 = Ok tt ->
  read_file_handler (write_file_handler m p c).1 p = Ok c.
Proof.
  unfold write_file_handler. cbn [fs with_flag].
  destruct (mkdir_p (fs m) (dirname p)) as [d1|e]; [|discriminate].
  destruct (Fs.write_file d1 p c) as [d2|e] eqn:E; [|discriminate]. intros _.
  unfold read_file_handler. cbn. exact (write_file_read _ _ _ _ E).
Qed.

Lemma write_file_read_back_witness :
  read_file_handler (write_file_handler (init disk_two_files) "src/c.ts" "C").1 "src/c.ts" = Ok "C".
Proof. apply write_file_read_back. vm_compute. reflexivity. Defined.



(** X8: [create-file] whose parent directory does not resolve fails with
    the error of the resolution and changes nothing: [ENOENT] when no
    component of the parent path is a regular file, [ENOTDIR] when every
    component exists (so one of them is a regular file). *)
Theorem create_file_no_parent (m : main_state) (p e : string) :
  resolve (fs m) (dirname p) = Err e ->
  create_file_handler m p = (m, Err e) /\
  ((forall q c, q ∈ prefixes (dirname p) -> fs m !! q <> Some (EFile c)) -> e = "ENOENT") /\
  ((forall q, q ∈ prefixes (dirname p) -> fs m !! q <> None) -> e = "ENOTDIR").
Proof.
  intros H. split; [unfold create_file_handler, Fs.write_file; rewrite H; reflexivity|].
  revert H. unfold resolve. destruct (String.eqb (dirname p) ""); [discriminate|].
  intros H. split.
  - intros Hf. destruct (resolve_fold_no_file (fs m) (prefixes (dirname p)) (Ok tt)) as [E|E];
      [left; reflexivity|exact Hf|congruence|congruence].
  - intros Hn. destruct (resolve_fold_no_missing (fs m) (prefixes (dirname p)) (Ok tt)) as [E|E];
      [left; reflexivity|exact Hn|congruence|congruence].
Qed.

Lemma create_file_no_parent_witness :
  resolve (fs (init disk_two_files)) (dirname "src/x.ts") = Err "ENOENT" /\
  create_file_handler (init disk_two_files) "src/x.ts" = (init disk_two_files, Err "ENOENT").
Proof.
  split; [vm_compute; reflexivity|].
  apply (create_file_no_parent (init disk_two_files) "src/x.ts" "ENOENT"). vm_compute. reflexivity.
Defined.

Lemma create_file_reads_empty (m : main_state) (p : string) :
  (create_file_handler m p).2 = Ok tt ->
  read_file_handler (create_file_handler m p).1 p = Ok "".
Proof.
  unfold create_file_handler, lift. destruct (Fs.write_file (fs m) p "") as [d|e] eqn:E; [|discriminate].
  intros _. unfold read_file_handler. cbn. exact (write_file_read _ _ _ _ E).
Qed.

(** X9: after a successful [create-file] the file exists and is empty,
    also when it existed before with other content. *)
Theorem create_file_truncates (m : main_state) (p : string) :
  (create_file_handler m p).2 = Ok tt ->
  read_file_handler (create_file_handler m p).1 p = Ok "".
Proof.
  unfold create_file_handler, lift. destruct (Fs.write_file (fs m) p "") as [d|e] eqn:E; [|discriminate].
  intros _. unfold read_file_handler. cbn. exact (write_file_read _ _ _ _ E).
Qed.

Lemma create_file_truncates_witness :
  read_file_handler (create_file_handler (init disk_two_files) "a.txt").1 "a.txt" = Ok "".
Proof. apply create_file_truncates. vm_compute. reflexivity. Defined.

(** X10: [create-folder] is idempotent: once it succeeded, creating the
    same folder again succeeds and changes nothing. *)
Theorem create_folder_idempotent (m : main_state) (p : string) :
  (create_folder_handler m p).2 = Ok tt ->
  create_folder_handler (create_folder_handler m p).1 p = ((create_folder_handler m p).1, Ok tt).
Proof.
  unfold create_folder_handler, lift. destruct (mkdir_p (fs m) p) as [d|e] eqn:E; [|discriminate].
  intros _. cbn [fs with_fs]. destruct (mkdir_p_ok _ _ _ E) as (_ & H2 & _).
  rewrite mkdir_p_fold. destruct (String.eqb p "") eqn:Ep; [reflexivity|].
  cbn [fst fs with_fs]. rewrite (mk_fold_dirs p (prefixes p) d); [reflexivity|]. intros q Hq. apply H2; [assumption|reflexivity].
Qed.

Lemma create_folder_idempotent_witness :
  create_folder_handler (create_folder_handler (init disk_two_files) "src/lib").1 "src/lib" =
  ((create_folder_handler (init disk_two_files) "src/lib").1, Ok tt).
Proof. apply create_folder_idempotent. vm_compute. reflexivity. Defined.

(** X11: [delete-node] of a path below the project root ([force: true])
    succeeds and removes exactly the node and everything under it, unless
    its parent path runs through a regular file: then the [lstat] fails
    with [ENOTDIR], which [force] does not forgive, and nothing changes.
    The root itself ([relativePath = ""]) is left out: [path.join] maps it
    to the project directory, which the disk model does not hold as an
    entry. *)
Theorem delete_node_removes_subtree (m : main_state) (p : string) :
  p <> "" ->
  (resolve (fs m) (dirname p) <> Err "ENOTDIR" ->
   (delete_node_handler m p).2 = Ok tt /\
   forall q, fs (delete_node_handler m p).1 !! q = if under p q then None else fs m !! q) /\
  (resolve (fs m) (dirname p) = Err "ENOTDIR" -> delete_node_handler m p = (m, Err "ENOTDIR")).
Proof.
  intros _. unfold delete_node_handler, lift, rm_rf.
  assert (Hrm : (Ok tt : result unit) = Ok tt /\
    forall q, filter (fun kv => negb (under p kv.1)) (fs m) !! q = if under p q then None else fs m !! q).
  { split; [reflexivity|]. intros q.
    rewrite map_lookup_filter. destruct (fs m !! q) as [e|]; cbn; destruct (under p q); reflexivity. }
  destruct (resolve_codes (fs m) (dirname p)) as [E|[E|E]]; rewrite E; cbn; split;
    solve [intros _; exact Hrm | intros; reflexivity | congruence].
Qed.

Lemma delete_node_removes_subtree_witness :
  ((delete_node_handler (init disk_two_files) "a.txt").2 = Ok tt /\
   forall q, fs (delete_node_handler (init disk_two_files) "a.txt").1 !! q =
             if under "a.txt" q then None else fs (init disk_two_files) !! q) /\
  delete_node_handler (init disk_two_files) "a.txt/x" = (init disk_two_files, Err "ENOTDIR").
Proof.
  split.
  - apply (proj1 (delete_node_removes_subtree (init disk_two_files) "a.txt" ltac:(discriminate))).
    vm_compute. discriminate.
  - apply (proj2 (delete_node_removes_subtree (init disk_two_files) "a.txt/x" ltac:(discriminate))).
    vm_compute. reflexivity.
Defined.

Lemma chars_app (x y : string) : chars (x +:+ y) = chars x ++ chars y.
Proof. induction x as [|c x IH]; [reflexivity|]. simpl. unfold chars in *. simpl. f_equal. exact IH. Qed.

Lemma ascii_eqb_true (x y : ascii) : ascii_eqb x y = true <-> x = y.
Proof. unfold ascii_eqb. destruct (ascii_dec x y); split; congruence. Qed.

Lemma last_index_of_from_app (c : ascii) (l1 l2 : list ascii) (i : nat) (acc : option nat) :
  last_index_of_from c (l1 ++ l2) i acc = last_index_of_from c l2 (i + length l1) (last_index_of_from c l1 i acc).
Proof.
  revert i acc. induction l1 as [|x l1 IH]; intros i acc; simpl.
  - rewrite Nat.add_0_r. reflexivity.
  - rewrite IH. f_equal. lia.
Qed.

Lemma last_index_of_from_none (c : ascii) (l : list ascii) (i : nat) (acc : option nat) :
  existsb (fun x => ascii_eqb x c) l = false -> last_index_of_from c l i acc = acc.
Proof.
  revert i acc. induction l as [|x l IH]; intros i acc H; simpl in *; [reflexivity|].
  apply orb_false_iff in H as [H1 H2]. rewrite H1. apply IH, H2.
Qed.

Lemma last_index_of_from_some (c : ascii) (l : list ascii) (i : nat) (acc : option nat) :
  existsb (fun x => ascii_eqb x c) l = true -> exists j, last_index_of_from c l i acc = Some j.
Proof.
  revert i acc. induction l as [|x l IH]; intros i acc H; simpl in *; [discriminate|].
  destruct (existsb (fun x => ascii_eqb x c) l) eqn:E.
  - apply IH. reflexivity.
  - rewrite orb_false_r in H. rewrite H, last_index_of_from_none by exact E. eauto.
Qed.

(** [path.join(dir, name)] of a slash-free name has [dir] as its dirname
    and [name] as its basename. *)
Lemma path_join_dirname_basename (d n : string) : no_slash (chars n) = true ->
  dirname (path_join d n) = d /\ basename (path_join d n) = n.
Proof.
  intros Hn. unfold no_slash in Hn. apply negb_true_iff in Hn.
  unfold path_join, dirname, basename, last_index_of, slash.
  destruct (String.eqb d "") eqn:Ed.
  - apply String.eqb_eq in Ed. subst d. rewrite last_index_of_from_none by exact Hn. auto.
  - rewrite !chars_app. change (chars "/") with [c_slash].
    rewrite last_index_of_from_app. cbn [app last_index_of_from].
    change (ascii_eqb c_slash c_slash) with true. cbv iota. rewrite last_index_of_from_none by exact Hn.
    cbn [Nat.add]. split.
    + rewrite take_app_length. apply str_chars.
    + replace (S (length (chars d))) with (length (chars d ++ [c_slash])) by (rewrite length_app; simpl; lia).
      change (chars d ++ c_slash :: chars n) with (chars d ++ [c_slash] ++ chars n).
      rewrite app_assoc, drop_app_length. apply str_chars.
Qed.

Lemma rename_target_path_join (oldPath newName : string) :
  rename_target oldPath newName = path_join (dirname oldPath) newName.
Proof.
  unfold rename_target, path_join, dirname, last_index_of, slash.
  destruct (existsb (fun c => ascii_eqb c c_slash) (chars oldPath)) eqn:E.
  - destruct (last_index_of_from_some c_slash (chars oldPath) 0 None E) as [j Ej]. rewrite Ej.
    unfold substring. rewrite Nat.sub_0_r, drop_0. reflexivity.
  - rewrite last_index_of_from_none by exact E. reflexivity.
Qed.

Lemma split_on_no_sep (c : ascii) (l : list ascii) :
  existsb (fun x => ascii_eqb x c) l = false -> split_on c l = [l].
Proof.
  induction l as [|x l IH]; intros H; [reflexivity|]. simpl in H. apply orb_false_iff in H as [H1 H2].
  simpl. rewrite H1, IH by exact H2. reflexivity.
Qed.

Lemma split_on_nonempty (c : ascii) (l : list ascii) : split_on c l <> [].
Proof.
  induction l as [|x l IH]; simpl; [discriminate|].
  destruct (ascii_eqb x c); [discriminate|]. destruct (split_on c l); [congruence|discriminate].
Qed.

Lemma split_on_pieces (c : ascii) (l : list ascii) :
  Forall (fun w => existsb (fun x => ascii_eqb x c) w = false) (split_on c l).
Proof.
  induction l as [|x l IH]; simpl; [repeat constructor|].
  destruct (ascii_eqb x c) eqn:E; [constructor; [reflexivity|exact IH]|].
  destruct (split_on c l) as [|w ws]; [repeat constructor; simpl; rewrite E; reflexivity|].
  apply Forall_cons in IH as [IH1 IH2]. constructor; [simpl; rewrite E, IH1; reflexivity|exact IH2].
Qed.

Lemma last_index_of_from_shift (c : ascii) (l : list ascii) (i : nat) (acc : option nat) :
  last_index_of_from c l i acc =
  match last_index_of_from c l 0 None with Some j => Some (i + j) | None => acc end.
Proof.
  revert i acc. induction l as [|x l IH]; intros i acc; simpl; [reflexivity|].
  rewrite (IH (S i)), (IH 1). destruct (last_index_of_from c l 0 None) as [j|].
  - f_equal. lia.
  - destruct (ascii_eqb x c); [f_equal; lia|reflexivity].
Qed.

Lemma split_on_app_sep (c : ascii) (l1 l2 : list ascii) :
  split_on c (l1 ++ c :: l2) = split_on c l1 ++ split_on c l2.
Proof.
  induction l1 as [|x l1 IH]; simpl.
  - change (ascii_eqb c c) with (if ascii_dec c c then true else false).
    destruct (ascii_dec c c); [reflexivity|congruence].
  - destruct (ascii_eqb x c); [rewrite IH; reflexivity|].
    rewrite IH. pose proof (split_on_nonempty c l1) as Hne.
    destruct (split_on c l1) as [|w ws]; [congruence|reflexivity].
Qed.

Lemma last_index_of_from_spec (c : ascii) (l : list ascii) (k i : nat) (acc : option nat) :
  last_index_of_from c l k acc = Some i ->
  (acc = Some i /\ existsb (fun x => ascii_eqb x c) l = false) \/
  (k <= i /\ l !! (i - k) = Some c /\ existsb (fun x => ascii_eqb x c) (drop (S (i - k)) l) = false).
Proof.
  revert k acc. induction l as [|x l IH]; intros k acc H; simpl in H.
  - left. auto.
  - destruct (IH (S k) _ H) as [[Ha Hn]|(Hk & Hl & Hn)].
    + destruct (ascii_eqb x c) eqn:Ex.
      * right. inversion Ha; subst. rewrite Nat.sub_diag. apply ascii_eqb_true in Ex. subst.
        split; [lia|]. split; [reflexivity|exact Hn].
      * left. split; [exact Ha|]. simpl. rewrite Ex. exact Hn.
    + right. split; [lia|]. replace (i - k) with (S (i - S k)) by lia. simpl. auto.
Qed.

Lemma last_split_on (c : ascii) (l : list ascii) :
  List.last (split_on c l) [] =
  match last_index_of_from c l 0 None with None => l | Some i => drop (S i) l end.
Proof.
  destruct (last_index_of_from c l 0 None) as [i|] eqn:E.
  - destruct (last_index_of_from_spec c l 0 i None E) as [[Ha _]|(_ & Hl & Hn)]; [discriminate|].
    rewrite Nat.sub_0_r in Hl, Hn.
    rewrite <- (take_drop_middle l i c Hl) at 1.
    rewrite split_on_app_sep, (split_on_no_sep c _ Hn).
    rewrite List.last_last. reflexivity.
  - destruct (existsb (fun x => ascii_eqb x c) l) eqn:El.
    + destruct (last_index_of_from_some c l 0 None El) as [j Ej]. congruence.
    + rewrite split_on_no_sep by exact El. reflexivity.
Qed.

Lemma move_base_basename (source : string) :
  str (List.last (split_on c_slash (chars source)) []) = basename source.
Proof.
  rewrite last_split_on. unfold basename, last_index_of, slash.
  destruct (last_index_of_from c_slash (chars source) 0 None); [reflexivity|apply str_chars].
Qed.

Lemma basename_no_slash (source : string) : no_slash (chars (basename source)) = true.
Proof.
  rewrite <- move_base_basename, chars_str. unfold no_slash. apply negb_true_iff.
  pose proof (split_on_pieces c_slash (chars source)) as H.
  pose proof (split_on_nonempty c_slash (chars source)) as Hne.
  destruct (split_on c_slash (chars source)) as [|w ws] using rev_ind; [congruence|].
  rewrite List.last_last. apply Forall_app in H as [_ H]. apply Forall_cons in H as [H _]. exact H.
Qed.

Lemma move_target_path_join (source : string) (destinationPath : option string) :
  move_target source destinationPath =
  path_join (match destinationPath with Some d => d | None => "" end) (basename source).
Proof.
  unfold move_target, path_join. rewrite move_base_basename.
  destruct destinationPath; reflexivity.
Qed.

Lemma prefix_slash_in (p b : list ascii) : prefixb (p ++ [c_slash]) b = true -> no_slash b = false.
Proof.
  unfold no_slash. revert b. induction p as [|x p IH]; intros [|y b] H; simpl in H; try discriminate.
  - apply andb_true_iff in H as [H _]. apply ascii_eqb_true in H. subst. reflexivity.
  - apply andb_true_iff in H as [_ H]. apply IH in H. apply negb_false_iff in H.
    simpl. rewrite H, orb_true_r. reflexivity.
Qed.

Lemma prefix_slash_join (p d b : list ascii) : no_slash b = true ->
  prefixb (p ++ [c_slash]) (d ++ c_slash :: b) = true -> prefixb (p ++ [c_slash]) d = true \/ p = d.
Proof.
  intros Hb. revert d. induction p as [|x p IH]; intros [|y d] H.
  - right. reflexivity.
  - left. simpl in H |- *. exact H.
  - exfalso. simpl in H. apply andb_true_iff in H as [_ H]. apply prefix_slash_in in H. congruence.
  - simpl in H. apply andb_true_iff in H as [H1 H2]. apply ascii_eqb_true in H1. subst y.
    destruct (IH d H2) as [H|H].
    + left. simpl. rewrite H, andb_true_r. apply ascii_eqb_true. reflexivity.
    + right. subst. reflexivity.
Qed.

Lemma move_target_not_inside (s : string) (dest : option string) :
  match dest with
  | Some d => prefixb (chars (s +:+ "/")) (chars d) = false /\ String.eqb d s = false
  | None => True
  end ->
  prefixb (chars (s +:+ "/")) (chars (move_target s dest)) = false.
Proof.
  intros Hd. rewrite move_target_path_join, chars_app. change (chars "/") with [c_slash].
  pose proof (basename_no_slash s) as Hb.
  destruct (prefixb (chars s ++ [c_slash]) (chars (path_join _ (basename s)))) eqn:E; [exfalso|reflexivity].
  unfold path_join in E.
  destruct dest as [d|]; [destruct (String.eqb d "") eqn:Ed|].
  - apply prefix_slash_in in E. congruence.
  - rewrite !chars_app in E. change (chars "/") with [c_slash] in E. cbn [app] in E.
    destruct Hd as [H1 H2]. rewrite chars_app in H1. change (chars "/") with [c_slash] in H1.
    destruct (prefix_slash_join _ _ _ Hb E) as [H|H]; [congruence|].
    assert (s = d) by (rewrite <- (str_chars s), <- (str_chars d), H; reflexivity). subst d.
    rewrite String.eqb_refl in H2. discriminate.
  - rewrite String.eqb_refl in E. apply prefix_slash_in in E. congruence.
Qed.

(** X12: [handleRenameNode] keeps the node in its folder: for a new name
    without a slash, the new path has the old path's directory and the new
    name as its last component. *)
Theorem rename_target_same_folder (oldPath newName : string) :
  no_slash (chars newName) = true ->
  dirname (rename_target oldPath newName) = dirname oldPath /\
  basename (rename_target oldPath newName) = newName.
Proof. intros H. rewrite rename_target_path_join. apply path_join_dirname_basename, H. Qed.

Lemma rename_target_same_folder_witness :
  dirname (rename_target "src/a.ts" "b.ts") = dirname "src/a.ts" /\
  basename (rename_target "src/a.ts" "b.ts") = "b.ts".
Proof. apply rename_target_same_folder. vm_compute. reflexivity. Defined.

(** X13: [handleMoveNodes] moves each source into the destination folder
    (the root when there is none) and keeps its last path component. *)
Theorem move_target_lands_in_destination (source : string) (destinationPath : option string) :
  dirname (move_target source destinationPath) = match destinationPath with Some d => d | None => "" end /\
  basename (move_target source destinationPath) = basename source.
Proof. rewrite move_target_path_join. apply path_join_dirname_basename, basename_no_slash. Qed.

Lemma existsb_false_in {A} (f : A -> bool) (l : list A) (x : A) :
  existsb f l = false -> In x l -> f x = false.
Proof.
  induction l as [|y l IH]; cbn; [tauto|].
  intros H [<-|Hx]; apply orb_false_iff in H as [H1 H2]; auto.
Qed.

Lemma refreshProject_keeps (s : session) :
  (refreshProject s).1 = Ok tt /\
  mainp (refreshProject s).2 = mainp s /\ activeFile (refreshProject s).2 = activeFile s /\
  projectRoot (refreshProject s).2 = projectRoot s /\
  activeFileContent (refreshProject s).2 = activeFileContent s /\
  notification (refreshProject s).2 = notification s.
Proof.
  unfold refreshProject.
  destruct (List.find _ _) as [[nm p|nm p ch]|];
    try destruct (read_file_handler _ p); cbn; repeat split.
Qed.

Lemma refreshProject_eq (s : session) :
  refreshProject s = (Ok tt, (refreshProject s).2).
Proof. destruct (refreshProject_keeps s) as [H _]. destruct (refreshProject s); cbn in *; congruence. Qed.

Lemma rename_codes (d : disk) (src dst c : string) :
  Fs.rename d src dst = Err c ->
  c = "ENOENT" \/ c = "ENOTDIR" \/ c = "EINVAL" \/ c = "ENOTEMPTY" \/ c = "EISDIR".
Proof.
  unfold Fs.rename.
  destruct (resolve_codes d (dirname src)) as [E|[E|E]]; rewrite E;
    [|intros H; injection H as <-; auto|intros H; injection H as <-; auto].
  destruct (resolve_codes d (dirname dst)) as [E'|[E'|E']]; rewrite E';
    [|intros H; injection H as <-; auto|intros H; injection H as <-; auto].
  destruct (if String.eqb src "" then Some EDir else d !! src) as [es|]; [|intros H; injection H as <-; auto].
  destruct (strictly_under src dst); [intros H; injection H as <-; auto|].
  destruct (strictly_under dst src); [intros H; injection H as <-; auto|].
  destruct (String.eqb src dst); [discriminate|].
  destruct es; destruct (d !! dst) as [[]|]; try destruct (dir_nonempty d dst);
    intros H; try discriminate; injection H as <-; auto.
Qed.

Lemma rename_einval (d : disk) (src dst : string) :
  Fs.rename d src dst = Err "EINVAL" -> strictly_under src dst = true.
Proof.
  unfold Fs.rename.
  destruct (resolve_codes d (dirname src)) as [E|[E|E]]; rewrite E; [|discriminate|discriminate].
  destruct (resolve_codes d (dirname dst)) as [E'|[E'|E']]; rewrite E'; [|discriminate|discriminate].
  destruct (if String.eqb src "" then Some EDir else d !! src) as [es|]; [|discriminate].
  destruct (strictly_under src dst); [reflexivity|].
  destruct (strictly_under dst src); [discriminate|].
  destruct (String.eqb src dst); [discriminate|].
  destruct es; destruct (d !! dst) as [[]|]; try destruct (dir_nonempty d dst); discriminate.
Qed.

(** The renderer's message of a failed rename names its code first. *)
Lemma rename_message_einval (c sys sys' : string) (ps ps' : list string) :
  c = "ENOENT" \/ c = "ENOTDIR" \/ c = "EINVAL" \/ c = "ENOTEMPTY" \/ c = "EISDIR" ->
  invoke_error "rename-node" (node_error_message c sys ps) =
  invoke_error "rename-node" (node_error_message "EINVAL" sys' ps') -> c = "EINVAL".
Proof.
  intros [ -> | [ -> | [ -> | [ -> | -> ] ] ] ] H; try reflexivity; cbn in H; discriminate.
Qed.

Lemma handleDrop_not_inside (targetNode : option TreeNode) (sourcePaths srcs : list string)
  (dest : option string) (s : string) :
  handleDrop targetNode sourcePaths = Some (srcs, dest) -> In s srcs ->
  prefixb (chars (s +:+ "/")) (chars (move_target s dest)) = false.
Proof.
  unfold handleDrop. intros H Hs.
  destruct (match targetNode with Some t => _ | None => false end) eqn:Eb; [discriminate|].
  inversion H; subst srcs dest. clear H.
  apply move_target_not_inside.
  destruct targetNode as [[nm p|nm p ch]|]; try exact I.
  pose proof (existsb_false_in _ _ _ Eb Hs) as Eb'.
  cbn [node_path] in Eb'. apply orb_false_iff in Eb' as [E1 E2]. split; assumption.
Qed.

Lemma move_all_not_einval (srcs : list string) (dest : option string) (s : session) :
  (forall x, In x srcs -> strictly_under x (move_target x dest) = false) ->
  forall e, (move_all srcs dest s).1 = Err e ->
  forall sys ps, e <> invoke_error "rename-node" (node_error_message "EINVAL" sys ps).
Proof.
  revert s. induction srcs as [|x r IH]; intros s H; cbn [move_all]; [unfold ret; cbn; discriminate|].
  unfold bind at 1, ipc_rename_node, ipc_main.
  destruct (rename_node_handler (mainp s) x (move_target x dest)) as [m' res] eqn:E.
  destruct res as [u|c].
  - apply IH. intros y Hy. apply H. right. exact Hy.
  - cbn. intros e He sys ps Heq. injection He as <-.
    assert (Hr : Fs.rename (fs (mainp s)) x (move_target x dest) = Err c).
    { unfold rename_node_handler, lift in E.
      destruct (Fs.rename (fs (mainp s)) x (move_target x dest)); congruence. }
    pose proof (rename_codes _ _ _ _ Hr) as Hc.
    rewrite (rename_message_einval _ _ _ _ _ Hc Heq) in Hr.
    apply rename_einval in Hr. rewrite (H x (or_introl eq_refl)) in Hr. discriminate.
Qed.

(** X14: a move requested by the explorer's [handleDrop] never makes
    [rename-node] fail with [EINVAL]: the drop is refused when the target
    is one of the sources or lies inside one, so no folder is moved into
    itself, whatever the disk holds when each rename runs. *)
Theorem handleDrop_move_never_einval (targetNode : option TreeNode) (sourcePaths srcs : list string)
  (dest : option string) (s : session) :
  Forall (fun p => p <> "") sourcePaths ->
  handleDrop targetNode sourcePaths = Some (srcs, dest) ->
  forall e, (move_all srcs dest s).1 = Err e ->
  forall sys ps, e <> invoke_error "rename-node" (node_error_message "EINVAL" sys ps).
Proof.
  intros Hne H. apply move_all_not_einval. intros x Hx.
  assert (Hx' : In x sourcePaths) by (unfold handleDrop in H; destruct (match targetNode with Some t => _ | None => false end);
    [discriminate|injection H as <- _; exact Hx]).
  rewrite List.Forall_forall in Hne. specialize (Hne x Hx').
  unfold strictly_under. rewrite (string_eqb_neq _ _ Hne).
  exact (handleDrop_not_inside _ _ _ _ _ H Hx).
Qed.

Lemma handleDrop_move_never_einval_witness :
  Forall (fun p => p <> "") ["a.txt"] /\
  handleDrop (Some (FolderNode "src" "src" [])) ["a.txt"] = Some (["a.txt"], Some "src") /\
  forall e, (move_all ["a.txt"] (Some "src") session_two_files).1 = Err e ->
  forall sys ps, e <> invoke_error "rename-node" (node_error_message "EINVAL" sys ps).
Proof.
  split; [repeat constructor; discriminate|]. split; [reflexivity|].
  apply (handleDrop_move_never_einval (Some (FolderNode "src" "src" [])) ["a.txt"]);
    [repeat constructor; discriminate|reflexivity].
Defined.

(** X15: the selection update of [handleSelectNode] keeps the selection
    free of repeats. *)
Theorem select_update_nodup (prev : list string) (path : string) (isCtrlOrMeta : bool) :
  NoDup prev -> NoDup (select_update prev path isCtrlOrMeta).
Proof.
  intros H. unfold select_update. destruct isCtrlOrMeta; [|constructor; [apply not_elem_of_nil|constructor]].
  destruct (existsb (String.eqb path) prev) eqn:E.
  - apply NoDup_ListNoDup, List.NoDup_filter, NoDup_ListNoDup, H.
  - apply NoDup_app. split; [exact H|]. split; [|apply NoDup_singleton].
    intros x Hx Hx'. apply list_elem_of_singleton in Hx'. subst x.
    apply list_elem_of_In in Hx.
    assert (existsb (String.eqb path) prev = true) by (apply existsb_exists; exists path; split; [exact Hx|apply String.eqb_refl]).
    congruence.
Qed.

Lemma select_update_nodup_witness : NoDup (select_update ["a.txt"] "b.txt" true).
Proof. apply select_update_nodup. apply NoDup_singleton. Defined.

(** X16: ctrl-clicking the same node twice gives back the selection's
    members. *)
Theorem select_toggle_twice (sel : list string) (path q : string) :
  In q (select_update (select_update sel path true) path true) <-> In q sel.
Proof.
  unfold select_update.
  destruct (existsb (String.eqb path) sel) eqn:E.
  - destruct (existsb (String.eqb path) (List.filter _ sel)) eqn:E2.
    + apply existsb_exists in E2 as [y [Hy Hy']]. apply filter_In in Hy as [_ Hy].
      apply String.eqb_eq in Hy'. subst y. rewrite String.eqb_refl in Hy. discriminate.
    + rewrite in_app_iff, filter_In. cbn. split.
      * intros [[Hq _]|[<-|[]]]; [exact Hq|].
        apply existsb_exists in E as [y [Hy Hy']]. apply String.eqb_eq in Hy'. congruence.
      * intros Hq. destruct (String.eqb q path) eqn:Eq.
        -- right. left. symmetry. apply String.eqb_eq, Eq.
        -- left. split; [exact Hq|reflexivity].
  - assert (E2 : existsb (String.eqb path) (sel ++ [path]) = true)
      by (apply existsb_exists; exists path; rewrite in_app_iff; split; [right; left; reflexivity|apply String.eqb_refl]).
    rewrite E2, filter_In, in_app_iff. cbn. split.
    + intros [[Hq|[<-|[]]] Hn]; [exact Hq|]. rewrite String.eqb_refl in Hn. discriminate.
    + intros Hq. split; [left; exact Hq|].
      destruct (String.eqb q path) eqn:Eq; [|reflexivity].
      apply String.eqb_eq in Eq. subst q.
      assert (existsb (String.eqb path) sel = true) by (apply existsb_exists; exists path; split; [exact Hq|apply String.eqb_refl]).
      congruence.
Qed.

(** X17: after the [project-updated] listener ran, the disk is unchanged,
    an active file shows its content on disk, and when no file is active
    either none was before or the content was cleared. *)
Theorem handleUpdate_active_file_consistent (s0 : session) :
  (handleUpdate s0).1 = Ok tt /\ mainp (handleUpdate s0).2 = mainp s0 /\
  (forall f, activeFile (handleUpdate s0).2 = Some f ->
             read_file_handler (mainp (handleUpdate s0).2) f = Ok (activeFileContent (handleUpdate s0).2)) /\
  (activeFile (handleUpdate s0).2 = None ->
   activeFile s0 = None \/ activeFileContent (handleUpdate s0).2 = "").
Proof.
  unfold handleUpdate, bind.
  destruct (refreshProject_keeps s0) as (_ & Hm & Ha & _ & _ & _).
  rewrite refreshProject_eq. set (s1 := (refreshProject s0).2) in *.
  destruct (activeFile s0) as [f|] eqn:Ef.
  - destruct (read_file_handler (mainp s1) f) as [c|e] eqn:Er; cbn; (split; [reflexivity|]).
    + split; [exact Hm|]. cbn. rewrite Ha. split; [|discriminate]. intros g Hg. inversion Hg; subst g.
      exact Er.
    + split; [exact Hm|]. split; [discriminate|]. intros _. right. reflexivity.
  - unfold ret. cbn. split; [reflexivity|]. split; [exact Hm|]. split; [|intros _; left; reflexivity].
    intros g Hg. congruence.
Qed.

(** Removing entries never makes a path run through a regular file. *)
Lemma resolve_fold_sub (d d' : disk) (l : list string) :
  (forall q, d' !! q = d !! q \/ d' !! q = None) ->
  fold_left (resolve_step d) l (Ok tt) <> Err "ENOTDIR" ->
  fold_left (resolve_step d') l (Ok tt) <> Err "ENOTDIR".
Proof.
  intros Hs. induction l as [|x l IH]; cbn; [auto|].
  destruct (Hs x) as [E|E]; rewrite E.
  - destruct (d !! x) as [[]|]; rewrite ?resolve_fold_err; auto.
  - destruct (d !! x) as [[]|]; rewrite !resolve_fold_err; intros H; [|discriminate|discriminate].
    exfalso. exact (H eq_refl).
Qed.

Lemma resolve_sub (d d' : disk) (p : string) :
  (forall q, d' !! q = d !! q \/ d' !! q = None) ->
  resolve d p <> Err "ENOTDIR" -> resolve d' p <> Err "ENOTDIR".
Proof. unfold resolve. destruct (String.eqb p ""); [auto|]. apply resolve_fold_sub. Qed.

Lemma rm_rf_not_enotdir (d : disk) (p : string) :
  resolve d (dirname p) <> Err "ENOTDIR" -> rm_rf d p = Ok (filter (fun kv => negb (under p kv.1)) d).
Proof.
  unfold rm_rf. destruct (resolve_codes d (dirname p)) as [E|[E|E]]; rewrite E; [reflexivity|reflexivity|].
  intros H. exfalso. exact (H eq_refl).
Qed.

Lemma delete_all_spec (ps : list string) (s : session) :
  Forall (fun p => resolve (fs (mainp s)) (dirname p) <> Err "ENOTDIR") ps ->
  exists m', delete_all ps s = (Ok tt, set_mainp s m') /\
    forall q, fs m' !! q = if existsb (fun p => under p q) ps then None else fs (mainp s) !! q.
Proof.
  revert s. induction ps as [|p r IH]; intros s Hnd.
  - exists (mainp s). split; [|reflexivity]. destruct s; reflexivity.
  - apply Forall_cons in Hnd as [Hp Hnd].
    cbn [delete_all]. unfold bind at 1, ipc_delete_node, ipc_main, delete_node_handler, lift.
    rewrite (rm_rf_not_enotdir _ _ Hp).
    destruct (IH (set_mainp s (with_fs (mainp s) (filter (fun kv => negb (under p kv.1)) (fs (mainp s))))))
      as [m' [E Hq]].
    { eapply Forall_impl; [exact Hnd|]. intros x Hx. cbn [mainp set_mainp fs with_fs].
      apply (resolve_sub (fs (mainp s))); [|exact Hx]. intros q.
      rewrite map_lookup_filter. destruct (fs (mainp s) !! q); cbn; [|right; reflexivity].
      destruct (negb (under p q)); cbn; [left|right]; reflexivity. }
    exists m'. cbv beta iota zeta. cbn [reject]. rewrite E. split; [destruct s; reflexivity|].
    intros q. rewrite Hq. cbn [existsb]. cbn [mainp set_mainp fs with_fs].
    destruct (under p q) eqn:U; cbn [orb]; destruct (existsb _ r); try reflexivity.
    + apply map_lookup_filter_None. right. intros x _. cbn. rewrite U. cbn. tauto.
    + destruct (fs (mainp s) !! q) eqn:Eq.
      * apply map_lookup_filter_Some_2; [exact Eq|]. cbn. rewrite U. exact I.
      * apply map_lookup_filter_None. left. exact Eq.
Qed.

(** X18: [handleDeleteNodes] in an open project removes every selected
    node with its subtree and nothing else, closes the active file only
    when it is one of the deleted paths, and reports the number of deleted
    items. Paths are below the root, and none runs through a regular file
    (see X11). *)
Theorem handleDeleteNodes_outcome (pathsToDelete : list string) (s0 : session) :
  projectRoot s0 <> None -> Forall (fun p => p <> "") pathsToDelete ->
  Forall (fun p => resolve (fs (mainp s0)) (dirname p) <> Err "ENOTDIR") pathsToDelete ->
  (handleDeleteNodes pathsToDelete s0).1 = Ok tt /\
  (forall q, fs (mainp (handleDeleteNodes pathsToDelete s0).2) !! q =
             if existsb (fun p => under p q) pathsToDelete then None else fs (mainp s0) !! q) /\
  activeFile (handleDeleteNodes pathsToDelete s0).2 =
    match activeFile s0 with
    | Some f => if existsb (String.eqb f) pathsToDelete then None else Some f
    | None => None
    end /\
  notification (handleDeleteNodes pathsToDelete s0).2 =
    Some (nat_str (length pathsToDelete) +:+ " item(s) deleted.").
Proof.
  intros Hr _ Hnd. destruct (projectRoot s0) as [r|] eqn:Er; [|congruence].
  destruct (delete_all_spec pathsToDelete (set_recent s0 []) Hnd) as [m' [E Hq]].
  cbv [handleDeleteNodes clearIndicators with_root catch_err bind modify].
  change (projectRoot (set_recent s0 [])) with (projectRoot s0). rewrite Er.
  rewrite E.
  destruct (activeFile s0) as [f|] eqn:Ef; [destruct (existsb (String.eqb f) pathsToDelete) eqn:Ex|];
    cbv [ret]; cbv beta iota zeta;
    match goal with |- context [refreshProject ?x] =>
      destruct (refreshProject_keeps x) as (_ & Hm & Ha & _ & _ & _); rewrite (refreshProject_eq x) end;
    cbv [notify modify]; cbv beta iota zeta; cbn [fst snd notification set_notification];
    (split; [reflexivity|]); (split; [|split; [|reflexivity]]).
  all: try (intros q; cbn [mainp set_notification]; rewrite Hm; cbn [mainp set_mainp]; exact (Hq q)).
  all: cbn [activeFile set_notification]; rewrite Ha; try reflexivity; exact Ef.
Qed.

Lemma handleDeleteNodes_outcome_witness :
  (handleDeleteNodes ["a.txt"] (set_activeFile session_two_files (Some "a.txt"))).1 = Ok tt /\
  (forall q, fs (mainp (handleDeleteNodes ["a.txt"] (set_activeFile session_two_files (Some "a.txt"))).2) !! q =
             if existsb (fun p => under p q) ["a.txt"] then None
             else fs (mainp (set_activeFile session_two_files (Some "a.txt"))) !! q) /\
  activeFile (handleDeleteNodes ["a.txt"] (set_activeFile session_two_files (Some "a.txt"))).2 =
    (match activeFile (set_activeFile session_two_files (Some "a.txt")) with
     | Some f => if existsb (String.eqb f) ["a.txt"] then None else Some f
     | None => None
     end) /\
  notification (handleDeleteNodes ["a.txt"] (set_activeFile session_two_files (Some "a.txt"))).2 =
    Some (nat_str (length ["a.txt"]) +:+ " item(s) deleted.").
Proof.
  apply handleDeleteNodes_outcome; [discriminate| |].
  - constructor; [discriminate|constructor].
  - constructor; [vm_compute; discriminate|constructor].
Defined.


Lemma lift_ok (m : main_state) (r : result disk) :
  (lift m r).2 = Ok tt -> exists d, r = Ok d /\ lift m r = (with_fs m d, Ok tt).
Proof. destruct r as [d|e]; cbn; [|discriminate]. intros _. exists d. split; reflexivity. Qed.



(** X20: when [rename-node] succeeds, [handleRenameNode] leaves the disk
    as the rename made it, makes the renamed path the active file when the
    old path was active, and notifies the success. *)
Theorem handleRenameNode_success (oldPath newName : string) (s0 : session) :
  projectRoot s0 <> None ->
  (rename_node_handler (mainp s0) oldPath (rename_target oldPath newName)).2 = Ok tt ->
  (handleRenameNode oldPath newName s0).1 = Ok tt /\
  mainp (handleRenameNode oldPath newName s0).2 =
    (rename_node_handler (mainp s0) oldPath (rename_target oldPath newName)).1 /\
  activeFile (handleRenameNode oldPath newName s0).2 =
    (if (match activeFile s0 with Some f => String.eqb f oldPath | None => false end)
     then Some (rename_target oldPath newName) else activeFile s0) /\
  notification (handleRenameNode oldPath newName s0).2 = Some "Renamed successfully.".
Proof.
  intros Hr Ho. destruct (projectRoot s0) as [r|] eqn:Er; [|congruence].
  unfold rename_node_handler in *. apply lift_ok in Ho as [d [_ Ho]]. rewrite Ho.
  cbv [handleRenameNode clearIndicators with_root catch_err bind modify ipc_rename_node ipc_main reject].
  change (projectRoot (set_recent s0 [])) with (projectRoot s0). rewrite Er.
  change (mainp (set_recent s0 [])) with (mainp s0).
  unfold rename_node_handler. rewrite Ho. cbv beta iota zeta.
  destruct (match activeFile s0 with Some f => String.eqb f oldPath | None => false end) eqn:Ea;
    cbv [ret]; cbv beta iota zeta;
    match goal with |- context [refreshProject ?x] =>
      destruct (refreshProject_keeps x) as (_ & Hm & Ha & _ & _ & _); rewrite (refreshProject_eq x) end;
    cbv [notify modify]; cbv beta iota zeta; cbn [fst snd notification set_notification];
    (split; [reflexivity|]); (split; [|split; [|reflexivity]]);
    cbn [mainp activeFile set_notification]; rewrite ?Hm, ?Ha; reflexivity.
Qed.

Lemma handleRenameNode_success_witness :
  (handleRenameNode "a.txt" "c.txt" (set_activeFile session_two_files (Some "a.txt"))).1 = Ok tt /\
  mainp (handleRenameNode "a.txt" "c.txt" (set_activeFile session_two_files (Some "a.txt"))).2 =
    (rename_node_handler (mainp (set_activeFile session_two_files (Some "a.txt"))) "a.txt"
       (rename_target "a.txt" "c.txt")).1 /\
  activeFile (handleRenameNode "a.txt" "c.txt" (set_activeFile session_two_files (Some "a.txt"))).2 =
    (if (match activeFile (set_activeFile session_two_files (Some "a.txt")) with
         | Some f => String.eqb f "a.txt" | None => false end)
     then Some (rename_target "a.txt" "c.txt")
     else activeFile (set_activeFile session_two_files (Some "a.txt"))) /\
  notification (handleRenameNode "a.txt" "c.txt" (set_activeFile session_two_files (Some "a.txt"))).2 =
    Some "Renamed successfully.".
Proof. apply handleRenameNode_success; [discriminate|vm_compute; reflexivity]. Defined.



(** X22: adding a file that [create-file] can create opens it: it becomes
    the active file and reads back empty. *)
Theorem handleAddNode_file_opens_empty (filePath : string) (s0 : session) :
  projectRoot s0 <> None -> (create_file_handler (mainp s0) filePath).2 = Ok tt ->
  (handleAddNode filePath false s0).1 = Ok tt /\
  activeFile (handleAddNode filePath false s0).2 = Some filePath /\
  read_file_handler (mainp (handleAddNode filePath false s0).2) filePath = Ok "".
Proof.
  intros Hr Ho. destruct (projectRoot s0) as [r|] eqn:Er; [|congruence].
  pose proof (create_file_reads_empty _ _ Ho) as Hc.
  unfold create_file_handler in *. apply lift_ok in Ho as [d [_ Ho]]. rewrite Ho in Hc.
  cbv [handleAddNode clearIndicators with_root catch_err bind modify ipc_create_file ipc_main reject].
  change (projectRoot (set_recent s0 [])) with (projectRoot s0). rewrite Er.
  change (mainp (set_recent s0 [])) with (mainp s0).
  unfold create_file_handler. rewrite Ho. cbv beta iota zeta.
  match goal with |- context [refreshProject ?x] =>
    destruct (refreshProject_keeps x) as (_ & Hm & Ha & _ & _ & _); rewrite (refreshProject_eq x) end.
  cbv beta iota zeta. cbn [fst snd]. split; [reflexivity|]. rewrite Ha, Hm. split; [reflexivity|].
  exact Hc.
Qed.

Lemma handleAddNode_file_opens_empty_witness :
  (handleAddNode "c.txt" false session_two_files).1 = Ok tt /\
  activeFile (handleAddNode "c.txt" false session_two_files).2 = Some "c.txt" /\
  read_file_handler (mainp (handleAddNode "c.txt" false session_two_files).2) "c.txt" = Ok "".
Proof. apply handleAddNode_file_opens_empty; [discriminate|vm_compute; reflexivity]. Defined.
